(** * check-pages: the verification queue of [checkPages.js]

    A shallow embedding of [checkPages.js] and [requestFile.js]: the
    checks of the arguments, the callback queue ([pendingCallbacks],
    [next]), the page check ([testPage], [addLinks]) and the link check
    ([testLink]), together with the properties of the specification that
    concern them and with further properties of the code.

    The packages the module consumes ([url], [request], [fs], [cheerio],
    [sax], [crypto], [crc-hash]) and the clock are not part of the
    repository; they are gathered in one record, [Env], over which every
    definition and theorem is parameterised. *)

From Stdlib Require Import String Ascii DecimalString.
From stdpp Require Import base option list strings gmap.

Local Open Scope string_scope.
Local Open Scope list_scope.

(** ** JavaScript strings

    A string is kept as the sequence of its characters, a character
    outside ASCII as the bytes of its UTF-8 form. The mapping of strings
    to upper and lower case depends on Unicode and is taken from the
    environment ([toUpperCase] and [toLowerCase] of [Env]). *)

Module Js.

(** A value used as a condition: [undefined], [null] and the empty string
    are falsy, every other string is truthy. *)
Definition truthy (v : option string) : bool :=
  match v with
  | Some s => negb (String.eqb s "")
  | None => false
  end.

(** [null] and [undefined] coerced by a function that expects a string. *)
Definition coerce (v : option string) : string :=
  match v with
  | Some s => s
  | None => "null"
  end.

(** [a || b] on strings. *)
Definition or_else (v : option string) (d : string) : string :=
  if truthy v then coerce v else d.

(** The letters A-Z and a-z in the other case; every other character is
    left as it is. *)
Definition upper_char (c : ascii) : ascii :=
  let n := nat_of_ascii c in
  if (97 <=? n)%nat && (n <=? 122)%nat then ascii_of_nat (n - 32) else c.

Definition lower_char (c : ascii) : ascii :=
  let n := nat_of_ascii c in
  if (65 <=? n)%nat && (n <=? 90)%nat then ascii_of_nat (n + 32) else c.

Fixpoint map_chars (f : ascii -> ascii) (s : string) : string :=
  match s with
  | EmptyString => EmptyString
  | String c s' => String (f c) (map_chars f s')
  end.

(** What [toUpperCase] and [toLowerCase] give for a string of ASCII
    characters. *)
Definition asciiUpper : string -> string := map_chars upper_char.
Definition asciiLower : string -> string := map_chars lower_char.

(** A number converted to a string by [+]. *)
Definition of_nat (n : nat) : string := NilZero.string_of_uint (Nat.to_uint n).

(** [array.indexOf(x) !== -1] *)
Definition includes (x : string) (l : list string) : bool :=
  existsb (String.eqb x) l.

(** [array.splice(index, 0, x)]: an index beyond the end inserts at the end. *)
Definition splice {A} (index : nat) (x : A) (l : list A) : list A :=
  take index l ++ x :: drop index l.

End Js.

(** ** Regular expressions

    The regular-expression literals of the source are kept as syntax trees
    and run by a small backtracking matcher, so that each one can be read
    against the literal it stands for. *)

Module Regex.

Inductive regex : Type :=
  | Lit (s : string)            (* literal characters *)
  | Range (lo hi : ascii)       (* [lo-hi] *)
  | OneOf (cs : string)         (* [abc] *)
  | NoneOf (cs : string)        (* [^abc] *)
  | Digit                       (* \d *)
  | Seq (r1 r2 : regex)
  | Alt (r1 r2 : regex)
  | Star (r : regex)            (* r* *)
  | Opt (r : regex)             (* r? *)
  | Bol                         (* ^ *)
  | Eol.                        (* $ *)

(** A position in the subject: whether it is the start, and what remains. *)
Definition position : Type := bool * string.

Definition same_char (ci : bool) (a b : ascii) : bool :=
  if ci then Ascii.eqb (Js.lower_char a) (Js.lower_char b) else Ascii.eqb a b.

Fixpoint mem_char (ci : bool) (c : ascii) (cs : string) : bool :=
  match cs with
  | EmptyString => false
  | String d cs' => same_char ci c d || mem_char ci c cs'
  end.

Definition in_range (lo hi c : ascii) : bool :=
  (nat_of_ascii lo <=? nat_of_ascii c)%nat && (nat_of_ascii c <=? nat_of_ascii hi)%nat.

(** The rest of [s] after the literal [l], if [s] starts with it. *)
Fixpoint strip (ci : bool) (l s : string) : option string :=
  match l, s with
  | EmptyString, _ => Some s
  | String a l', String b s' => if same_char ci a b then strip ci l' s' else None
  | String _ _, EmptyString => None
  end.

Definition one (p : ascii -> bool) (at_ : position) : list position :=
  match at_.2 with
  | String c s' => if p c then [(false, s')] else []
  | EmptyString => []
  end.

Definition shorter (p q : position) : bool :=
  (String.length p.2 <? String.length q.2)%nat.

(** All the positions at which a match of [r] begun at [at_] can end.
    With [ci] letters are compared without regard to case (the [i] flag). *)
Fixpoint run (ci : bool) (r : regex) (at_ : position) : list position :=
  match r with
  | Lit l =>
      match strip ci l at_.2 with
      | Some rest => [(at_.1 && String.eqb l "", rest)]
      | None => []
      end
  | Range lo hi => one (in_range lo hi) at_
  | OneOf cs => one (fun c => mem_char ci c cs) at_
  | NoneOf cs => one (fun c => negb (mem_char ci c cs)) at_
  | Digit => one (in_range "0" "9") at_
  | Seq r1 r2 => flat_map (run ci r2) (run ci r1 at_)
  | Alt r1 r2 => run ci r1 at_ ++ run ci r2 at_
  | Star r1 =>
      (fix iterate (n : nat) (p : position) {struct n} : list position :=
         p :: match n with
              | O => []
              | S n' => flat_map (iterate n') (filter (fun q => shorter q p) (run ci r1 p))
              end) (String.length at_.2) at_
  | Opt r1 => at_ :: run ci r1 at_
  | Bol => if at_.1 then [at_] else []
  | Eol => if String.eqb at_.2 "" then [at_] else []
  end.

Definition matches_at (ci : bool) (r : regex) (at_ : position) : bool :=
  match run ci r at_ with
  | [] => false
  | _ :: _ => true
  end.

Fixpoint search (ci : bool) (r : regex) (start : bool) (s : string) : bool :=
  matches_at ci r (start, s) ||
  match s with
  | EmptyString => false
  | String _ s' => search ci r false s'
  end.

(** [/r/.test(s)], and [/r/i.test(s)] when [ci] is set: a match may begin
    anywhere in [s]. *)
Definition test (ci : bool) (r : regex) (s : string) : bool := search ci r true s.

Fixpoint alternatives (rs : list regex) : regex :=
  match rs with
  | [] => Lit ""
  | [r] => r
  | r :: rs' => Alt r (alternatives rs')
  end.

Fixpoint sequence (rs : list regex) : regex :=
  match rs with
  | [] => Lit ""
  | [r] => r
  | r :: rs' => Seq r (sequence rs')
  end.

End Regex.

(** ** The regular-expression literals of [checkPages.js] *)

Module Patterns.
Import Regex.

Definition quote : string := String (ascii_of_nat 34) EmptyString.

(** [/^[\u0000-\u007f]*$/] *)
Definition asciiOnly : regex :=
  sequence [Bol; Star (Range (ascii_of_nat 0) (ascii_of_nat 127)); Eol].

(** [/^(localhost)|(127\.\d\d?\d?\.\d\d?\d?\.\d\d?\d?)|(\[[0\:]*\:[0\:]*\:0?0?0?1\])$/i]:
    the alternation binds weaker than the anchors, so [^] belongs to the
    first alternative only and [$] to the last one only. *)
Definition localhost : regex :=
  alternatives
    [ Seq Bol (Lit "localhost");
      sequence [Lit "127."; Digit; Opt Digit; Opt Digit;
                Lit "."; Digit; Opt Digit; Opt Digit;
                Lit "."; Digit; Opt Digit; Opt Digit];
      sequence [Lit "["; Star (OneOf "0:"); Lit ":"; Star (OneOf "0:"); Lit ":";
                Opt (Lit "0"); Opt (Lit "0"); Opt (Lit "0"); Lit "1"; Lit "]"; Eol] ].

(** [/max-age|max-stale|min-fresh|must-revalidate|no-cache|no-store|no-transform|only-if-cached|private|proxy-revalidate|public|s-maxage/] *)
Definition cacheControlDirective : regex :=
  alternatives
    [ Lit "max-age"; Lit "max-stale"; Lit "min-fresh"; Lit "must-revalidate";
      Lit "no-cache"; Lit "no-store"; Lit "no-transform"; Lit "only-if-cached";
      Lit "private"; Lit "proxy-revalidate"; Lit "public"; Lit "s-maxage" ].

(** The pattern for ETag values: [^], an optional [W/], a double quote,
    any number of characters other than a double quote, a double quote,
    [$]. *)
Definition etagSyntax : regex :=
  sequence [Bol; Opt (Lit "W/"); Lit quote; Star (NoneOf quote); Lit quote; Eol].

(** [/no-cache|max-age=0/] *)
Definition notCached : regex := Alt (Lit "no-cache") (Lit "max-age=0").

(** [/^(deflate|gzip)$/] *)
Definition contentEncodingSyntax : regex :=
  sequence [Bol; Alt (Lit "deflate") (Lit "gzip"); Eol].

End Patterns.

(** ** The environment of the module *)

(** What [url.parse] returns ([null] is [None]). *)
Record Url : Type := mkUrl {
  protocol : option string;
  slashes : bool;
  auth : option string;
  host : option string;
  port : option string;
  hostname : option string;
  hash : option string;
  search : option string;
  query : option string;
  pathname : option string;
  path : option string;
  href : option string
}.

Inductive Method : Type := GET | HEAD.

(** Which implementation [requestFor] selects. *)
Inductive Transport : Type := Http | File.

(** One call of a request function: the implementation, the URI and the
    options passed to it. *)
Record Request : Type := mkRequest {
  req_via : Transport;
  req_uri : string;
  req_method : Method;
  req_followRedirect : bool
}.

(** An [http.IncomingMessage] as the module reads it, together with the
    content that came with it. The headers are found by their names in
    lower case; [request_href] is [res.request.href]. *)
Record Response : Type := mkResponse {
  statusCode : nat;
  headers : gmap string string;
  request_href : string;
  body : string
}.

(** How a request ends: with an [error] event (an [err] argument), or with
    a response that was read to its end. *)
Inductive Reply : Type :=
  | Failed (message : string)
  | Ended (res : Response).

(** An element of the parsed document, with its attributes. *)
Record Element : Type := mkElement {
  tag : string;
  attributes : gmap string string
}.

Inductive Algorithm : Type := sha1 | md5 | crc32.

(** A property of the object that [url.parse(link, true).query] holds: a
    string for a parameter that the query has once, the array of its
    values for a parameter that the query has more than once. *)
Inductive QueryValue : Type :=
  | Single (value : string)
  | Repeated (values : list string).

Record Env : Type := mkEnv {
  (* String.prototype *)
  toUpperCase : string -> string;
  toLowerCase : string -> string;
  (* url *)
  url_parse : string -> Url;
  url_query : string -> gmap string QueryValue;   (* [url.parse(link, true).query] *)
  url_format : Url -> string;
  url_resolve : string -> string -> string;
  decodeURI : string -> option string;        (* [None]: a URIError is thrown *)
  encodeURI : string -> string;
  (* request: how the n-th request of the run ends *)
  http : nat -> Request -> Reply;
  (* fs: reading the file at a path, as the n-th request of the run, gives
     an error message or the content *)
  fs : nat -> option string -> string + string;
  (* Date.now: the milliseconds that pass between the start of the n-th
     request and the call of its handler *)
  clock : nat -> nat;
  (* cheerio: the elements of the document, in document order *)
  cheerio_load : string -> list Element;
  (* sax, strict mode: the messages of the errors reported *)
  sax_errors : string -> list string;
  (* crypto and crc-hash: the digest of a content, in hexadecimal *)
  digest : Algorithm -> string -> string
}.

(** The options after normalisation. *)
Record Options : Type := mkOptions {
  pageUrls : list string;
  checkLinks : bool;
  onlySameDomain : bool;
  noRedirects : bool;
  noLocalLinks : bool;
  noEmptyFragments : bool;
  queryHashes : bool;
  linksToIgnore : list string;
  checkXhtml : bool;
  checkCaching : bool;
  checkCompression : bool;
  maxResponseTime : option nat;
  summary : bool
}.

(** ** The arguments as they are given

    The values that a caller can pass for [host], [options] and [done].
    Numbers are the integers; an object is the map of its own properties,
    and a function has none. *)
#[warnings="-register-all"]
Inductive Value : Type :=
  | Undefined
  | Null
  | Bool (b : bool)
  | Number (n : Z)
  | Str (s : string)
  | Array (items : list Value)
  | Object (fields : gmap string Value)
  | Function.

(** [typeof v] *)
Definition typeOf (v : Value) : string :=
  match v with
  | Undefined => "undefined"
  | Null => "object"
  | Bool _ => "boolean"
  | Number _ => "number"
  | Str _ => "string"
  | Array _ => "object"
  | Object _ => "object"
  | Function => "function"
  end.

(** [!!v] *)
Definition truthyValue (v : Value) : bool :=
  match v with
  | Undefined => false
  | Null => false
  | Bool b => b
  | Number n => negb (n =? 0)%Z
  | Str s => negb (String.eqb s "")
  | Array _ => true
  | Object _ => true
  | Function => true
  end.

(** [Array.isArray(v)] *)
Definition isArray (v : Value) : bool :=
  match v with
  | Array _ => true
  | _ => false
  end.

(** [v[name]] and [v.name], for the names that the module reads: an
    array and a function have no such property. *)
Definition getProperty (v : Value) (name : string) : Value :=
  match v with
  | Object fields => default Undefined (fields !! name)
  | _ => Undefined
  end.

(** [v.name = x] *)
Definition setProperty (name : string) (x : Value) (v : Value) : Value :=
  match v with
  | Object fields => Object (<[name := x]> fields)
  | _ => v
  end.

(** The defaults given to [request.defaults]. *)
Record RequestDefaults : Type := mkRequestDefaults {
  gzip : bool;
  defaultHeaders : gmap string string
}.

(** A step of the checks of the arguments: it runs on the options
    object, may assign to its properties, and throws or returns; the
    object is left as the step made it either way. *)
Definition Check (A : Type) : Type := Value -> Value * (string + A).

Definition ret {A} (a : A) : Check A := fun o => (o, inr a).

Definition throw {A} (message : string) : Check A := fun o => (o, inl message).

Definition bind {A B} (m : Check A) (f : A -> Check B) : Check B :=
  fun o =>
    match m o with
    | (o', inr a) => f a o'
    | (o', inl message) => (o', inl message)
    end.

(** [options.name] *)
Definition readOption (name : string) : Check Value :=
  fun o => (o, inr (getProperty o name)).

(** [options.name = x] *)
Definition writeOption (name : string) (x : Value) : Check unit :=
  fun o => (setProperty name x o, inr tt).

(** The outcome of a step that does not touch the options. *)
Definition lift {A} (r : string + A) : Check A := fun o => (o, r).

Notation "'let*' x ':=' m 'in' f" := (bind m (fun x => f))
  (at level 10, x name, m at level 100, f at level 200).
Notation "m ';;' f" := (bind m (fun _ => f))
  (at level 100, f at level 200, right associativity).

(** The functions held by [pendingCallbacks]: the closures returned by
    [testPage] and [testLink], and the one that calls [done]. *)
Inductive Callback : Type :=
  | TestPage (page : string)
  | TestLink (page link : string) (retryWithGet : bool)
  | Done.

(** The variables of the module, and what it did to its surroundings:
    the lines given to [host.log] and [host.error], the requests made, and
    the calls of [done] with their arguments. *)
Record State : Type := mkState {
  pendingCallbacks : list Callback;
  issues : list (string * string);
  testedLinks : list string;
  logged : list string;
  errors : list string;
  requests : list Request;
  completions : list (option string * nat)
}.

(** What invoking a queued function leads to. *)
Inductive Outcome : Type :=
  | Next (s : State)                    (* it calls [callback()] *)
  | Call (c : Callback) (s : State)     (* it hands [callback] to another function *)
  | Return (s : State)                  (* it ends without calling [callback] *)
  | Throw (message : string) (s : State).

Definition state_of (o : Outcome) : State :=
  match o with
  | Next s | Call _ s | Return s | Throw _ s => s
  end.

Definition set_pendingCallbacks (q : list Callback) (s : State) : State :=
  mkState q (issues s) (testedLinks s) (logged s) (errors s) (requests s) (completions s).

Definition push_testedLink (l : string) (s : State) : State :=
  mkState (pendingCallbacks s) (issues s) (testedLinks s ++ [l]) (logged s) (errors s)
          (requests s) (completions s).

Definition push_request (r : Request) (s : State) : State :=
  mkState (pendingCallbacks s) (issues s) (testedLinks s) (logged s) (errors s)
          (requests s ++ [r]) (completions s).

Definition push_completion (c : option string * nat) (s : State) : State :=
  mkState (pendingCallbacks s) (issues s) (testedLinks s) (logged s) (errors s)
          (requests s) (completions s ++ [c]).

(** [host.log(message)] *)
Definition host_log (message : string) (s : State) : State :=
  mkState (pendingCallbacks s) (issues s) (testedLinks s) (logged s ++ [message]) (errors s)
          (requests s) (completions s).

(** [host.error(message)] *)
Definition host_error (message : string) (s : State) : State :=
  mkState (pendingCallbacks s) (issues s) (testedLinks s) (logged s) (errors s ++ [message])
          (requests s) (completions s).

(** Logs an error for a page. *)
Definition logPageError (page message : string) (s : State) : State :=
  let s := host_error message s in
  mkState (pendingCallbacks s) (issues s ++ [(page, message)]) (testedLinks s) (logged s)
          (errors s) (requests s) (completions s).

(** ** A small environment for the examples

    A URL reader that is enough for absolute [http:] and [file:] URLs
    written in lower case and in ASCII, the mapping of ASCII strings to
    upper and lower case, and tables in place of the parsers and of the
    hash functions. On the URLs, documents and contents used in the
    examples below they agree with the packages they stand for. *)

Module Demo.

Fixpoint splitAt (c : ascii) (s : string) : string * option string :=
  match s with
  | EmptyString => (EmptyString, None)
  | String d rest =>
      if Ascii.eqb c d then (EmptyString, Some rest)
      else let '(before, after) := splitAt c rest in (String d before, after)
  end.

Fixpoint splitAll (fuel : nat) (c : ascii) (s : string) : list string :=
  match fuel with
  | O => [s]
  | S fuel' =>
      match splitAt c s with
      | (before, Some after) => before :: splitAll fuel' c after
      | (before, None) => [before]
      end
  end.

Fixpoint allLetters (s : string) : bool :=
  match s with
  | EmptyString => true
  | String c rest => Regex.in_range "a" "z" c && allLetters rest
  end.

Definition startsWith (p s : string) : bool :=
  match Regex.strip false p s with Some _ => true | None => false end.

Definition nonEmpty (s : string) : option string :=
  if String.eqb s "" then None else Some s.

(** [host] without its port; the brackets of an IPv6 literal are dropped. *)
Definition hostnameOf (h : string) : string * option string :=
  if startsWith "[" h then
    let '(inside, after) := splitAt "]" (String.substring 1 (String.length h) h) in
    (inside, match after with
             | Some rest => if startsWith ":" rest
                            then Some (String.substring 1 (String.length rest) rest) else None
             | None => None
             end)
  else splitAt ":" h.

Definition parse (s : string) : Url :=
  let '(beforeHash, fragment) := splitAt "#" s in
  let '(beforeQuery, queryText) := splitAt "?" beforeHash in
  let '(proto, rest) :=
    match splitAt ":" beforeQuery with
    | (scheme, Some after) =>
        if allLetters scheme && negb (String.eqb scheme "")
        then (Some (scheme +:+ ":"), after) else (None, beforeQuery)
    | (_, None) => (None, beforeQuery)
    end in
  let hasSlashes := startsWith "//" rest in
  let '(authority, pathText) :=
    if hasSlashes then
      let '(a, p) := splitAt "/" (String.substring 2 (String.length rest) rest) in
      (nonEmpty a, match p with Some p' => "/" +:+ p' | None => "/" end)
    else (None, rest) in
  let searchText := option_map (fun q => "?" +:+ q) queryText in
  {| protocol := proto;
     slashes := hasSlashes;
     auth := None;
     host := authority;
     port := match authority with Some h => (hostnameOf h).2 | None => None end;
     hostname := option_map (fun h => (hostnameOf h).1) authority;
     hash := option_map (fun f => "#" +:+ f) fragment;
     search := searchText;
     query := queryText;
     pathname := nonEmpty pathText;
     path := nonEmpty (pathText +:+ default "" searchText);
     href := Some s |}.

Definition format (u : Url) : string :=
  default "" (protocol u) +:+ (if slashes u then "//" else "") +:+
  default "" (host u) +:+ default "" (pathname u) +:+
  default "" (search u) +:+ default "" (hash u).

(** The fields of the query, from left to right; the values of a name
    that comes more than once are gathered in an array. *)
Definition queryOf (s : string) : gmap string QueryValue :=
  match query (parse s) with
  | None => ∅
  | Some q =>
      foldl (fun m field =>
               let '(name, value) := splitAt "=" field in
               let value := default "" value in
               <[name := match m !! name with
                         | None => Single value
                         | Some (Single first) => Repeated [first; value]
                         | Some (Repeated values) => Repeated (values ++ [value])
                         end]> m)
            ∅ (splitAll (String.length q) "&" q)
  end.

(** An absolute link stands for itself; a fragment is put on the base
    without its own; a path from the root keeps the protocol and host of
    the base. *)
Definition resolve (base link : string) : string :=
  let b := parse base in
  match protocol (parse link) with
  | Some _ => format (parse link)
  | None =>
      if startsWith "#" link then (splitAt "#" base).1 +:+ link
      else if startsWith "/" link then
        default "" (protocol b) +:+ (if slashes b then "//" else "") +:+
        default "" (host b) +:+ link
      else (splitAt "#" base).1 +:+ link
  end.

(** The digests of the contents used in the examples. *)
Definition digestOf (a : Algorithm) (content : string) : string :=
  if String.eqb content "hello" then
    match a with
    | sha1 => "aaf4c61ddcc5e8a2dabede0f3b482cd9aea9434d"
    | md5 => "5d41402abc4b2a76b9719d911017c592"
    | crc32 => "3610a686"
    end
  else
    match a with
    | sha1 => "da39a3ee5e6b4b0d3255bfef95601890afd80709"
    | md5 => "d41d8cd98f00b204e9800998ecf8427e"
    | crc32 => "00000000"
    end.

(** The environment in which the web answers as [web] says, documents
    are read as [documents] says, files do not exist, and every request
    takes five milliseconds. *)
Definition env (web : nat -> Request -> Reply) (documents : string -> list Element) : Env :=
  mkEnv Js.asciiUpper Js.asciiLower parse queryOf format resolve Some id
        web (fun _ _ => inl "ENOENT") (fun _ => 5) documents (fun _ => []) digestOf.

(** The state of a run that has done nothing yet, with an empty queue. *)
Definition blank : State := mkState [] [] [] [] [] [] [].

(** A response with the given status, headers and content. *)
Definition reply (status : nat) (hs : gmap string string) (content : string)
    (r : Request) : Reply :=
  Ended (mkResponse status hs (req_uri r) content).

(** The state in which [http://example.com/link] was tested. *)
Definition visited : State := mkState [] [] ["http://example.com/link"] [] [] [] [].

(** No page has elements. *)
Definition noDocuments (_ : string) : list Element := [].

(** A server that rejects HEAD with 500 and answers GET with 200. *)
Definition headRejected (_ : nat) (r : Request) : Reply :=
  match req_method r with
  | HEAD => reply 500 ∅ "" r
  | GET => reply 200 ∅ "hello" r
  end.

(** A server that answers every request with 200 and no headers. *)
Definition allFine (_ : nat) (r : Request) : Reply := reply 200 ∅ "hello" r.

(** A server that answers every request with 200 and [Cache-Control: no-cache]. *)
Definition notCaching (_ : nat) (r : Request) : Reply :=
  reply 200 {[ "cache-control" := "no-cache" ]} "hello" r.

(** A server that redirects every request to [/x]. *)
Definition moved (_ : nat) (r : Request) : Reply :=
  reply 301 {[ "location" := "/x" ]} "" r.

(** A page with an image that has [srcset], a source that has [srcset]
    and a video that has [poster]; and one with an image that has [src]. *)
Definition media (_ : string) : list Element :=
  [ mkElement "img" {[ "srcset" := "/a.png 2x" ]};
    mkElement "source" {[ "srcset" := "/b.png" ]};
    mkElement "video" {[ "poster" := "/poster.png" ]} ].

Definition image (_ : string) : list Element :=
  [ mkElement "img" {[ "src" := "/a.png" ]};
    mkElement "a" {[ "href" := "/about.html" ]} ].

(** The anchors of a page with fragment identifiers, and a server that
    answers every request for it with 200. *)
Definition anchor (target : string) : Element := mkElement "a" {[ "href" := target ]}.

Definition fragments (_ : string) : list Element :=
  [ anchor "#"; anchor "#fragment"; anchor "?name=value#fragment";
    anchor "/link#fragment"; anchor "/link#"; anchor "/link?name=value#fragment" ].

(** The anchors of a page with two links that moved, and a server that
    answers 301 with a Location header for the first, 302 without one for
    the second, and 200 for the page. *)
Definition movedLinks (_ : string) : list Element :=
  [ anchor "/movedPermanently"; anchor "/movedTemporarily" ].

Definition redirecting (_ : nat) (r : Request) : Reply :=
  if String.eqb (req_uri r) "http://example.com/movedPermanently"
  then reply 301 {[ "location" := "/movedPermanently_redirected" ]} "" r
  else if String.eqb (req_uri r) "http://example.com/movedTemporarily"
  then reply 302 ∅ "" r
  else reply 200 ∅ "hello" r.

(** The environment of [env] with a file system that answers as [files]
    says and an XHTML parser that reports the errors that [errors] says. *)
Definition envWith (web : nat -> Request -> Reply) (files : nat -> option string -> string + string)
    (documents : string -> list Element) (errors : string -> list string) : Env :=
  mkEnv Js.asciiUpper Js.asciiLower parse queryOf format resolve Some id
        web files (fun _ => 5) documents errors digestOf.

(** Every file can be read and has the content [hello]. *)
Definition readable (_ : nat) (_ : option string) : string + string := inr "hello".

(** The parser reports nothing. *)
Definition noErrors (_ : string) : list string := [].

(** A server that answers every request with 404. *)
Definition notFound (_ : nat) (r : Request) : Reply := reply 404 ∅ "" r.


(** A server whose answers come from [http://example.com/new/]. *)
Definition relocated (_ : nat) (_ : Request) : Reply :=
  Ended (mkResponse 200 ∅ "http://example.com/new/" "hello").

(** A response with the given ETag header, and one with the given
    Cache-Control header. *)
Definition tagged (value : string) : Response :=
  mkResponse 200 {[ "etag" := value ]} "http://example.com/" "hello".

Definition cached (value : string) : Response :=
  mkResponse 200 {[ "cache-control" := value ]} "http://example.com/" "hello".

(** [checkLinks] and [checkCaching]; every check with a limit of one
    millisecond; [checkCaching] and [checkCompression]. *)
Definition linksAndCaching : Options :=
  {| pageUrls := []; checkLinks := true; onlySameDomain := false;
     noRedirects := false; noLocalLinks := false; noEmptyFragments := false;
     queryHashes := false; linksToIgnore := []; checkXhtml := false;
     checkCaching := true; checkCompression := false;
     maxResponseTime := None; summary := false |}.

Definition everything : Options :=
  {| pageUrls := []; checkLinks := true; onlySameDomain := false;
     noRedirects := false; noLocalLinks := false; noEmptyFragments := false;
     queryHashes := false; linksToIgnore := []; checkXhtml := true;
     checkCaching := true; checkCompression := true;
     maxResponseTime := Some 1; summary := true |}.

Definition cachingAndCompression : Options :=
  {| pageUrls := []; checkLinks := false; onlySameDomain := false;
     noRedirects := false; noLocalLinks := false; noEmptyFragments := false;
     queryHashes := false; linksToIgnore := []; checkXhtml := false;
     checkCaching := true; checkCompression := true;
     maxResponseTime := None; summary := false |}.

(** A host with its two functions, and options as a caller may give
    them. *)
Definition hostGiven : Value := Object {[ "log" := Function; "error" := Function ]}.

Definition optionsGiven : Value :=
  Object {[ "pageUrls" := Array [Str "http://example.com/"; Str "test/page.html"];
            "checkLinks" := Number 1;
            "linksToIgnore" := Null;
            "maxResponseTime" := Number 100;
            "userAgent" := Str "custom-user-agent/1.2.3" ]}.

(** [checkLinks] alone, and with one more option each. *)
Definition links (pages : list string) : Options :=
  {| pageUrls := pages; checkLinks := true; onlySameDomain := false;
     noRedirects := false; noLocalLinks := false; noEmptyFragments := false;
     queryHashes := false; linksToIgnore := []; checkXhtml := false;
     checkCaching := false; checkCompression := false;
     maxResponseTime := None; summary := false |}.

Definition linksNoEmptyFragments : Options :=
  {| pageUrls := ["http://example.com/fragmentIdentifier.html"]; checkLinks := true; onlySameDomain := false;
     noRedirects := false; noLocalLinks := false; noEmptyFragments := true;
     queryHashes := false; linksToIgnore := []; checkXhtml := false;
     checkCaching := false; checkCompression := false;
     maxResponseTime := None; summary := false |}.

Definition linksNoLocalLinks : Options :=
  {| pageUrls := []; checkLinks := true; onlySameDomain := false;
     noRedirects := false; noLocalLinks := true; noEmptyFragments := false;
     queryHashes := false; linksToIgnore := []; checkXhtml := false;
     checkCaching := false; checkCompression := false;
     maxResponseTime := None; summary := false |}.

Definition linksNoRedirects : Options :=
  {| pageUrls := ["http://example.com/redirectLink.html"]; checkLinks := true; onlySameDomain := false;
     noRedirects := true; noLocalLinks := false; noEmptyFragments := false;
     queryHashes := false; linksToIgnore := []; checkXhtml := false;
     checkCaching := false; checkCompression := false;
     maxResponseTime := None; summary := false |}.

Definition linksQueryHashes (pages : list string) (noLocal : bool) : Options :=
  {| pageUrls := pages; checkLinks := true; onlySameDomain := false;
     noRedirects := false; noLocalLinks := noLocal; noEmptyFragments := false;
     queryHashes := true; linksToIgnore := []; checkXhtml := false;
     checkCaching := false; checkCompression := false;
     maxResponseTime := None; summary := false |}.

(** [checkLinks] and [noLocalLinks], for the given pages. *)
Definition linksNoLocalLinksFor (pages : list string) : Options :=
  {| pageUrls := pages; checkLinks := true; onlySameDomain := false;
     noRedirects := false; noLocalLinks := true; noEmptyFragments := false;
     queryHashes := false; linksToIgnore := []; checkXhtml := false;
     checkCaching := false; checkCompression := false;
     maxResponseTime := None; summary := false |}.

(** A page with a link to a file, and one with a link whose query has
    the parameter [sha1] twice. *)
Definition fileLink (_ : string) : list Element := [ anchor "file:///test/other.html" ].

Definition hashedTwice (_ : string) : list Element :=
  [ anchor "/archive.zip?sha1=aaf4c61ddcc5e8a2dabede0f3b482cd9aea9434d&sha1=aaf4c61ddcc5e8a2dabede0f3b482cd9aea9434d" ].

(** [checkCaching] alone. *)
Definition caching : Options :=
  {| pageUrls := []; checkLinks := false; onlySameDomain := false;
     noRedirects := false; noLocalLinks := false; noEmptyFragments := false;
     queryHashes := false; linksToIgnore := []; checkXhtml := false;
     checkCaching := true; checkCompression := false;
     maxResponseTime := None; summary := false |}.

End Demo.

Arguments Regex.test : simpl never.
Arguments Regex.run : simpl never.
Arguments Js.of_nat : simpl never.
Arguments set_pendingCallbacks _ _ /.
Arguments push_testedLink _ _ /.
Arguments push_request _ _ /.
Arguments push_completion _ _ /.
Arguments host_log _ _ /.
Arguments host_error _ _ /.
Arguments logPageError _ _ _ /.

(** ** [requestFile.js] and [checkPages.js] *)

Section CheckPages.

Context (E : Env) (options : Options).

Definition newline : string := String (ascii_of_nat 10) EmptyString.

Definition option_eqb (a b : option string) : bool :=
  match a, b with
  | Some x, Some y => String.eqb x y
  | None, None => true
  | _, _ => false
  end.

Definition elapsed_ms (elapsed : nat) : string := " (" +:+ Js.of_nat elapsed +:+ "ms)".

(** *** requestFile.js *)

(** Helper: throws (left) if the [file:] protocol is not being used. *)
Definition ensureFileProtocol (uri : string) : string + Url :=
  let parsedUri := url_parse E uri in
  if option_eqb (protocol parsedUri) (Some "file:") then inr parsedUri
  else inl ("URI does not use the 'file:' protocol: " +:+ uri).

(** An object that looks like [http.IncomingMessage]; the content read
    from the file is kept with it. *)
Definition responseFor (uri content : string) : Response :=
  {| headers := ∅; request_href := uri; statusCode := 200; body := content |}.

(** [requestFile(uri)] and [requestFile.get(uri, callback)]: the
    exception thrown, or how the read ends. *)
Definition requestFile (n : nat) (uri : string) : string + Reply :=
  match ensureFileProtocol uri with
  | inl message => inl message
  | inr parsedUri =>
      inr match fs E n (pathname parsedUri) with
          | inl message => Failed message
          | inr content => Ended (responseFor uri content)
          end
  end.

(** *** checkPages.js *)

(** The request implementation suitable for the specified URI. *)
Definition requestFor (uri : string) : Transport :=
  if option_eqb (protocol (url_parse E uri)) (Some "file:") then File else Http.

(** How the request [r], made as the n-th one of the run, ends; left when
    the request function throws instead of returning a request. *)
Definition answer (n : nat) (r : Request) : string + Reply :=
  match req_via r with
  | Http => inr (http E n r)
  | File => requestFile n (req_uri r)
  end.

(** Makes the request [r]: its reply, the time it took, and the state
    with the request on record. *)
Definition send (r : Request) (s : State) : string + (Reply * nat * State) :=
  let n := length (requests s) in
  match answer n r with
  | inl message => inl message
  | inr reply => inr (reply, clock E n, push_request r s)
  end.

(** True if and only if the specified link is on the list to ignore. *)
Definition isLinkIgnored (link : string) : bool :=
  existsb (fun linkToIgnore => String.eqb linkToIgnore link) (linksToIgnore options).

(** Escapes the characters outside ASCII of a link. *)
Definition fixNonAsciiLink (link : string) : string :=
  let parsed := url_parse E link in
  if Regex.test false Patterns.asciiOnly (Js.coerce (path parsed)) then link
  else
    let pathname' :=
      match decodeURI E (Js.coerce (pathname parsed)) with
      | Some decoded => Some decoded
      | None => pathname parsed
      end in
    let query' :=
      match decodeURI E (Js.coerce (query parsed)) with
      | Some decoded => Some decoded
      | None => query parsed
      end in
    url_format E
      {| protocol := protocol parsed;
         slashes := slashes parsed;
         host := host parsed;
         auth := auth parsed;
         pathname := Some (encodeURI E (Js.coerce pathname'));
         query := Some (encodeURI E (Js.coerce query'));
         hash := hash parsed;
         port := None; hostname := None; search := None; path := None; href := None |}.

(** [url.format] of the parsed link with its [hash] set to [null]. *)
Definition noHashLink (link : string) : string :=
  let parsedLink := url_parse E link in
  url_format E
    {| protocol := protocol parsedLink; slashes := slashes parsedLink;
       auth := auth parsedLink; host := host parsedLink; port := port parsedLink;
       hostname := hostname parsedLink; hash := None;
       search := search parsedLink; query := query parsedLink;
       pathname := pathname parsedLink; path := path parsedLink;
       href := href parsedLink |}.

(** Lines 95-98 of [testLink]: warn for empty fragments (even when
    skipping). *)
Definition warnEmptyFragment (page link : string) (s : State) : State :=
  let parsedLink := url_parse E link in
  if noEmptyFragments options && option_eqb (hash parsedLink) (Some "#")
  then logPageError page ("Empty fragment: " +:+ link) s
  else s.

(** Lines 92-106 of [testLink]: left when the link was tested before and
    [callback()] is called at once, right when the test goes on. *)
Definition checkTested (page link : string) (retryWithGet : bool) (s : State)
  : State + State :=
  if retryWithGet then inr s
  else
    let s := warnEmptyFragment page link s in
    if Js.includes (noHashLink link) (testedLinks s)
    then inl (host_log ("Visited link: " +:+ link) s)
    else inr (push_testedLink (noHashLink link) s).

(** A property of the query used as a condition: a property that is
    missing and the empty string are falsy, an array is truthy. *)
Definition truthyParameter (v : option QueryValue) : bool :=
  match v with
  | Some (Single value) => negb (String.eqb value "")
  | Some (Repeated _) => true
  | None => false
  end.

(** The property of the query, when it is truthy. *)
Definition parameter (query : gmap string QueryValue) (name : string) : option QueryValue :=
  if truthyParameter (query !! name) then query !! name else None.

(** Lines 109-124: the expected hash ([linkHash]) and its algorithm. *)
Definition linkHash (link : string) : option (QueryValue * Algorithm) :=
  if queryHashes options then
    let query := url_query E link in
    match parameter query "sha1" with
    | Some expected => Some (expected, sha1)
    | None =>
        match parameter query "md5" with
        | Some expected => Some (expected, md5)
        | None =>
            match parameter query "crc32" with
            | Some expected => Some (expected, crc32)
            | None => None
            end
        end
    end
  else None.

Definition useGetRequest (retryWithGet : bool) : bool :=
  retryWithGet || queryHashes options.

(** The request made by [testLink]. *)
Definition linkRequest (link : string) (retryWithGet : bool) : Request :=
  {| req_via := requestFor link;
     req_uri := fixNonAsciiLink link;
     req_method := if useGetRequest retryWithGet then GET else HEAD;
     req_followRedirect := negb (noRedirects options) |}.

(** Lines 171-176: [req.uri] is the parsed URI of a request made by the
    [request] package; the stream of [requestFile] has no such property,
    and reading [host] from it throws. *)
Definition checkLocal (page link : string) (r : Request) (s : State) : string + State :=
  if noLocalLinks options then
    match req_via r with
    | File => inl "Cannot read property 'host' of undefined"
    | Http =>
        inr (if Regex.test true Patterns.localhost (Js.coerce (host (url_parse E (req_uri r))))
             then logPageError page ("Local link: " +:+ link) s
             else s)
    end
  else inr s.

(** The handler of [error]. *)
Definition onError (page link message : string) (elapsed : nat) (s : State) : Outcome :=
  Next (logPageError page
          ("Link error (" +:+ message +:+ "): " +:+ link +:+ elapsed_ms elapsed) s).

(** The handler of [end]. When the hash parameter came more than once
    in the query, [linkHash] is an array and line 147 throws. *)
Definition onEnd (page link : string) (retryWithGet : bool) (res : Response)
    (elapsed : nat) (s : State) : Outcome :=
  let status := statusCode res in
  if (200 <=? status)%nat && (status <? 300)%nat then
    let s := host_log ("Link: " +:+ link +:+ elapsed_ms elapsed) s in
    match linkHash link with
    | Some (Single expected, algorithm) =>
        let contentHash := digest E algorithm (body res) in
        if String.eqb (toUpperCase E expected) (toUpperCase E contentHash)
        then Next (host_log ("Hash: " +:+ link) s)
        else Next (logPageError page
                     ("Hash error (" +:+ toLowerCase E contentHash +:+ "): " +:+ link) s)
    | Some (Repeated _, _) =>
        (* an array has no [toUpperCase] to call *)
        Throw "linkHash.toUpperCase is not a function" s
    | None => Next s
    end
  else if useGetRequest retryWithGet then
    if (300 <=? status)%nat && (status <? 400)%nat && noRedirects options then
      Next (logPageError page
              ("Redirected link (" +:+ Js.of_nat status +:+ "): " +:+ link +:+ " -> " +:+
               Js.or_else (headers res !! "location") "[Missing Location header]" +:+
               elapsed_ms elapsed) s)
    else
      Next (logPageError page
              ("Bad link (" +:+ Js.of_nat status +:+ "): " +:+ link +:+ elapsed_ms elapsed) s)
  else
    (* Retry HEAD request as GET to be sure *)
    Call (TestLink page link true) s.

(** Lines 107-176 of [testLink]: the request, the check of its host, and
    the handler that its reply calls. *)
Definition requestLink (page link : string) (retryWithGet : bool) (s : State) : Outcome :=
  let r := linkRequest link retryWithGet in
  match send r s with
  | inl message => Throw message s
  | inr (reply, elapsed, s) =>
      match checkLocal page link r s with
      | inl message => Throw message s
      | inr s =>
          match reply with
          | Failed message => onError page link message elapsed s
          | Ended res => onEnd page link retryWithGet res elapsed s
          end
      end
  end.

(** The callback to test the specified link. *)
Definition testLink (page link : string) (retryWithGet : bool) (s : State) : Outcome :=
  match checkTested page link retryWithGet s with
  | inl s => Next s
  | inr s => requestLink page link retryWithGet s
  end.

Definition checkedProtocol (p : option string) : bool :=
  option_eqb p (Some "http:") || option_eqb p (Some "https:") || option_eqb p (Some "file:").

(** The body of the loop of [addLinks], for one selected element. *)
Definition addLink (attribute page : string) (pageHostname : option string)
    (acc : nat * State) (this : Element) : nat * State :=
  let '(index, s) := acc in
  let link := attributes this !! attribute in
  if Js.truthy link then
    let resolvedLink := url_resolve E page (Js.coerce link) in
    let parsedLink := url_parse E resolvedLink in
    if checkedProtocol (protocol parsedLink) &&
       (negb (onlySameDomain options) || option_eqb (hostname parsedLink) pageHostname) &&
       negb (isLinkIgnored resolvedLink)
    then
      (* Add to beginning of queue (in order) so links gets processed
         before the next page *)
      (S index,
       set_pendingCallbacks
         (Js.splice index (TestLink page resolvedLink false) (pendingCallbacks s)) s)
    else (index, s)
  else (index, s).

(** Adds pending callbacks for all links matching [<element attribute='*'/>];
    [doc] is the loaded document. *)
Definition addLinks (doc : list Element) (element attribute page : string)
    (index : nat) (s : State) : nat * State :=
  let pageHostname := hostname (url_parse E page) in
  foldl (addLink attribute page pageHostname) (index, s)
        (filter (fun this => String.eqb (tag this) element = true) doc).

(** The element and attribute pairs that [testPage] walks through. *)
Definition linkPairs : list (string * string) :=
  [ ("a", "href"); ("area", "href"); ("audio", "src"); ("embed", "src");
    ("iframe", "src"); ("img", "src"); ("input", "src"); ("link", "href");
    ("object", "data"); ("script", "src"); ("source", "src"); ("track", "src");
    ("video", "src") ].

(** [message.replace(/\n/g, ', ')] *)
Fixpoint replaceNewlines (message : string) : string :=
  match message with
  | EmptyString => EmptyString
  | String c rest =>
      if Ascii.eqb c (ascii_of_nat 10) then ", " +:+ replaceNewlines rest
      else String c (replaceNewlines rest)
  end.

(** Lines 230-237. *)
Definition checkPageXhtml (page : string) (res : Response) (s : State) : State :=
  if checkXhtml options then
    foldl (fun s message => logPageError page (replaceNewlines message) s) s
          (sax_errors E (body res))
  else s.

(** Lines 238-243; a [maxResponseTime] of zero is falsy. *)
Definition checkPageResponseTime (page : string) (elapsed : nat) (s : State) : State :=
  match maxResponseTime options with
  | Some (S m) =>
      if (S m <? elapsed)%nat
      then logPageError page
             ("Page response took more than " +:+ Js.of_nat (S m) +:+ "ms to complete") s
      else s
  | _ => s
  end.

(** Lines 244-262. *)
Definition checkPageCaching (page : string) (res : Response) (s : State) : State :=
  if checkCaching options then
    let cacheControl := headers res !! "cache-control" in
    let s :=
      if Js.truthy cacheControl then
        if negb (Regex.test false Patterns.cacheControlDirective (Js.coerce cacheControl))
        then logPageError page
               ("Invalid Cache-Control header in response: " +:+ Js.coerce cacheControl) s
        else s
      else logPageError page "Missing Cache-Control header in response" s in
    let etag := headers res !! "etag" in
    if Js.truthy etag then
      if negb (Regex.test false Patterns.etagSyntax (Js.coerce etag))
      then logPageError page ("Invalid ETag header in response: " +:+ Js.coerce etag) s
      else s
    else if negb (Js.truthy cacheControl) ||
            negb (Regex.test false Patterns.notCached (Js.coerce cacheControl))
    then (* Don't require ETag for responses that won't be cached *)
      logPageError page "Missing ETag header in response" s
    else s
  else s.

(** Lines 263-273. *)
Definition checkPageCompression (page : string) (res : Response) (s : State) : State :=
  if checkCompression options then
    let contentEncoding := headers res !! "content-encoding" in
    if Js.truthy contentEncoding then
      if negb (Regex.test false Patterns.contentEncodingSyntax (Js.coerce contentEncoding))
      then logPageError page
             ("Invalid Content-Encoding header in response: " +:+ Js.coerce contentEncoding) s
      else s
    else logPageError page "Missing Content-Encoding header in response" s
  else s.

(** Lines 219-229: [page'] is the page after redirects. *)
Definition checkPageLinks (page' : string) (res : Response) (s : State) : State :=
  if checkLinks options then
    let doc := cheerio_load E (body res) in
    (foldl (fun acc pair => addLinks doc pair.1 pair.2 page' acc.1 acc.2) (0, s) linkPairs).2
  else s.

(** The request made by [testPage]: [get] of the request implementation,
    with the defaults of the [request] package. *)
Definition pageRequest (page : string) : Request :=
  {| req_via := requestFor page; req_uri := fixNonAsciiLink page;
     req_method := GET; req_followRedirect := true |}.

(** The callback to test the specified page. Errors are logged for the
    page as it was given ([logError] is bound before the request); links
    are added for the page after redirects. *)
Definition testPage (page : string) (s : State) : Outcome :=
  let logError := logPageError page in
  match send (pageRequest page) s with
  | inl message => Throw message s
  | inr (reply, elapsed, s) =>
      match reply with
      | Failed message =>
          Next (logError ("Page error (" +:+ message +:+ "): " +:+ page +:+ elapsed_ms elapsed) s)
      | Ended res =>
          if (statusCode res <? 200)%nat || (300 <=? statusCode res)%nat then
            Next (logError ("Bad page (" +:+ Js.of_nat (statusCode res) +:+ "): " +:+ page +:+
                            elapsed_ms elapsed) s)
          else
            let '(page', s) :=
              if String.eqb page (request_href res)
              then (page, host_log ("Page: " +:+ page +:+ elapsed_ms elapsed) s)
              else (* Update page to account for redirects *)
                (request_href res,
                 host_log ("Page: " +:+ page +:+ " -> " +:+ request_href res +:+
                           elapsed_ms elapsed) s) in
            let s := checkPageLinks page' res s in
            let s := checkPageXhtml page res s in
            let s := checkPageResponseTime page elapsed s in
            let s := checkPageCaching page res s in
            let s := checkPageCompression page res s in
            Next s
      end
  end.

(** The text of the summary (lines 365-375). *)
Definition summaryText (l : list (string * string)) : string :=
  (foldl (fun (acc : string * option string) (issue : string * string) =>
            let '(text, currentPage) := acc in
            let '(page, message) := issue in
            let text :=
              if option_eqb currentPage (Some page) then text
              else text +:+ " " +:+ page +:+ newline in
            (text +:+ "  " +:+ message +:+ newline, Some page))
         ("Summary of issues:" +:+ newline, None) l).1.

(** The [done] callback queued last (lines 360-382). *)
Definition finish (s : State) : Outcome :=
  let issueCount := length (issues s) in
  match issueCount with
  | O => Return (push_completion (None, issueCount) s)
  | S _ =>
      let s := if summary options then host_error (summaryText (issues s)) s else s in
      let err :=
        Js.of_nat issueCount +:+ " issue" +:+ (if (1 <? issueCount)%nat then "s" else "") +:+ "." +:+
        (if summary options then "" else " (Set options.summary for a summary.)") in
      Return (push_completion (Some err, issueCount) s)
  end.

Definition invoke (c : Callback) (s : State) : Outcome :=
  match c with
  | TestPage page => testPage page s
  | TestLink page link retryWithGet => testLink page link retryWithGet s
  | Done => finish s
  end.

(** *** The queue *)

(** Where the run stands: about to call [next()], inside a queued
    function, returned to the caller, or ended by an exception. *)
Inductive Control : Type :=
  | Idle
  | Invoke (c : Callback)
  | Stopped
  | Crashed (message : string).

(** [next]: shifts the first callback off the queue and calls it with
    [next] as its callback. With Invoke, one queued function runs from its
    request to the call of its callback. *)
Definition step (k : Control * State) : Control * State :=
  match k with
  | (Idle, s) =>
      match pendingCallbacks s with
      | [] => (Crashed "callback is not a function", s)
      | callback :: rest => (Invoke callback, set_pendingCallbacks rest s)
      end
  | (Invoke c, s) =>
      match invoke c s with
      | Next s' => (Idle, s')
      | Call c' s' => (Invoke c', s')
      | Return s' => (Stopped, s')
      | Throw message s' => (Crashed message, s')
      end
  | (Stopped, s) => (Stopped, s)
  | (Crashed message, s) => (Crashed message, s)
  end.

Fixpoint run (fuel : nat) (k : Control * State) : Control * State :=
  match fuel with
  | O => k
  | S fuel' => run fuel' (step k)
  end.

(** Lines 302-308: a page URL without a protocol is a file. *)
Definition normalizePageUrl (pageUrl : string) : string :=
  match protocol (url_parse E pageUrl) with
  | Some p => if String.eqb p "" then "file:" +:+ pageUrl else pageUrl
  | None => "file:" +:+ pageUrl
  end.

(** The state when [next()] is first called: one callback per page, then
    the one that calls [done]. *)
Definition start : Control * State :=
  (Idle,
   {| pendingCallbacks := map (fun page => TestPage (normalizePageUrl page)) (pageUrls options) ++ [Done];
      issues := []; testedLinks := []; logged := []; errors := [];
      requests := []; completions := [] |}).

(** *** The checks of the arguments (lines 280-352) *)

(** [!v || (typeof (v) !== t)] *)
Definition missingOrNot (t : string) (v : Value) : bool :=
  negb (truthyValue v) || negb (String.eqb (typeOf v) t).

(** The check of one required function of [host]. *)
Definition checkHostFunction (host : Value) (name : string) : string + unit :=
  if missingOrNot "function" (getProperty host name)
  then inl ("host." +:+ name +:+ " is missing or invalid; it should be a function")
  else inr tt.

(** The function given to [pageUrls.map]: [url.parse] throws a
    [TypeError] for a value that is not a string (the message is the one
    of the [url] module of Node); for a string without a protocol the
    page is a file. *)
Definition normalizePage (pageUrl : Value) : string + Value :=
  match pageUrl with
  | Str pageUrl => inr (Str (normalizePageUrl pageUrl))
  | _ => inl ("Parameter 'url' must be a string, not " +:+ typeOf pageUrl)
  end.

(** [pageUrls.map(...)]: the first exception ends it. *)
Fixpoint normalizePages (pageUrls : list Value) : string + list Value :=
  match pageUrls with
  | [] => inr []
  | pageUrl :: rest =>
      match normalizePage pageUrl with
      | inl message => inl message
      | inr page =>
          match normalizePages rest with
          | inl message => inl message
          | inr pages => inr (page :: pages)
          end
      end
  end.

(** [options.name = !!options.name] *)
Definition normalizeFlag (name : string) : Check unit :=
  let* given := readOption name in
  writeOption name (Bool (truthyValue given)).

(** Lines 327-337: the user agent that the requests name, if any. *)
Definition chooseUserAgent (version : string) (given : Value) : string + option string :=
  match given with
  | Undefined => inr (Some ("check-pages/" +:+ version))
  | _ =>
      if truthyValue given then
        match given with
        | Str userAgent => inr (Some userAgent)
        | _ => inl "userAgent option is invalid; it should be a string or null"
        end
      else inr None
  end.

(** Lines 341-351. *)
Definition requestDefaults (userAgent : option string) : RequestDefaults :=
  let headers : gmap string string :=
    {[ "Cache-Control" := "no-cache"; "Pragma" := "no-cache" ]} in
  {| gzip := true;
     defaultHeaders :=
       if Js.truthy userAgent then <["User-Agent" := Js.coerce userAgent]> headers
       else headers |}.

(** What the module does with its arguments before it queues anything,
    run on the options object: the exception thrown or the defaults for
    the requests, and the object as the checks leave it. [version] is the
    version that [package.json] names. *)
Definition checkArguments (version : string) (host done : Value) : Check RequestDefaults :=
  fun options =>
    if missingOrNot "object" host
    then throw "host parameter is missing or invalid; it should be an object" options
    else
      (lift (checkHostFunction host "log") ;;
       lift (checkHostFunction host "error") ;;
       (if missingOrNot "function" done
        then throw "done is missing or invalid; it should be a function"
        else ret tt) ;;
       (if missingOrNot "object" options
        then throw "options parameter is missing or invalid; it should be an object"
        else ret tt) ;;
       let* pageUrls := readOption "pageUrls" in
       let* pages :=
         match pageUrls with
         | Array items => lift (normalizePages items)
         | _ => throw "pageUrls option is missing or invalid; it should be an array of URLs"
         end in
       writeOption "pageUrls" (Array pages) ;;
       normalizeFlag "checkLinks" ;;
       normalizeFlag "onlySameDomain" ;;
       normalizeFlag "noRedirects" ;;
       normalizeFlag "noLocalLinks" ;;
       normalizeFlag "noEmptyFragments" ;;
       normalizeFlag "queryHashes" ;;
       let* linksToIgnore := readOption "linksToIgnore" in
       writeOption "linksToIgnore"
         (if truthyValue linksToIgnore then linksToIgnore else Array []) ;;
       let* linksToIgnore := readOption "linksToIgnore" in
       (if isArray linksToIgnore then ret tt
        else throw "linksToIgnore option is invalid; it should be an array") ;;
       normalizeFlag "checkXhtml" ;;
       normalizeFlag "checkCaching" ;;
       normalizeFlag "checkCompression" ;;
       let* maxResponseTime := readOption "maxResponseTime" in
       (if truthyValue maxResponseTime &&
           match maxResponseTime with
           | Number n => (n <=? 0)%Z
           | _ => true
           end
        then throw "maxResponseTime option is invalid; it should be a positive number"
        else ret tt) ;;
       let* given := readOption "userAgent" in
       let* userAgent := lift (chooseUserAgent version given) in
       normalizeFlag "summary" ;;
       ret (requestDefaults userAgent)) options.

(** The strings of an array. *)
Definition strings (v : Value) : list string :=
  match v with
  | Array items =>
      omap (fun item => match item with Str s => Some s | _ => None end) items
  | _ => []
  end.

(** The options that the rest of the module works with, read from the
    object as it is given: [pageUrls] as given ([start] queues the pages
    as the checks of the arguments leave them), a flag as set when what
    is given for it is truthy, the strings of [linksToIgnore] (nothing
    else is equal to a link), and the limit of [maxResponseTime] when
    there is one. *)
Definition optionsOf (given : Value) : Options :=
  {| pageUrls := strings (getProperty given "pageUrls");
     checkLinks := truthyValue (getProperty given "checkLinks");
     onlySameDomain := truthyValue (getProperty given "onlySameDomain");
     noRedirects := truthyValue (getProperty given "noRedirects");
     noLocalLinks := truthyValue (getProperty given "noLocalLinks");
     noEmptyFragments := truthyValue (getProperty given "noEmptyFragments");
     queryHashes := truthyValue (getProperty given "queryHashes");
     linksToIgnore := strings (getProperty given "linksToIgnore");
     checkXhtml := truthyValue (getProperty given "checkXhtml");
     checkCaching := truthyValue (getProperty given "checkCaching");
     checkCompression := truthyValue (getProperty given "checkCompression");
     maxResponseTime :=
       match getProperty given "maxResponseTime" with
       | Number n => if (0 <? n)%Z then Some (Z.to_nat n) else None
       | _ => None
       end;
     summary := truthyValue (getProperty given "summary") |}.


(** ** The vocabulary of the statements *)

(** The issue that [warnEmptyFragment] logs for a link of a page, if any. *)
Definition emptyFragmentIssues (page link : string) : list (string * string) :=
  if noEmptyFragments options && option_eqb (hash (url_parse E link)) (Some "#")
  then [(page, "Empty fragment: " +:+ link)] else [].

(** The issue that [checkLocal] logs for a link of a page, if any. *)
Definition localLinkIssues (page link : string) : list (string * string) :=
  if noLocalLinks options &&
     Regex.test true Patterns.localhost
       (Js.coerce (host (url_parse E (fixNonAsciiLink link))))
  then [(page, "Local link: " +:+ link)] else [].

(** The status is in the range 200-299. *)
Definition is2xx (res : Response) : bool :=
  (200 <=? statusCode res)%nat && (statusCode res <? 300)%nat.

(** The status is in the range 300-399. *)
Definition is3xx (res : Response) : bool :=
  (300 <=? statusCode res)%nat && (statusCode res <? 400)%nat.

(** The states agree on everything but the issues and the lines given to
    [host.log] and [host.error]. *)
Definition sameWork (s s' : State) : Prop :=
  pendingCallbacks s' = pendingCallbacks s /\ testedLinks s' = testedLinks s /\
  requests s' = requests s /\ completions s' = completions s.

(** Of what kind an issue is: whether its message starts with [k]. *)
Definition issueKind (k : string) (issue : string * string) : bool :=
  match Regex.strip false k issue.2 with
  | Some _ => true
  | None => false
  end.

(** How many of the issues are of the kind [k]. *)
Definition countKind (k : string) (l : list (string * string)) : nat :=
  length (filter (fun issue => issueKind k issue = true) l).

(** A link check calls its callback or throws; it hands the callback to
    another function only when its request was made with HEAD, and then to
    the retry of the same link with GET. *)
Definition handsToRetry (page link : string) (retryWithGet : bool) (o : Outcome) : Prop :=
  match o with
  | Next _ | Throw _ _ => True
  | Call c _ => useGetRequest retryWithGet = false /\ c = TestLink page link true
  | Return _ => False
  end.

(** The link that [addLink] queues a check for, if any. *)
Definition linkOf (attribute page : string) (this : Element) : option string :=
  let link := attributes this !! attribute in
  if Js.truthy link then
    let resolvedLink := url_resolve E page (Js.coerce link) in
    let parsedLink := url_parse E resolvedLink in
    if checkedProtocol (protocol parsedLink) &&
       (negb (onlySameDomain options) ||
        option_eqb (hostname parsedLink) (hostname (url_parse E page))) &&
       negb (isLinkIgnored resolvedLink)
    then Some resolvedLink else None
  else None.

(** The links of one element and attribute pair, in document order. *)
Definition linksOf (doc : list Element) (element attribute page : string) : list string :=
  omap (linkOf attribute page)
       (filter (fun this => String.eqb (tag this) element = true) doc).

(** The links of a page: pair by pair, and in document order for each. *)
Definition pageLinks (page : string) (doc : list Element) : list string :=
  flat_map (fun pair => linksOf doc pair.1 pair.2 page) linkPairs.

(** The callbacks [testLink(page, link)] for the links of a page. *)
Definition linkChecks (page : string) (links : list string) : list Callback :=
  map (fun link => TestLink page link false) links.

(** The page that the links of a response belong to (lines 212-218). *)
Definition effectivePage (page : string) (res : Response) : string :=
  if String.eqb page (request_href res) then page else request_href res.

(** The line that [testPage] logs for a page that was fetched. *)
Definition pageLine (page : string) (res : Response) (elapsed : nat) : string :=
  if String.eqb page (request_href res)
  then "Page: " +:+ page +:+ elapsed_ms elapsed
  else "Page: " +:+ page +:+ " -> " +:+ request_href res +:+ elapsed_ms elapsed.

(** The checks that [testPage] puts at the front of the queue. *)
Definition pageCallbacks (page : string) (s : State) : list Callback :=
  match answer (length (requests s)) (pageRequest page) with
  | inr (Ended res) =>
      if is2xx res && checkLinks options
      then linkChecks (effectivePage page res)
             (pageLinks (effectivePage page res) (cheerio_load E (body res)))
      else []
  | _ => []
  end.

(** The state in which the checks of a page that was fetched begin: the
    request is on record, the [Page] line is logged and the checks of the
    links are queued. *)
Definition pageFetched (page : string) (res : Response) (s : State) : State :=
  checkPageLinks (effectivePage page res) res
    (host_log (pageLine page res (clock E (length (requests s))))
       (push_request (pageRequest page) s)).

(** The run is over: [done] was called, or an exception was thrown. *)
Definition halted (k : Control * State) : Prop :=
  match k.1 with
  | Stopped | Crashed _ => True
  | Idle | Invoke _ => False
  end.







(** What holds of the queue and of the calls of [done] throughout a run:
    until [done] is called the callback that calls it is the last of the
    queue and is nowhere else; it is called with the queue empty, and
    once. *)
Definition doneLast (k : Control * State) : Prop :=
  match k.1 with
  | Stopped => pendingCallbacks k.2 = [] /\ length (completions k.2) = 1
  | Invoke Done => completions k.2 = [] /\ pendingCallbacks k.2 = []
  | _ =>
      completions k.2 = [] /\
      exists q, pendingCallbacks k.2 = q ++ [Done] /\ Done ∉ q
  end.


(** Every character of the string satisfies [p]. *)
Fixpoint everyChar (p : ascii -> bool) (s : string) : bool :=
  match s with
  | EmptyString => true
  | String c rest => p c && everyChar p rest
  end.

(** [d] occurs in [s]. *)
Definition contains (d s : string) : Prop :=
  exists pre post, s = pre +:+ d +:+ post.

(** The loop that [Regex.run] makes for a starred expression, with the
    matcher of the expression under the star as [once]. *)
Definition iterate (once : Regex.position -> list Regex.position)
  : nat -> Regex.position -> list Regex.position :=
  fix iterate (n : nat) (p : Regex.position) {struct n} : list Regex.position :=
    p :: match n with
         | O => []
         | S n' => flat_map (iterate n') (filter (fun q => Regex.shorter q p) (once p))
         end.

(** The directives that [checkPageCaching] looks for in a Cache-Control
    header. *)
Definition cacheDirectives : list string :=
  [ "max-age"; "max-stale"; "min-fresh"; "must-revalidate"; "no-cache"; "no-store";
    "no-transform"; "only-if-cached"; "private"; "proxy-revalidate"; "public"; "s-maxage" ].

(** The character is not a double quote. *)
Definition notQuote (c : ascii) : bool := negb (Ascii.eqb c (ascii_of_nat 34)).

(** The character is in ASCII. *)
Definition isAscii (c : ascii) : bool := (nat_of_ascii c <=? 127)%nat.


(** The issue that [checkPageCaching] logs for the Cache-Control header
    of a response, if any. *)
Definition cacheControlIssues (page : string) (res : Response) : list (string * string) :=
  let cacheControl := headers res !! "cache-control" in
  if Js.truthy cacheControl then
    if Regex.test false Patterns.cacheControlDirective (Js.coerce cacheControl) then []
    else [(page, "Invalid Cache-Control header in response: " +:+ Js.coerce cacheControl)]
  else [(page, "Missing Cache-Control header in response")].

(** The issue that [checkPageCaching] logs for the ETag header of a
    response, if any. *)
Definition etagIssues (page : string) (res : Response) : list (string * string) :=
  let cacheControl := headers res !! "cache-control" in
  let etag := headers res !! "etag" in
  if Js.truthy etag then
    if Regex.test false Patterns.etagSyntax (Js.coerce etag) then []
    else [(page, "Invalid ETag header in response: " +:+ Js.coerce etag)]
  else if negb (Js.truthy cacheControl) ||
          negb (Regex.test false Patterns.notCached (Js.coerce cacheControl))
  then [(page, "Missing ETag header in response")]
  else [].

(** The value names a Cache-Control directive somewhere. *)
Definition namesDirective (value : string) : Prop :=
  exists d, d ∈ cacheDirectives /\ contains d value.

(** The value is a quoted string with no quote inside, with [W/] before
    it or not. *)
Definition quotedTag (value : string) : Prop :=
  exists inner, everyChar notQuote inner = true /\
    (value = Patterns.quote +:+ inner +:+ Patterns.quote \/
     value = "W/" +:+ Patterns.quote +:+ inner +:+ Patterns.quote).

(** The character is not a line feed. *)
Definition notNewline (c : ascii) : bool := negb (Ascii.eqb c (ascii_of_nat 10)).

(** The issues recorded since the state [s]. *)
Definition issuesSince (s s' : State) : list (string * string) :=
  drop (length (issues s)) (issues s').


(** The issue is filed under the page. *)
Definition filedUnder (page : string) (issue : string * string) : Prop := issue.1 = page.

(** What [Date.now() - start] gives for the request that is made in the
    state [s], as the messages show it. *)
Definition elapsedIn (s : State) : string := elapsed_ms (clock E (length (requests s))).




(** The link passes the filter of [addLinks] for the page: its protocol
    is [http:], [https:] or [file:], it is on the host of the page when
    [onlySameDomain] is set, and it is not on the list to ignore. *)
Definition eligible (page link : string) : Prop :=
  checkedProtocol (protocol (url_parse E link)) = true /\
  (onlySameDomain options = true ->
   hostname (url_parse E link) = hostname (url_parse E page)) /\
  isLinkIgnored link = false.

(** The link was found on the page, in the run that led to the state
    [s]: with [checkLinks], the n-th request of the run was the one for a
    page of [pageUrls] and was answered with a status in 200-299; [page]
    is the address that the response came from, and [link] is one of the
    links of its document that [addLinks] queues a check for. *)
Definition foundOn (s : State) (page link : string) : Prop :=
  exists n given res,
    checkLinks options = true /\
    given ∈ map normalizePageUrl (pageUrls options) /\
    requests s !! n = Some (pageRequest given) /\
    answer n (pageRequest given) = inr (Ended res) /\
    is2xx res = true /\
    page = effectivePage given res /\
    link ∈ pageLinks page (cheerio_load E (body res)).

(** The callback is for a page of [pageUrls], or for a link that was
    found on a page and passes the filter for that page. *)
Definition wanted (s : State) (c : Callback) : Prop :=
  match c with
  | TestPage page => page ∈ map normalizePageUrl (pageUrls options)
  | TestLink page link _ => foundOn s page link /\ eligible page link
  | Done => True
  end.

(** The request is the one for a page of [pageUrls], or one for a link
    that was found on a page and passes the filter for that page. *)
Definition expected (s : State) (r : Request) : Prop :=
  (exists page, page ∈ map normalizePageUrl (pageUrls options) /\ r = pageRequest page) \/
  (exists page link retryWithGet,
     foundOn s page link /\ eligible page link /\ r = linkRequest link retryWithGet).

(** The requests that a callback is yet to make for work that is already
    counted: the one of a page, and the one of a retry. *)
Definition owed (c : Callback) : nat :=
  match c with
  | TestPage _ => 1
  | TestLink _ _ true => 1
  | _ => 0
  end.

Definition owedBy (k : Control * State) : nat :=
  match k.1 with
  | Invoke c => owed c
  | _ => 0
  end + sum_list_with owed (pendingCallbacks k.2).

(** The requests that the check of one link can make. *)
Definition requestsPerLink : nat := if queryHashes options then 1 else 2.


(** The properties of the options object as the checks of the arguments
    leave them when they pass, for an object that has [fields] and whose
    [pageUrls] are [pages]. *)
Definition normalizedFields (fields : gmap string Value) (pages : list string)
  : gmap string Value :=
  let flag name m := <[name := Bool (truthyValue (default Undefined (fields !! name)))]> m in
  let linksToIgnore := default Undefined (fields !! "linksToIgnore") in
  flag "summary"
    (flag "checkCompression"
       (flag "checkCaching"
          (flag "checkXhtml"
             (<["linksToIgnore" :=
                  if truthyValue linksToIgnore then linksToIgnore else Array []]>
                (flag "queryHashes"
                   (flag "noEmptyFragments"
                      (flag "noLocalLinks"
                         (flag "noRedirects"
                            (flag "onlySameDomain"
                               (flag "checkLinks"
                                  (<["pageUrls" :=
                                       Array (map Str (map normalizePageUrl pages))]>
                                     fields))))))))))).

(** The names of the options that are flags. *)
Definition flagNames : list string :=
  [ "checkLinks"; "onlySameDomain"; "noRedirects"; "noLocalLinks"; "noEmptyFragments";
    "queryHashes"; "checkXhtml"; "checkCaching"; "checkCompression"; "summary" ].

(** The arguments that the checks let pass. *)
Definition accepted (host given done : Value) : Prop :=
  getProperty host "log" = Function /\
  getProperty host "error" = Function /\
  done = Function /\
  (exists pages, getProperty given "pageUrls" = Array (map Str pages)) /\
  (truthyValue (getProperty given "linksToIgnore") = false \/
   exists items, getProperty given "linksToIgnore" = Array items) /\
  (truthyValue (getProperty given "maxResponseTime") = false \/
   exists n, (0 < n)%Z /\ getProperty given "maxResponseTime" = Number n) /\
  (truthyValue (getProperty given "userAgent") = false \/
   exists userAgent, getProperty given "userAgent" = Str userAgent).


(** What the checks of the arguments leave in the property [name] of the
    options object when they pass: the pages with their protocols, a
    boolean for a flag, an array for [linksToIgnore], and what was given
    for any other property. *)
Definition normalizedProperty (given : Value) (name : string) : Value :=
  if String.eqb name "pageUrls"
  then Array (map Str (map normalizePageUrl (strings (getProperty given "pageUrls"))))
  else if existsb (String.eqb name) flagNames
  then Bool (truthyValue (getProperty given name))
  else if String.eqb name "linksToIgnore"
  then (if truthyValue (getProperty given name) then getProperty given name else Array [])
  else getProperty given name.

(** The header [User-Agent] that the requests carry, for what is given
    as [userAgent]: the name and version of the package when there is
    nothing, the string when it is one that is not empty, and none for
    anything else that is accepted. *)
Definition userAgentHeader (version : string) (given : Value) : option string :=
  match given with
  | Undefined => Some ("check-pages/" +:+ version)
  | Str userAgent => if String.eqb userAgent "" then None else Some userAgent
  | _ => None
  end.


(** The loop of the summary, from the text and the current page that it
    has reached. *)
Definition summaryLoop (acc : string * option string) (l : list (string * string))
  : string * option string :=
  foldl (fun (acc : string * option string) (issue : string * string) =>
           let '(text, currentPage) := acc in
           let '(page, message) := issue in
           let text :=
             if option_eqb currentPage (Some page) then text
             else text +:+ " " +:+ page +:+ newline in
           (text +:+ "  " +:+ message +:+ newline, Some page))
        acc l.

(** The lines of the summary for messages: two spaces before each. *)
Definition summaryLines (messages : list string) : string :=
  foldr (fun message rest => "  " +:+ message +:+ newline +:+ rest) "" messages.

(** The lines of the summary for a page and its messages: the page after
    one space, then the messages. *)
Definition summaryBlock (group : string * list string) : string :=
  " " +:+ group.1 +:+ newline +:+ summaryLines group.2.

(** The issues of pages with their messages, in order. *)
Definition issuesOf (groups : list (string * list string)) : list (string * string) :=
  flat_map (fun group => map (pair group.1) group.2) groups.

(** Each page differs from the one before it. *)
Fixpoint pagesChange (groups : list (string * list string)) : Prop :=
  match groups with
  | group :: rest =>
      match rest with
      | next :: _ => group.1 <> next.1
      | [] => True
      end /\ pagesChange rest
  | [] => True
  end.


(** The issues that [checkPageXhtml] logs for a response. *)
Definition xhtmlIssues (page : string) (res : Response) : list (string * string) :=
  if checkXhtml options
  then map (fun message => (page, replaceNewlines message)) (sax_errors E (body res))
  else [].

(** The issue that [checkPageResponseTime] logs for a response that took
    [elapsed] milliseconds, if any. *)
Definition responseTimeIssues (page : string) (elapsed : nat) : list (string * string) :=
  match maxResponseTime options with
  | Some limit =>
      if (0 <? limit)%nat && (limit <? elapsed)%nat
      then [(page, "Page response took more than " +:+ Js.of_nat limit +:+ "ms to complete")]
      else []
  | None => []
  end.

(** The issue that [checkPageCompression] logs for a response, if any. *)
Definition compressionIssues (page : string) (res : Response) : list (string * string) :=
  if checkCompression options then
    match headers res !! "content-encoding" with
    | Some value =>
        if String.eqb value "" then [(page, "Missing Content-Encoding header in response")]
        else if String.eqb value "deflate" || String.eqb value "gzip" then []
        else [(page, "Invalid Content-Encoding header in response: " +:+ value)]
    | None => [(page, "Missing Content-Encoding header in response")]
    end
  else [].


(** The query parameter that names the expected hash of an algorithm. *)
Definition hashParameter (algorithm : Algorithm) : string :=
  match algorithm with
  | sha1 => "sha1"
  | md5 => "md5"
  | crc32 => "crc32"
  end.

(** The algorithms that are looked for before an algorithm. *)
Definition lookedForBefore (algorithm : Algorithm) : list Algorithm :=
  match algorithm with
  | sha1 => []
  | md5 => [sha1]
  | crc32 => [sha1; md5]
  end.

(** The line begins with [k]. *)
Definition lineKind (k : string) (line : string) : bool :=
  match Regex.strip false k line with
  | Some _ => true
  | None => false
  end.

(** The line is one of the four that tell of progress. *)
Definition progressLine (line : string) : Prop :=
  lineKind "Page: " line || lineKind "Link: " line || lineKind "Hash: " line ||
  lineKind "Visited link: " line = true.


(** The issues, the lines given to [host.log] and to [host.error], and
    the requests of [s'] are those of [s], with more after them or not. *)
Definition grows (s s' : State) : Prop :=
  issues s `prefix_of` issues s' /\ logged s `prefix_of` logged s' /\
  errors s `prefix_of` errors s' /\ requests s `prefix_of` requests s'.


(** The strings are the same but for the case of the letters A-Z. *)
Fixpoint sameLetters (a b : string) : bool :=
  match a, b with
  | EmptyString, EmptyString => true
  | String x a', String y b' =>
      Ascii.eqb (Js.lower_char x) (Js.lower_char y) && sameLetters a' b'
  | _, _ => false
  end.

(** The parameter is passed over when the expected hash is looked for:
    the query does not have it, or has it once with an empty value. *)
Definition passedOver (v : option QueryValue) : Prop :=
  v = None \/ v = Some (Single "").


(** On a string of ASCII characters [toUpperCase] changes the letters
    a-z and nothing else, as it does in JavaScript. *)
Definition asciiCase : Prop :=
  forall s, everyChar isAscii s = true -> toUpperCase E s = Js.asciiUpper s.

(** * Properties *)

(** ** Strings and patterns *)

Lemma includes_true (x : string) (l : list string) :
  Js.includes x l = true <-> x ∈ l.
Proof.
  unfold Js.includes. rewrite existsb_exists. split.
  - intros (y & Hy & Heq). apply String.eqb_eq in Heq. subst.
    by apply list_elem_of_In.
  - intros Hin. exists x. split; [by apply list_elem_of_In | apply String.eqb_refl].
Qed.

Lemma includes_false (x : string) (l : list string) :
  Js.includes x l = false <-> x ∉ l.
Proof.
  rewrite <- includes_true. destruct (Js.includes x l); split; congruence.
Qed.

Lemma option_eqb_eq (a b : option string) : option_eqb a b = true <-> a = b.
Proof.
  destruct a, b; simpl; try (split; congruence).
  rewrite String.eqb_eq. split; congruence.
Qed.

Lemma upper_lower_char (c : ascii) : Js.upper_char (Js.lower_char c) = Js.upper_char c.
Proof. destruct c as [[] [] [] [] [] [] [] []]; reflexivity. Qed.

Lemma lower_upper_char (c : ascii) : Js.lower_char (Js.upper_char c) = Js.lower_char c.
Proof. destruct c as [[] [] [] [] [] [] [] []]; reflexivity. Qed.

(** The comparison in upper case does not see the case of the letters
    A-Z, and sees every other difference. *)
Lemma asciiUpper_sameLetters (a b : string) :
  String.eqb (Js.asciiUpper a) (Js.asciiUpper b) = sameLetters a b.
Proof.
  unfold Js.asciiUpper. revert b.
  induction a as [|x a IH]; intros [|y b]; simpl; try done.
  rewrite IH. f_equal.
  destruct (Ascii.eqb_spec (Js.upper_char x) (Js.upper_char y)) as [Hupper|Hupper];
    destruct (Ascii.eqb_spec (Js.lower_char x) (Js.lower_char y)) as [Hlower|Hlower];
    try done; exfalso.
  - apply Hlower. by rewrite <- (lower_upper_char x), <- (lower_upper_char y), Hupper.
  - apply Hupper. by rewrite <- (upper_lower_char x), <- (upper_lower_char y), Hlower.
Qed.

Lemma search_suffix ci r (pre s : string) start :
  (forall b, Regex.matches_at ci r (b, s) = true) ->
  Regex.search ci r start (pre +:+ s) = true.
Proof.
  intros Hm. revert start. induction pre as [|c pre IH]; intros start; simpl.
  - destruct s; simpl; rewrite Hm; reflexivity.
  - rewrite IH. apply orb_true_r.
Qed.

(** A header that contains [no-cache] or [max-age=0] names a directive
    and marks the response as one that will not be cached. *)
Lemma notCached_contains (pre post : string) (d : string) :
  d = "no-cache" \/ d = "max-age=0" ->
  Regex.test false Patterns.cacheControlDirective (pre +:+ d +:+ post) = true /\
  Regex.test false Patterns.notCached (pre +:+ d +:+ post) = true.
Proof.
  intros [-> | ->]; split; apply search_suffix; intros b; reflexivity.
Qed.

(** ** The link check *)

Lemma sameWork_refl s : sameWork s s.
Proof. by repeat split. Qed.

Lemma sameWork_trans s1 s2 s3 : sameWork s1 s2 -> sameWork s2 s3 -> sameWork s1 s3.
Proof. unfold sameWork. intros (?&?&?&?) (?&?&?&?). repeat split; congruence. Qed.

Lemma warnEmptyFragment_spec page link s :
  let s' := warnEmptyFragment page link s in
  issues s' = issues s ++ emptyFragmentIssues page link /\
  logged s' = logged s /\ sameWork s s'.
Proof.
  unfold warnEmptyFragment, emptyFragmentIssues, sameWork.
  destruct (noEmptyFragments options && _); simpl; rewrite ?app_nil_r; done.
Qed.

Lemma checkTested_visited page link s :
  noHashLink link ∈ testedLinks s ->
  exists s', checkTested page link false s = inl s' /\
    issues s' = issues s ++ emptyFragmentIssues page link /\
    logged s' = logged s ++ ["Visited link: " +:+ link] /\
    sameWork s s'.
Proof.
  intros Hin. unfold checkTested.
  destruct (warnEmptyFragment_spec page link s) as (Hi & Hl & Hw).
  set (s1 := warnEmptyFragment page link s) in *.
  assert (Js.includes (noHashLink link) (testedLinks s1) = true) as ->.
  { apply includes_true. destruct Hw as (_ & -> & _). done. }
  eexists. split; [reflexivity|]. simpl. rewrite Hl. repeat split; try done; apply Hw.
Qed.

Lemma checkTested_fresh page link s :
  noHashLink link ∉ testedLinks s ->
  exists s', checkTested page link false s = inr s' /\
    issues s' = issues s ++ emptyFragmentIssues page link /\
    logged s' = logged s /\
    testedLinks s' = testedLinks s ++ [noHashLink link] /\
    requests s' = requests s /\ pendingCallbacks s' = pendingCallbacks s /\
    completions s' = completions s.
Proof.
  intros Hin. unfold checkTested.
  destruct (warnEmptyFragment_spec page link s) as (Hi & Hl & Hq & Ht & Hr & Hc).
  set (s1 := warnEmptyFragment page link s) in *.
  assert (Js.includes (noHashLink link) (testedLinks s1) = false) as ->.
  { apply includes_false. by rewrite Ht. }
  eexists. split; [reflexivity|]. simpl. rewrite Ht. done.
Qed.

(** What [requestLink] does when its request is answered and reading
    the host does not throw: the request goes on record, [checkLocal]
    logs its issue, and the handler of the reply runs. *)
Lemma requestLink_answered page link retryWithGet s reply :
  answer (length (requests s)) (linkRequest link retryWithGet) = inr reply ->
  (noLocalLinks options = true -> requestFor link = Http) ->
  exists s1,
    requestLink page link retryWithGet s =
      match reply with
      | Failed message => onError page link message (clock E (length (requests s))) s1
      | Ended res => onEnd page link retryWithGet res (clock E (length (requests s))) s1
      end /\
    issues s1 = issues s ++ localLinkIssues page link /\
    logged s1 = logged s /\
    requests s1 = requests s ++ [linkRequest link retryWithGet] /\
    testedLinks s1 = testedLinks s /\ pendingCallbacks s1 = pendingCallbacks s /\
    completions s1 = completions s.
Proof.
  intros Ha Hlocal. unfold requestLink, send. rewrite Ha.
  unfold checkLocal, localLinkIssues.
  destruct (noLocalLinks options) eqn:Hn; simpl.
  - rewrite Hlocal by done.
    destruct (Regex.test true Patterns.localhost _); eexists; (split; [reflexivity|]);
      simpl; rewrite ?app_nil_r; done.
  - eexists; (split; [reflexivity|]); simpl; rewrite ?app_nil_r; done.
Qed.

(** A file that was read is answered with status 200. *)
Lemma answer_not2xx_http n r res :
  answer n r = inr (Ended res) -> is2xx res = false -> req_via r = Http.
Proof.
  unfold answer, requestFile. destruct (req_via r); [done|].
  destruct (ensureFileProtocol (req_uri r)); [done|].
  destruct (fs E n _); [done|]. intros [= <-]. done.
Qed.

Lemma onEnd_2xx_plain page link retryWithGet res elapsed s :
  is2xx res = true -> linkHash link = None ->
  onEnd page link retryWithGet res elapsed s =
    Next (host_log ("Link: " +:+ link +:+ elapsed_ms elapsed) s).
Proof. unfold onEnd, is2xx. intros -> ->. done. Qed.

Lemma linkHash_off link : queryHashes options = false -> linkHash link = None.
Proof. unfold linkHash. by intros ->. Qed.

Lemma linkHash_on link h : linkHash link = Some h -> queryHashes options = true.
Proof. unfold linkHash. by destruct (queryHashes options). Qed.

Lemma countKind_app k l1 l2 : countKind k (l1 ++ l2) = countKind k l1 + countKind k l2.
Proof. unfold countKind. by rewrite filter_app, length_app. Qed.

Ltac count_kinds :=
  unfold countKind, emptyFragmentIssues, localLinkIssues;
  repeat match goal with |- context [if ?c then _ else _] => destruct c end;
  reflexivity.

Lemma onEnd_fields page link retryWithGet res elapsed s :
  let o := onEnd page link retryWithGet res elapsed s in
  sameWork s (state_of o) /\ (exists rest, issues (state_of o) = issues s ++ rest) /\
  handsToRetry page link retryWithGet o.
Proof.
  unfold onEnd, sameWork, handsToRetry.
  destruct (_ && _).
  - destruct (linkHash link) as [[[expected|values] algorithm]|];
      [destruct (String.eqb _ _)| |];
      cbn; repeat split; try done; (by exists []; rewrite app_nil_r) || by eexists.
  - destruct (useGetRequest retryWithGet); [destruct (_ && _)|];
      cbn; repeat split; try done; (by exists []; rewrite app_nil_r) || by eexists.
Qed.

Lemma checkLocal_fields page link r s :
  match checkLocal page link r s with
  | inl _ => True
  | inr s' => sameWork s s' /\ exists rest, issues s' = issues s ++ rest
  end.
Proof.
  unfold checkLocal, sameWork. destruct (noLocalLinks options).
  - destruct (req_via r); [|done]. destruct (Regex.test _ _ _); cbn;
      repeat split; try done; (by exists []; rewrite app_nil_r) || by eexists.
  - repeat split; try done. by exists []; rewrite app_nil_r.
Qed.

Lemma requestLink_fields page link retryWithGet s :
  let o := requestLink page link retryWithGet s in
  pendingCallbacks (state_of o) = pendingCallbacks s /\
  completions (state_of o) = completions s /\
  testedLinks (state_of o) = testedLinks s /\
  (requests (state_of o) = requests s \/
   requests (state_of o) = requests s ++ [linkRequest link retryWithGet]) /\
  (exists rest, issues (state_of o) = issues s ++ rest) /\
  handsToRetry page link retryWithGet o.
Proof.
  unfold requestLink, send.
  destruct (answer _ _) as [message|reply].
  { cbn. repeat split; auto. by exists []; rewrite app_nil_r. }
  pose proof (checkLocal_fields page link (linkRequest link retryWithGet)
                (push_request (linkRequest link retryWithGet) s)) as Hlocal.
  destruct (checkLocal _ _ _ _) as [message|s1].
  { cbn. repeat split; auto. by exists []; rewrite app_nil_r. }
  destruct Hlocal as ((Hq & Ht & Hr & Hc) & rest1 & Hi). cbn in Hq, Ht, Hr, Hc, Hi.
  destruct reply as [message|res].
  - unfold onError. cbn. repeat split; auto. rewrite Hi, <- app_assoc. by eexists.
  - destruct (onEnd_fields page link retryWithGet res (clock E (length (requests s))) s1)
      as ((Hq' & Ht' & Hr' & Hc') & (rest2 & Hi') & Ho).
    repeat split; try congruence; try done.
    + right. congruence.
    + exists (rest1 ++ rest2). rewrite Hi', Hi, <- app_assoc. done.
Qed.

Lemma requestLink_grows page link retryWithGet s :
  exists rest, issues (state_of (requestLink page link retryWithGet s)) = issues s ++ rest.
Proof. apply requestLink_fields. Qed.

(** C9: with [noEmptyFragments], a link check that is not a retry and
    whose link has the fragment [#] records the issue
    [Empty fragment: link], whatever the state it starts from; when the
    link was tested before, the check logs that issue and the
    [Visited link] line, makes no request and calls its callback. *)
Theorem empty_fragment_recorded page link s :
  noEmptyFragments options = true ->
  hash (url_parse E link) = Some "#" ->
  (exists rest,
     issues (state_of (testLink page link false s)) =
       issues s ++ (page, "Empty fragment: " +:+ link) :: rest) /\
  (noHashLink link ∈ testedLinks s ->
   exists s',
     testLink page link false s = Next s' /\
     issues s' = issues s ++ [(page, "Empty fragment: " +:+ link)] /\
     logged s' = logged s ++ ["Visited link: " +:+ link] /\
     requests s' = requests s).
Proof.
  intros Hopt Hhash.
  assert (emptyFragmentIssues page link = [(page, "Empty fragment: " +:+ link)]) as Hef.
  { unfold emptyFragmentIssues. by rewrite Hopt, Hhash. }
  assert (noHashLink link ∈ testedLinks s ->
          exists s', testLink page link false s = Next s' /\
            issues s' = issues s ++ [(page, "Empty fragment: " +:+ link)] /\
            logged s' = logged s ++ ["Visited link: " +:+ link] /\
            requests s' = requests s) as Hvisited.
  { intros Hin. destruct (checkTested_visited page link s Hin) as (s' & Hc & Hi & Hl & Hw).
    exists s'. unfold testLink. rewrite Hc, <- Hef. repeat split; try done. apply Hw. }
  split; [|exact Hvisited].
  destruct (decide (noHashLink link ∈ testedLinks s)) as [Hin|Hout].
  - destruct (Hvisited Hin) as (s' & Ht & Hi & _). rewrite Ht. simpl. rewrite Hi. by exists [].
  - destruct (checkTested_fresh page link s Hout) as (s1 & Hc & Hi & _).
    unfold testLink. rewrite Hc.
    destruct (requestLink_grows page link false s1) as (rest & ->).
    rewrite Hi, Hef, <- app_assoc. by exists rest.
Qed.

(** C3 (amended): a link check that starts with a HEAD request whose
    response is not 2xx hands its callback to one retry of the same link
    with GET; when the response to that is 2xx the retry logs the
    [Link] line and calls the callback. Two requests are made, HEAD then
    GET, for the same URI. No issue is recorded on account of either
    response: the issues recorded are the one for an empty fragment, if
    any, and the one for a local link, if any, once per request. *)
Theorem head_failure_retried_with_get page link s res1 res2 :
  queryHashes options = false ->
  noHashLink link ∉ testedLinks s ->
  answer (length (requests s)) (linkRequest link false) = inr (Ended res1) ->
  is2xx res1 = false ->
  answer (S (length (requests s))) (linkRequest link true) = inr (Ended res2) ->
  is2xx res2 = true ->
  exists s1 s2,
    testLink page link false s = Call (TestLink page link true) s1 /\
    testLink page link true s1 = Next s2 /\
    run 2 (Invoke (TestLink page link false), s) = (Idle, s2) /\
    requests s2 = requests s ++ [linkRequest link false; linkRequest link true] /\
    req_method (linkRequest link false) = HEAD /\
    req_method (linkRequest link true) = GET /\
    req_uri (linkRequest link true) = req_uri (linkRequest link false) /\
    logged s2 = logged s ++ ["Link: " +:+ link +:+ elapsed_ms (clock E (S (length (requests s))))] /\
    issues s2 = issues s ++ emptyFragmentIssues page link ++
                localLinkIssues page link ++ localLinkIssues page link /\
    countKind "Bad link" (drop (length (issues s)) (issues s2)) = 0 /\
    countKind "Redirected link" (drop (length (issues s)) (issues s2)) = 0 /\
    countKind "Link error" (drop (length (issues s)) (issues s2)) = 0 /\
    countKind "Hash error" (drop (length (issues s)) (issues s2)) = 0.
Proof.
  intros Hq Hfresh Ha1 Hs1 Ha2 Hs2.
  pose proof (answer_not2xx_http _ _ _ Ha1 Hs1) as Hvia. simpl in Hvia.
  destruct (checkTested_fresh page link s Hfresh) as (s0 & Hc & Hi0 & Hl0 & Ht0 & Hr0 & Hp0 & Hc0).
  destruct (requestLink_answered page link false s0 (Ended res1)) as
    (s1 & He1 & Hi1 & Hl1 & Hr1 & Ht1 & Hp1 & Hc1); [by rewrite Hr0 | done |].
  assert (onEnd page link false res1 (clock E (length (requests s0))) s1 =
          Call (TestLink page link true) s1) as Hend1.
  { unfold onEnd, useGetRequest. unfold is2xx in Hs1. rewrite Hs1, Hq. done. }
  assert (testLink page link false s = Call (TestLink page link true) s1) as Hfirst.
  { unfold testLink. rewrite Hc, He1. exact Hend1. }
  destruct (requestLink_answered page link true s1 (Ended res2)) as
    (s2 & He2 & Hi2 & Hl2 & Hr2 & Ht2 & Hp2 & Hc2).
  { rewrite Hr1, Hr0, length_app. simpl. by rewrite Nat.add_1_r. }
  { done. }
  rewrite (onEnd_2xx_plain _ _ _ _ _ _ Hs2 (linkHash_off link Hq)) in He2.
  assert (testLink page link true s1 =
          Next (host_log ("Link: " +:+ link +:+ elapsed_ms (clock E (length (requests s1)))) s2))
    as Hsecond by exact He2.
  assert (length (requests s1) = S (length (requests s))) as Hlen.
  { rewrite Hr1, Hr0, length_app. simpl. lia. }
  rewrite Hlen in Hsecond.
  eexists s1, _. split; [exact Hfirst|]. split; [exact Hsecond|].
  assert (issues s2 = issues s ++ emptyFragmentIssues page link ++
            localLinkIssues page link ++ localLinkIssues page link) as Hissues.
  { rewrite Hi2, Hi1, Hi0, <- !app_assoc. done. }
  split.
  { change (run 2 (Invoke (TestLink page link false), s))
      with (step (step (Invoke (TestLink page link false), s))).
    unfold step at 2. unfold invoke. rewrite Hfirst.
    unfold step, invoke. by rewrite Hsecond. }
  simpl. rewrite Hl2, Hl1, Hl0, Hr2, Hr1, Hr0, <- app_assoc, Hissues.
  rewrite drop_app_length.
  repeat split; try done;
    try (unfold linkRequest, useGetRequest; rewrite Hq; done);
    rewrite !countKind_app; count_kinds.
Qed.

Lemma checkTested_proceeds page link retryWithGet s :
  retryWithGet = true \/ noHashLink link ∉ testedLinks s ->
  exists s0, checkTested page link retryWithGet s = inr s0 /\
    issues s0 = issues s ++ (if retryWithGet then [] else emptyFragmentIssues page link) /\
    logged s0 = logged s /\ requests s0 = requests s.
Proof.
  destruct retryWithGet.
  - intros _. exists s. simpl. by rewrite app_nil_r.
  - intros [?|Hfresh]; [done|].
    destruct (checkTested_fresh page link s Hfresh) as (s0 & ? & ? & ? & ? & ? & _).
    by exists s0.
Qed.

(** C4 (amended): a link check for which a hash is expected, the value
    of a parameter that the query has once, and whose response is 2xx is
    made with GET (no retry is involved); the digest of the content is
    compared with the expected value, both in upper case: for values in
    ASCII, as digests in hexadecimal are, they agree when they are the
    same but for the case of their letters. When they agree the [Link]
    and [Hash] lines are logged and the comparison records no issue; when
    they differ the [Link] line is logged and one [Hash error] issue is
    recorded, with the digest of the content in lower case. The issues
    for an empty fragment and for a local link, if any, are recorded in
    both cases. *)
Theorem hash_compared page link s expected algorithm res :
  linkHash link = Some (Single expected, algorithm) ->
  noHashLink link ∉ testedLinks s ->
  answer (length (requests s)) (linkRequest link false) = inr (Ended res) ->
  is2xx res = true ->
  (noLocalLinks options = true -> requestFor link = Http) ->
  let contentHash := digest E algorithm (body res) in
  let linkLine := "Link: " +:+ link +:+ elapsed_ms (clock E (length (requests s))) in
  let policy := emptyFragmentIssues page link ++ localLinkIssues page link in
  let agree := String.eqb (toUpperCase E expected) (toUpperCase E contentHash) in
  exists s',
    testLink page link false s = Next s' /\
    req_method (linkRequest link false) = GET /\
    requests s' = requests s ++ [linkRequest link false] /\
    (asciiCase -> everyChar isAscii expected = true -> everyChar isAscii contentHash = true ->
     agree = sameLetters expected contentHash) /\
    if agree
    then logged s' = logged s ++ [linkLine; "Hash: " +:+ link] /\
         issues s' = issues s ++ policy /\
         countKind "Hash error" (drop (length (issues s)) (issues s')) = 0
    else logged s' = logged s ++ [linkLine] /\
         issues s' = issues s ++ policy ++
           [(page, "Hash error (" +:+ toLowerCase E contentHash +:+ "): " +:+ link)] /\
         countKind "Hash error" (drop (length (issues s)) (issues s')) = 1.
Proof.
  intros Hh Hfresh Ha Hs Hlocal contentHash linkLine policy agree.
  pose proof (linkHash_on _ _ Hh) as Hq.
  destruct (checkTested_fresh page link s Hfresh) as (s0 & Hc & Hi0 & Hl0 & Ht0 & Hr0 & _).
  destruct (requestLink_answered page link false s0 (Ended res)) as
    (s1 & He & Hi1 & Hl1 & Hr1 & _); [by rewrite Hr0 | done |].
  unfold testLink. rewrite Hc, He. unfold onEnd. unfold is2xx in Hs. rewrite Hs, Hh.
  fold contentHash. rewrite Hr0. fold linkLine. fold agree.
  assert (req_method (linkRequest link false) = GET) as Hget.
  { unfold linkRequest, useGetRequest. by rewrite Hq. }
  assert (asciiCase -> everyChar isAscii expected = true ->
          everyChar isAscii contentHash = true ->
          agree = sameLetters expected contentHash) as Hcase.
  { intros Hascii Hexpected Hcontent. unfold agree.
    rewrite (Hascii _ Hexpected), (Hascii _ Hcontent). apply asciiUpper_sameLetters. }
  clearbody agree. destruct agree;
    eexists; (split; [reflexivity|]); (split; [exact Hget|]); simpl;
    rewrite Hr1, Hr0, Hl1, Hl0, Hi1, Hi0, <- ?app_assoc;
    (split; [done|]); (split; [exact Hcase|]).
  all: unfold policy; rewrite <- ?app_assoc; repeat split; try done;
    rewrite drop_app_length, !countKind_app; count_kinds.
Qed.

(** C5: with [noRedirects], a link check made with GET (a retry, or any
    check under [queryHashes]) whose response has a 3xx status records
    one [Redirected link] issue that names the value of the Location
    header, or [[Missing Location header]] when there is none (an empty
    value is none); for any other status outside 2xx it records one
    [Bad link] issue instead. *)
Theorem redirected_or_bad_link page link retryWithGet s res :
  noRedirects options = true ->
  useGetRequest retryWithGet = true ->
  retryWithGet = true \/ noHashLink link ∉ testedLinks s ->
  answer (length (requests s)) (linkRequest link retryWithGet) = inr (Ended res) ->
  is2xx res = false ->
  let elapsed := elapsed_ms (clock E (length (requests s))) in
  let location := Js.or_else (headers res !! "location") "[Missing Location header]" in
  let message :=
    if is3xx res
    then "Redirected link (" +:+ Js.of_nat (statusCode res) +:+ "): " +:+ link +:+ " -> " +:+
         location +:+ elapsed
    else "Bad link (" +:+ Js.of_nat (statusCode res) +:+ "): " +:+ link +:+ elapsed in
  exists s',
    testLink page link retryWithGet s = Next s' /\
    req_method (linkRequest link retryWithGet) = GET /\
    issues s' = issues s ++ (if retryWithGet then [] else emptyFragmentIssues page link) ++
                localLinkIssues page link ++ [(page, message)] /\
    countKind "Redirected link" (drop (length (issues s)) (issues s')) =
      (if is3xx res then 1 else 0) /\
    countKind "Bad link" (drop (length (issues s)) (issues s')) =
      (if is3xx res then 0 else 1) /\
    location = match headers res !! "location" with
               | Some value => if String.eqb value "" then "[Missing Location header]" else value
               | None => "[Missing Location header]"
               end.
Proof.
  intros Hn Hget Hgo Ha Hs elapsed location message.
  pose proof (answer_not2xx_http _ _ _ Ha Hs) as Hvia. simpl in Hvia.
  destruct (checkTested_proceeds page link retryWithGet s Hgo) as (s0 & Hc & Hi0 & Hl0 & Hr0).
  destruct (requestLink_answered page link retryWithGet s0 (Ended res)) as
    (s1 & He & Hi1 & Hl1 & Hr1 & _); [by rewrite Hr0 | done |].
  unfold testLink. rewrite Hc, He. unfold onEnd. unfold is2xx in Hs.
  rewrite Hs, Hget, Hn, andb_true_r. rewrite Hr0. fold elapsed location.
  assert (req_method (linkRequest link retryWithGet) = GET) as Hm.
  { unfold linkRequest. by rewrite Hget. }
  assert (location = match headers res !! "location" with
                     | Some value =>
                         if String.eqb value "" then "[Missing Location header]" else value
                     | None => "[Missing Location header]"
                     end) as Hloc.
  { unfold location, Js.or_else. destruct (headers res !! "location") as [value|]; [|done].
    simpl. by destruct (String.eqb value ""). }
  unfold message, is3xx.
  destruct ((300 <=? statusCode res)%nat && (statusCode res <? 400)%nat);
    eexists; (split; [reflexivity|]); (split; [exact Hm|]); simpl;
    rewrite Hi1, Hi0, <- ?app_assoc; (split; [done|]);
    rewrite drop_app_length;
    (repeat split; try done); rewrite !countKind_app;
    destruct retryWithGet; count_kinds.
Qed.

(** ** The page check *)

Lemma foldl_step {A B} (f : A -> B -> A) (a : A) (x : B) (l : list B) :
  foldl f a (x :: l) = foldl f (f a x) l.
Proof. reflexivity. Qed.

Lemma splice_end {A} (added rest : list A) (x : A) :
  Js.splice (length added) x (added ++ rest) = (added ++ [x]) ++ rest.
Proof.
  unfold Js.splice. rewrite take_app_length, drop_app_length, <- app_assoc. done.
Qed.

Lemma addLink_spec attribute page added rest s this :
  pendingCallbacks s = added ++ rest ->
  addLink attribute page (hostname (url_parse E page)) (length added, s) this =
    let added' := added ++ linkChecks page (option_list (linkOf attribute page this)) in
    (length added', set_pendingCallbacks (added' ++ rest) s).
Proof.
  intros Hq. unfold addLink, linkOf. destruct s as [q i t l e r c]. simpl in *. subst q.
  destruct (Js.truthy _); simpl; [|by rewrite app_nil_r].
  destruct (_ && _); simpl; [|by rewrite app_nil_r].
  rewrite splice_end, length_app. simpl. by rewrite Nat.add_1_r.
Qed.

Lemma addLinks_spec doc element attribute page added rest s :
  pendingCallbacks s = added ++ rest ->
  addLinks doc element attribute page (length added) s =
    let added' := added ++ linkChecks page (linksOf doc element attribute page) in
    (length added', set_pendingCallbacks (added' ++ rest) s).
Proof.
  unfold addLinks, linksOf.
  generalize (filter (fun this => String.eqb (tag this) element = true) doc) as l.
  intros l. revert added s. induction l as [|this l IH]; intros added s Hq.
  - simpl. rewrite app_nil_r. destruct s. simpl in *. by subst.
  - rewrite foldl_step, (addLink_spec _ _ _ rest _ _ Hq). cbv zeta.
    rewrite IH by done. cbv zeta. simpl set_pendingCallbacks.
    assert ((added ++ linkChecks page (option_list (linkOf attribute page this))) ++
            linkChecks page (omap (linkOf attribute page) l) =
            added ++ linkChecks page (omap (linkOf attribute page) (this :: l))) as ->.
    { rewrite <- app_assoc. f_equal. unfold linkChecks. rewrite <- map_app. f_equal.
      simpl. by destruct (linkOf attribute page this). }
    done.
Qed.

(** Lines 219-229 put the checks of the links of the page at the front of
    the queue, in order, and change nothing else. *)
Lemma checkPageLinks_spec page res s :
  checkPageLinks page res s =
    if checkLinks options
    then set_pendingCallbacks
           (linkChecks page (pageLinks page (cheerio_load E (body res))) ++ pendingCallbacks s) s
    else s.
Proof.
  unfold checkPageLinks, pageLinks. destruct (checkLinks options); [|done].
  generalize (cheerio_load E (body res)) as doc. intros doc.
  assert (forall pairs added s0,
    pendingCallbacks s0 = added ++ pendingCallbacks s ->
    (foldl (fun acc pair => addLinks doc pair.1 pair.2 page acc.1 acc.2) (length added, s0) pairs).2 =
    set_pendingCallbacks
      ((added ++ linkChecks page (flat_map (fun pair => linksOf doc pair.1 pair.2 page) pairs)) ++
       pendingCallbacks s) s0) as Hfold.
  { induction pairs as [|pair pairs IH]; intros added s0 Hq.
    - simpl. rewrite app_nil_r. destruct s0. simpl in *. by subst.
    - rewrite foldl_step. cbn [fst snd]. rewrite (addLinks_spec _ _ _ _ _ _ _ Hq). cbv zeta.
      rewrite IH by done. simpl. unfold linkChecks. by rewrite map_app, <- !app_assoc. }
  specialize (Hfold linkPairs [] s eq_refl). simpl length in Hfold. rewrite Hfold.
  by destruct s.
Qed.

Lemma bad_status res :
  (statusCode res <? 200)%nat || (300 <=? statusCode res)%nat = negb (is2xx res).
Proof.
  unfold is2xx.
  destruct (statusCode res <? 200)%nat eqn:H1, (300 <=? statusCode res)%nat eqn:H2,
           (200 <=? statusCode res)%nat eqn:H3, (statusCode res <? 300)%nat eqn:H4;
    try reflexivity; exfalso;
    repeat match goal with
           | H : (_ <? _)%nat = true |- _ => apply Nat.ltb_lt in H
           | H : (_ <? _)%nat = false |- _ => apply Nat.ltb_ge in H
           | H : (_ <=? _)%nat = true |- _ => apply Nat.leb_le in H
           | H : (_ <=? _)%nat = false |- _ => apply Nat.leb_gt in H
           end; lia.
Qed.

Lemma checkPageXhtml_work page res s :
  sameWork s (checkPageXhtml page res s) /\ logged (checkPageXhtml page res s) = logged s.
Proof.
  unfold checkPageXhtml. destruct (checkXhtml options); [|split; [apply sameWork_refl|done]].
  generalize (sax_errors E (body res)) as l. intros l. revert s.
  induction l as [|m l IH]; intros s; [split; [apply sameWork_refl|done]|].
  rewrite foldl_step. destruct (IH (logPageError page (replaceNewlines m) s)) as (Hw & Hl).
  split; [|by rewrite Hl]. eapply sameWork_trans; [|exact Hw]. by repeat split.
Qed.

Lemma checkPageXhtml_off page res s :
  checkXhtml options = false -> checkPageXhtml page res s = s.
Proof. unfold checkPageXhtml. by intros ->. Qed.

Lemma checkPageResponseTime_work page elapsed s :
  sameWork s (checkPageResponseTime page elapsed s) /\
  logged (checkPageResponseTime page elapsed s) = logged s.
Proof.
  unfold checkPageResponseTime, sameWork. repeat case_match; simpl; done.
Qed.

Lemma checkPageResponseTime_off page elapsed s :
  maxResponseTime options = None -> checkPageResponseTime page elapsed s = s.
Proof. unfold checkPageResponseTime. by intros ->. Qed.

Lemma checkPageCaching_work page res s :
  sameWork s (checkPageCaching page res s) /\ logged (checkPageCaching page res s) = logged s.
Proof.
  unfold checkPageCaching, sameWork. repeat case_match; simpl; done.
Qed.

Lemma checkPageCompression_work page res s :
  sameWork s (checkPageCompression page res s) /\
  logged (checkPageCompression page res s) = logged s.
Proof.
  unfold checkPageCompression, sameWork. repeat case_match; simpl; done.
Qed.

Lemma checkPageCompression_off page res s :
  checkCompression options = false -> checkPageCompression page res s = s.
Proof. unfold checkPageCompression. by intros ->. Qed.

Lemma testPage_fetched page s res :
  answer (length (requests s)) (pageRequest page) = inr (Ended res) ->
  is2xx res = true ->
  testPage page s =
    Next (checkPageCompression page res
            (checkPageCaching page res
               (checkPageResponseTime page (clock E (length (requests s)))
                  (checkPageXhtml page res (pageFetched page res s))))).
Proof.
  intros Ha Hs. unfold testPage, send. rewrite Ha, bad_status, Hs. simpl negb. cbv iota.
  unfold pageFetched, effectivePage, pageLine.
  destruct (String.eqb page (request_href res)); reflexivity.
Qed.

Lemma pageFetched_fields page res s :
  let s' := pageFetched page res s in
  issues s' = issues s /\ testedLinks s' = testedLinks s /\
  requests s' = requests s ++ [pageRequest page] /\ completions s' = completions s /\
  logged s' = logged s ++ [pageLine page res (clock E (length (requests s)))] /\
  pendingCallbacks s' =
    (if checkLinks options
     then linkChecks (effectivePage page res)
            (pageLinks (effectivePage page res) (cheerio_load E (body res)))
     else []) ++ pendingCallbacks s.
Proof.
  unfold pageFetched. rewrite checkPageLinks_spec.
  destruct (checkLinks options); simpl; done.
Qed.

Lemma truthy_around (pre directive post : string) :
  directive = "no-cache" \/ directive = "max-age=0" ->
  Js.truthy (Some (pre +:+ directive +:+ post)) = true.
Proof. intros [-> | ->]; destruct pre; reflexivity. Qed.

(** C6 (amended): with [checkCaching], for a page whose response is 2xx
    and has no ETag header, the caching check records no issue when the
    Cache-Control header contains [no-cache] or [max-age=0], and records
    two issues when there is no Cache-Control header: the one for the
    missing Cache-Control header and then the one for the missing ETag
    header. They are the issues of the page when no other check of the
    page is enabled. *)
Theorem caching_without_etag page s res :
  checkCaching options = true ->
  answer (length (requests s)) (pageRequest page) = inr (Ended res) ->
  is2xx res = true ->
  headers res !! "etag" = None ->
  exists s0 s',
    testPage page s = Next s' /\
    s' = checkPageCompression page res (checkPageCaching page res s0) /\
    (checkXhtml options = false -> maxResponseTime options = None -> issues s0 = issues s) /\
    (checkCompression options = false -> issues s' = issues (checkPageCaching page res s0)) /\
    (forall pre directive post,
       headers res !! "cache-control" = Some (pre +:+ directive +:+ post) ->
       directive = "no-cache" \/ directive = "max-age=0" ->
       issues (checkPageCaching page res s0) = issues s0) /\
    (headers res !! "cache-control" = None ->
       issues (checkPageCaching page res s0) =
         issues s0 ++ [(page, "Missing Cache-Control header in response");
                       (page, "Missing ETag header in response")]).
Proof.
  intros Hopt Ha Hs Hetag.
  eexists _, _. split; [exact (testPage_fetched page s res Ha Hs)|].
  split; [reflexivity|]. split; [|split; [|split]].
  - intros Hx Ht. rewrite checkPageResponseTime_off, checkPageXhtml_off by done.
    apply pageFetched_fields.
  - intros Hc. by rewrite checkPageCompression_off.
  - intros pre directive post Hcc Hd. unfold checkPageCaching.
    rewrite Hopt, Hetag, Hcc, (truthy_around _ _ _ Hd).
    destruct (notCached_contains pre post directive Hd) as (H1 & H2).
    simpl Js.coerce. rewrite H1, H2. reflexivity.
  - intros Hcc. unfold checkPageCaching. rewrite Hopt, Hetag, Hcc. simpl.
    by rewrite <- app_assoc.
Qed.

(** ** What a queued function changes *)

Lemma testLink_fields page link retryWithGet s :
  let s' := state_of (testLink page link retryWithGet s) in
  pendingCallbacks s' = pendingCallbacks s /\ completions s' = completions s /\
  (testedLinks s' = testedLinks s \/
   (retryWithGet = false /\ (noHashLink link ∉ testedLinks s) /\
    testedLinks s' = testedLinks s ++ [noHashLink link])) /\
  (requests s' = requests s \/ requests s' = requests s ++ [linkRequest link retryWithGet]).
Proof.
  unfold testLink. destruct retryWithGet.
  - cbn [checkTested].
    destruct (requestLink_fields page link true s) as (Hq & Hc & Ht & Hr & _).
    repeat split; auto.
  - destruct (decide (noHashLink link ∈ testedLinks s)) as [Hin|Hout].
    + destruct (checkTested_visited page link s Hin) as (s' & -> & _ & _ & Hq & Ht & Hr & Hc).
      cbn. repeat split; auto.
    + destruct (checkTested_fresh page link s Hout) as (s0 & -> & _ & _ & Ht & Hr & Hq & Hc).
      destruct (requestLink_fields page link false s0) as (Hq' & Hc' & Ht' & Hr' & _).
      split; [congruence|]. split; [congruence|]. split.
      * right. repeat split; try done. congruence.
      * destruct Hr' as [Hr'|Hr']; [left|right]; congruence.
Qed.

Lemma testLink_outcome page link retryWithGet s :
  handsToRetry page link retryWithGet (testLink page link retryWithGet s).
Proof.
  unfold testLink. destruct (checkTested page link retryWithGet s); [done|].
  apply requestLink_fields.
Qed.

Lemma testPage_fields page s :
  (exists message, testPage page s = Throw message s /\ pageCallbacks page s = []) \/
  (exists s', testPage page s = Next s' /\
     testedLinks s' = testedLinks s /\ completions s' = completions s /\
     requests s' = requests s ++ [pageRequest page] /\
     pendingCallbacks s' = pageCallbacks page s ++ pendingCallbacks s).
Proof.
  unfold pageCallbacks.
  destruct (answer (length (requests s)) (pageRequest page)) as [message|[message|res]] eqn:Ha.
  - left. exists message. unfold testPage, send. by rewrite Ha.
  - right. unfold testPage, send. rewrite Ha. eexists. split; [reflexivity|]. done.
  - right. destruct (is2xx res) eqn:Hs.
    + rewrite (testPage_fetched page s res Ha Hs). eexists. split; [reflexivity|].
      destruct (pageFetched_fields page res s) as (_ & Ht & Hr & Hc & _ & Hq).
      destruct (checkPageXhtml_work page res (pageFetched page res s)) as ((Q1 & T1 & R1 & C1) & _).
      set (s1 := checkPageXhtml page res (pageFetched page res s)) in *.
      destruct (checkPageResponseTime_work page (clock E (length (requests s))) s1)
        as ((Q2 & T2 & R2 & C2) & _).
      set (s2 := checkPageResponseTime page (clock E (length (requests s))) s1) in *.
      destruct (checkPageCaching_work page res s2) as ((Q3 & T3 & R3 & C3) & _).
      set (s3 := checkPageCaching page res s2) in *.
      destruct (checkPageCompression_work page res s3) as ((Q4 & T4 & R4 & C4) & _).
      simpl andb. repeat split; congruence.
    + unfold testPage, send. rewrite Ha, bad_status, Hs. simpl.
      eexists. split; [reflexivity|]. done.
Qed.

Lemma finish_fields s :
  exists completion,
    finish s = Return (state_of (finish s)) /\
    completions (state_of (finish s)) = completions s ++ [completion] /\
    pendingCallbacks (state_of (finish s)) = pendingCallbacks s /\
    testedLinks (state_of (finish s)) = testedLinks s /\
    requests (state_of (finish s)) = requests s /\
    issues (state_of (finish s)) = issues s.
Proof.
  unfold finish. destruct (length (issues s)); [by eexists|].
  destruct (summary options); by eexists.
Qed.

(** ** The run *)

Lemma step_halted k : halted k -> step k = k.
Proof. destruct k as [[| | |] s]; simpl; done. Qed.

Lemma run_halted n k : halted k -> run n k = k.
Proof.
  induction n as [|n IH]; [done|]. intros Hk. simpl. rewrite (step_halted k Hk). auto.
Qed.

Lemma run_add n m k : run (n + m) k = run m (run n k).
Proof. revert k. induction n as [|n IH]; intros k; simpl; auto. Qed.

Lemma run_S n k : run (S n) k = step (run n k).
Proof. rewrite <- Nat.add_1_r, run_add. done. Qed.

Lemma step_invoke_state c s : (step (Invoke c, s)).2 = state_of (invoke c s).
Proof. simpl. by destruct (invoke c s). Qed.

Lemma invoke_testedLinks c s :
  let s' := state_of (invoke c s) in
  testedLinks s' = testedLinks s \/
  exists l, (l ∉ testedLinks s) /\ testedLinks s' = testedLinks s ++ [l].
Proof.
  destruct c as [page|page link retryWithGet|]; simpl.
  - destruct (testPage_fields page s) as [(m & -> & _)|(s' & -> & Ht & _)]; simpl; auto.
  - destruct (testLink_fields page link retryWithGet s) as (_ & _ & [Ht|(_ & Hn & Ht)] & _);
      [by left|]. right. by exists (noHashLink link).
  - destruct (finish_fields s) as (c & _ & _ & _ & Ht & _). by left.
Qed.


Lemma step_testedLinks k :
  testedLinks k.2 `prefix_of` testedLinks (step k).2 /\
  (NoDup (testedLinks k.2) -> NoDup (testedLinks (step k).2)).
Proof.
  destruct k as [[|c| |m] s]; try (split; [reflexivity|done]).
  - simpl. destruct (pendingCallbacks s); simpl; (split; [reflexivity|done]).
  - rewrite step_invoke_state. simpl fst. simpl snd.
    destruct (invoke_testedLinks c s) as [->|(l & Hl & ->)]; [split; [reflexivity|done]|].
    split; [by apply prefix_app_r|]. intros Hnd. apply NoDup_app. repeat split; [done| |].
    + intros x Hx Hx'. apply list_elem_of_singleton in Hx'. by subst.
    + apply NoDup_singleton.
Qed.


Lemma run_testedLinks n m k :
  n <= m -> testedLinks (run n k).2 `prefix_of` testedLinks (run m k).2.
Proof.
  induction 1 as [|m Hle IH]; [reflexivity|].
  etrans; [exact IH|]. rewrite run_S. apply step_testedLinks.
Qed.

Lemma run_NoDup n k : NoDup (testedLinks k.2) -> NoDup (testedLinks (run n k).2).
Proof.
  intros Hk. induction n as [|n IH]; [done|]. rewrite run_S. by apply step_testedLinks.
Qed.

(** C1 (amended): in every run the list of tested links only grows, by
    appending, and never holds a link twice. A link check whose link
    without its fragment is in the list logs the [Visited link] line and
    calls its callback at once: it makes no request, leaves the list as it
    is, and records no issue other than the one for an empty fragment. A
    link check whose link without its fragment is not in the list appends
    it before anything else of the check is done: the request is made
    from the state that holds it. *)
Theorem tested_links_grow_and_skip :
  (forall n m, n <= m ->
     testedLinks (run n start).2 `prefix_of` testedLinks (run m start).2) /\
  (forall n, NoDup (testedLinks (run n start).2)) /\
  (forall page link s,
     noHashLink link ∈ testedLinks s ->
     exists s',
       testLink page link false s = Next s' /\
       requests s' = requests s /\ testedLinks s' = testedLinks s /\
       logged s' = logged s ++ ["Visited link: " +:+ link] /\
       issues s' = issues s ++ emptyFragmentIssues page link) /\
  (forall page link s,
     noHashLink link ∉ testedLinks s ->
     exists s0,
       checkTested page link false s = inr s0 /\
       testedLinks s0 = testedLinks s ++ [noHashLink link] /\
       requests s0 = requests s /\
       testLink page link false s = requestLink page link false s0).
Proof.
  split; [|split; [|split]].
  - intros n m Hle. by apply run_testedLinks.
  - intros n. apply run_NoDup. simpl. apply NoDup_nil_2.
  - intros page link s Hin.
    destruct (checkTested_visited page link s Hin) as (s' & Hc & Hi & Hl & _ & Ht & Hr & _).
    exists s'. unfold testLink. by rewrite Hc.
  - intros page link s Hout.
    destruct (checkTested_fresh page link s Hout) as (s0 & Hc & _ & _ & Ht & Hr & _).
    exists s0. unfold testLink. by rewrite Hc.
Qed.


(** ** The queue against the pages taken in turn *)



Lemma step_invoke c s :
  step (Invoke c, s) =
    match invoke c s with
    | Next s' => (Idle, s')
    | Call c' s' => (Invoke c', s')
    | Return s' => (Stopped, s')
    | Throw message s' => (Crashed message, s')
    end.
Proof. reflexivity. Qed.










Lemma linkChecks_not_done page links : Done ∉ linkChecks page links.
Proof.
  unfold linkChecks. induction links as [|link links IH]; simpl.
  - apply not_elem_of_nil.
  - apply not_elem_of_cons. split; [done|exact IH].
Qed.

Lemma pageCallbacks_not_done page s : Done ∉ pageCallbacks page s.
Proof.
  unfold pageCallbacks. repeat case_match; try apply not_elem_of_nil.
  apply linkChecks_not_done.
Qed.

Lemma step_doneLast k : doneLast k -> doneLast (step k).
Proof.
  destruct k as [[|c| |m] s]; unfold doneLast; cbn [fst snd]; try done.
  - (* next() *)
    intros (Hc & q & Hq & Hnot). simpl. rewrite Hq.
    destruct q as [|c q]; simpl.
    + done.
    + apply not_elem_of_cons in Hnot as (Hne & Hnot).
      destruct c; try done; (split; [done|]); by exists q.
  - rewrite step_invoke. destruct c as [page|page link retryWithGet|]; cbn [invoke].
    + intros (Hc & q & Hq & Hnot).
      destruct (testPage_fields page s) as [(m & -> & _)|(s' & -> & _ & Hc' & _ & Hq')];
        cbn [fst snd].
      * split; [done|]. by exists q.
      * split; [congruence|]. exists (pageCallbacks page s ++ q).
        rewrite Hq', Hq, app_assoc. split; [done|].
        apply not_elem_of_app. split; [apply pageCallbacks_not_done|done].
    + intros (Hc & q & Hq & Hnot).
      pose proof (testLink_outcome page link retryWithGet s) as Ho. unfold handsToRetry in Ho.
      destruct (testLink_fields page link retryWithGet s) as (Hq' & Hc' & _).
      destruct (testLink page link retryWithGet s) as [s'|c s'|s'|m s'];
        cbn [fst snd state_of] in *; try done.
      * split; [congruence|]. exists q. by rewrite Hq'.
      * destruct Ho as (_ & ->). split; [congruence|]. exists q. by rewrite Hq'.
      * split; [congruence|]. exists q. by rewrite Hq'.
    + intros (Hc & Hq). destruct (finish_fields s) as (c & Hf & Hc' & Hq' & _).
      rewrite Hf. cbn [fst snd]. split; [congruence|]. rewrite Hc', Hc. done.
Qed.

Lemma start_doneLast : doneLast start.
Proof.
  unfold doneLast, start. cbn [fst snd pendingCallbacks completions]. split; [done|].
  eexists. split; [reflexivity|].
  induction (pageUrls options) as [|page pages IH]; simpl.
  - apply not_elem_of_nil.
  - apply not_elem_of_cons. split; [done|exact IH].
Qed.

Lemma run_doneLast n : doneLast (run n start).
Proof.
  induction n as [|n IH]; [apply start_doneLast|]. rewrite run_S. by apply step_doneLast.
Qed.


(** ** The patterns of the page checks *)

Lemma append_cons c (a b : string) : String c a +:+ b = String c (a +:+ b).
Proof. reflexivity. Qed.

Lemma append_nil_l (s : string) : "" +:+ s = s.
Proof. reflexivity. Qed.

Lemma append_nil_r (s : string) : s +:+ "" = s.
Proof. induction s as [|c s IH]; [done|]. by rewrite append_cons, IH. Qed.

Lemma append_assoc (a b c : string) : (a +:+ b) +:+ c = a +:+ (b +:+ c).
Proof. induction a as [|x a IH]; [done|]. by rewrite !append_cons, IH. Qed.

Lemma run_Lit ci l at_ :
  Regex.run ci (Regex.Lit l) at_ =
    match Regex.strip ci l at_.2 with
    | Some rest => [(at_.1 && String.eqb l "", rest)]
    | None => []
    end.
Proof. reflexivity. Qed.

Lemma run_Seq ci r1 r2 at_ :
  Regex.run ci (Regex.Seq r1 r2) at_ = flat_map (Regex.run ci r2) (Regex.run ci r1 at_).
Proof. reflexivity. Qed.

Lemma run_Alt ci r1 r2 at_ :
  Regex.run ci (Regex.Alt r1 r2) at_ = Regex.run ci r1 at_ ++ Regex.run ci r2 at_.
Proof. reflexivity. Qed.

Lemma run_Opt ci r at_ : Regex.run ci (Regex.Opt r) at_ = at_ :: Regex.run ci r at_.
Proof. reflexivity. Qed.

Lemma run_Bol ci at_ : Regex.run ci Regex.Bol at_ = if at_.1 then [at_] else [].
Proof. reflexivity. Qed.

Lemma run_Eol ci at_ : Regex.run ci Regex.Eol at_ = if String.eqb at_.2 "" then [at_] else [].
Proof. reflexivity. Qed.

Lemma run_Star ci r at_ :
  Regex.run ci (Regex.Star r) at_ = iterate (Regex.run ci r) (String.length at_.2) at_.
Proof. reflexivity. Qed.

Lemma matches_at_spec ci r at_ :
  Regex.matches_at ci r at_ = true <-> exists p, p ∈ Regex.run ci r at_.
Proof.
  unfold Regex.matches_at. destruct (Regex.run ci r at_) as [|p l].
  - split; [done|]. intros (p & Hp). by apply elem_of_nil in Hp.
  - split; [|done]. intros _. exists p. by left.
Qed.

Lemma matches_at_Seq ci r1 r2 at_ :
  Regex.matches_at ci (Regex.Seq r1 r2) at_ = true <->
  exists p, p ∈ Regex.run ci r1 at_ /\ Regex.matches_at ci r2 p = true.
Proof.
  rewrite matches_at_spec, run_Seq. split.
  - intros (q & Hq). apply list_elem_of_In, in_flat_map in Hq as (p & Hp & Hq).
    exists p. split; [by apply list_elem_of_In|].
    apply matches_at_spec. exists q. by apply list_elem_of_In.
  - intros (p & Hp & Hq). apply matches_at_spec in Hq as (q & Hq).
    exists q. apply list_elem_of_In, in_flat_map. exists p.
    split; by apply list_elem_of_In.
Qed.

Lemma matches_at_Alt ci r1 r2 at_ :
  Regex.matches_at ci (Regex.Alt r1 r2) at_ =
    Regex.matches_at ci r1 at_ || Regex.matches_at ci r2 at_.
Proof.
  unfold Regex.matches_at. rewrite run_Alt.
  by destruct (Regex.run ci r1 at_), (Regex.run ci r2 at_).
Qed.

Lemma matches_at_Eol ci at_ : Regex.matches_at ci Regex.Eol at_ = String.eqb at_.2 "".
Proof. unfold Regex.matches_at. rewrite run_Eol. by destruct (String.eqb at_.2 ""). Qed.

(** Without the [i] flag a literal is matched by the strings that begin
    with it. *)
Lemma strip_spec (l s rest : string) :
  Regex.strip false l s = Some rest <-> s = l +:+ rest.
Proof.
  revert s. induction l as [|a l IH]; intros s.
  - simpl. rewrite append_nil_l. split; congruence.
  - rewrite append_cons. destruct s as [|b s]; simpl; [split; congruence|].
    unfold Regex.same_char. destruct (Ascii.eqb a b) eqn:Hab.
    + apply Ascii.eqb_eq in Hab. subst b. rewrite IH. split; congruence.
    + apply Ascii.eqb_neq in Hab. split; congruence.
Qed.

Lemma elem_of_run_Lit (l : string) at_ p :
  p ∈ Regex.run false (Regex.Lit l) at_ <->
  at_.2 = l +:+ p.2 /\ p.1 = at_.1 && String.eqb l "".
Proof.
  rewrite run_Lit. destruct (Regex.strip false l at_.2) as [rest|] eqn:Hs.
  - apply strip_spec in Hs. rewrite list_elem_of_singleton. destruct p as [b t]. simpl. split.
    + intros [= -> ->]. done.
    + intros (Ht & ->). f_equal. rewrite Hs in Ht.
      clear Hs. induction l as [|a l IH]; [done|].
      rewrite !append_cons in Ht. injection Ht. auto.
  - split; [intros H; by apply elem_of_nil in H|].
    intros (Ht & _). apply strip_spec in Ht. congruence.
Qed.

Lemma matches_at_Lit (l : string) at_ :
  Regex.matches_at false (Regex.Lit l) at_ = true <-> exists post, at_.2 = l +:+ post.
Proof.
  rewrite matches_at_spec. split.
  - intros (p & Hp). apply elem_of_run_Lit in Hp as (Hp & _). by exists p.2.
  - intros (post & Hp). exists (at_.1 && String.eqb l "", post). by apply elem_of_run_Lit.
Qed.

(** A pattern that begins with [^] is matched at the start of the
    subject or not at all. *)
Lemma matches_at_Bol_later ci r s :
  Regex.matches_at ci (Regex.Seq Regex.Bol r) (false, s) = false.
Proof. reflexivity. Qed.

Lemma matches_at_Bol_first ci r s :
  Regex.matches_at ci (Regex.Seq Regex.Bol r) (true, s) = Regex.matches_at ci r (true, s).
Proof. unfold Regex.matches_at. rewrite run_Seq, run_Bol. simpl. by rewrite app_nil_r. Qed.

Lemma search_Bol_later ci r s : Regex.search ci (Regex.Seq Regex.Bol r) false s = false.
Proof.
  induction s as [|c s IH]; cbn [Regex.search]; rewrite matches_at_Bol_later; [done|].
  by rewrite IH.
Qed.

Lemma test_anchored ci r s :
  Regex.test ci (Regex.Seq Regex.Bol r) s = Regex.matches_at ci r (true, s).
Proof.
  unfold Regex.test.
  destruct s as [|c s]; cbn [Regex.search]; rewrite matches_at_Bol_first; [by rewrite orb_false_r|].
  by rewrite search_Bol_later, orb_false_r.
Qed.

(** A match may begin anywhere: the subject is searched from each of its
    characters on. *)
Lemma search_spec ci r start s :
  Regex.search ci r start s = true <->
  exists pre suf, s = pre +:+ suf /\
    Regex.matches_at ci r (start && String.eqb pre "", suf) = true.
Proof.
  revert start. induction s as [|c s IH]; intros start.
  - simpl. rewrite orb_false_r. split.
    + intros H. exists "", "". by rewrite andb_true_r.
    + intros (pre & suf & Hs & H). destruct pre; [|done].
      rewrite append_nil_l in Hs. subst suf. by rewrite andb_true_r in H.
  - simpl. rewrite orb_true_iff, IH. split.
    + intros [H | (pre & suf & -> & H)].
      * exists "", (String c s). by rewrite andb_true_r.
      * exists (String c pre), suf. split; [done|]. by rewrite andb_false_r.
    + intros (pre & suf & Hs & H). destruct pre as [|d pre].
      * left. rewrite append_nil_l in Hs. subst suf. by rewrite andb_true_r in H.
      * right. rewrite append_cons in Hs. injection Hs as -> ->.
        exists pre, suf. split; [done|]. by rewrite andb_false_r in H.
Qed.


Lemma everyChar_ext (p q : ascii -> bool) (s : string) :
  (forall c, p c = q c) -> everyChar p s = everyChar q s.
Proof. intros Hpq. induction s as [|c s IH]; [done|]. simpl. by rewrite Hpq, IH. Qed.

Lemma everyChar_app (p : ascii -> bool) (a b : string) :
  everyChar p (a +:+ b) = everyChar p a && everyChar p b.
Proof.
  induction a as [|c a IH]; [done|].
  rewrite append_cons. simpl. by rewrite IH, andb_assoc.
Qed.

Lemma length_append (a b : string) :
  String.length (a +:+ b) = String.length a + String.length b.
Proof. induction a as [|c a IH]; [done|]. rewrite append_cons. simpl. by rewrite IH. Qed.

Lemma elem_of_one (p : ascii -> bool) at_ q :
  q ∈ Regex.one p at_ <-> exists c, at_.2 = String c q.2 /\ p c = true /\ q.1 = false.
Proof.
  unfold Regex.one. destruct at_ as [b s], q as [b' t]. simpl. destruct s as [|c s].
  - split; [intros H; by apply elem_of_nil in H|]. by intros (c & ? & _).
  - destruct (p c) eqn:Hc.
    + rewrite list_elem_of_singleton. split.
      * intros [= -> ->]. by exists c.
      * intros (c' & [= -> ->] & _ & ->). done.
    + split; [intros H; by apply elem_of_nil in H|].
      intros (c' & [= -> ->] & Hc' & _). congruence.
Qed.

(** A starred class of characters consumes any number of the characters
    of the class that the subject begins with. *)
Lemma elem_of_iterate (p : ascii -> bool) once n b s q :
  (forall at_, once at_ = Regex.one p at_) ->
  String.length s <= n ->
  q ∈ iterate once n (b, s) <->
  exists pre, s = pre +:+ q.2 /\ everyChar p pre = true /\ q.1 = b && String.eqb pre "".
Proof.
  intros Honce. revert b s. induction n as [|n IH]; intros b s Hlen.
  - destruct s as [|c s]; [|simpl in Hlen; lia].
    simpl. rewrite list_elem_of_singleton. split.
    + intros ->. exists "". by rewrite andb_true_r.
    + intros (pre & Hs & _ & Hb). destruct pre; [|done].
      rewrite append_nil_l in Hs. rewrite andb_true_r in Hb. destruct q. simpl in *. congruence.
  - cbn [iterate]. rewrite elem_of_cons, Honce. destruct s as [|c s].
    + change (Regex.one p (b, "")) with (@nil Regex.position).
      rewrite filter_nil. cbn [flat_map]. split.
      * intros [-> | H]; [|by apply elem_of_nil in H]. exists "". by rewrite andb_true_r.
      * intros (pre & Hs & _ & Hb). left. destruct pre; [|done].
        rewrite append_nil_l in Hs. rewrite andb_true_r in Hb. destruct q. simpl in *. congruence.
    + unfold Regex.one. cbn [snd]. simpl in Hlen. destruct (p c) eqn:Hc.
      * rewrite filter_cons_True, filter_nil.
        2:{ unfold Regex.shorter. simpl. apply Is_true_true, Nat.ltb_lt. lia. }
        cbn [flat_map]. rewrite app_nil_r.
        change ((fix iterate (n0 : nat) (p0 : Regex.position) {struct n0} :
                   list Regex.position :=
                   p0 :: match n0 with
                         | 0 => []
                         | S n' =>
                             flat_map (iterate n')
                               (filter (fun q0 => Regex.shorter q0 p0) (once p0))
                         end) n (false, s)) with (iterate once n (false, s)).
        rewrite IH by lia. split.
        -- intros [-> | (pre & -> & Hpre & Hb)].
           ++ exists "". by rewrite andb_true_r.
           ++ exists (String c pre). rewrite append_cons. simpl. rewrite Hc, Hpre.
              by rewrite andb_false_r.
        -- intros (pre & Hs & Hpre & Hb). destruct pre as [|c' pre].
           ++ left. rewrite append_nil_l in Hs. rewrite andb_true_r in Hb.
              destruct q. simpl in *. congruence.
           ++ right. rewrite append_cons in Hs. injection Hs as -> ->.
              simpl in Hpre. apply andb_true_iff in Hpre as (_ & Hpre).
              exists pre. by rewrite andb_false_r in Hb.
      * rewrite filter_nil. cbn [flat_map]. split.
        -- intros [-> | H]; [|by apply elem_of_nil in H]. exists "". by rewrite andb_true_r.
        -- intros (pre & Hs & Hpre & Hb). left. destruct pre as [|c' pre].
           ++ rewrite append_nil_l in Hs. rewrite andb_true_r in Hb.
              destruct q. simpl in *. congruence.
           ++ rewrite append_cons in Hs. injection Hs as -> ->.
              simpl in Hpre. rewrite Hc in Hpre. done.
Qed.

Lemma elem_of_run_Star (p : ascii -> bool) ci r at_ q :
  (forall at', Regex.run ci r at' = Regex.one p at') ->
  q ∈ Regex.run ci (Regex.Star r) at_ <->
  exists pre, at_.2 = pre +:+ q.2 /\ everyChar p pre = true /\ q.1 = at_.1 && String.eqb pre "".
Proof.
  intros Hone. rewrite run_Star. destruct at_ as [b s]. by apply elem_of_iterate.
Qed.

(** A literal followed by [$] is matched by the literal alone. *)
Lemma matches_at_Lit_Eol (l : string) at_ :
  Regex.matches_at false (Regex.Seq (Regex.Lit l) Regex.Eol) at_ = true <-> at_.2 = l.
Proof.
  rewrite matches_at_Seq. split.
  - intros (p & Hp & Hend). apply elem_of_run_Lit in Hp as (Hp & _).
    rewrite matches_at_Eol in Hend. apply String.eqb_eq in Hend.
    by rewrite Hp, Hend, append_nil_r.
  - intros Hl. exists (at_.1 && String.eqb l "", ""). split.
    + apply elem_of_run_Lit. simpl. by rewrite append_nil_r.
    + by rewrite matches_at_Eol.
Qed.

Lemma matches_at_Seq_Alt ci r1 r2 r3 at_ :
  Regex.matches_at ci (Regex.Seq (Regex.Alt r1 r2) r3) at_ =
    Regex.matches_at ci (Regex.Seq r1 r3) at_ || Regex.matches_at ci (Regex.Seq r2 r3) at_.
Proof.
  unfold Regex.matches_at. rewrite !run_Seq, run_Alt, flat_map_app.
  by destruct (flat_map _ (Regex.run ci r1 at_)), (flat_map _ (Regex.run ci r2 at_)).
Qed.

(** [/^(deflate|gzip)$/] is matched by [deflate] and [gzip] and by nothing
    else. *)
Lemma contentEncodingSyntax_spec (s : string) :
  Regex.test false Patterns.contentEncodingSyntax s =
    String.eqb s "deflate" || String.eqb s "gzip".
Proof.
  change Patterns.contentEncodingSyntax
    with (Regex.Seq Regex.Bol
            (Regex.Seq (Regex.Alt (Regex.Lit "deflate") (Regex.Lit "gzip")) Regex.Eol)).
  rewrite test_anchored, matches_at_Seq_Alt.
  apply eq_true_iff_eq. rewrite !orb_true_iff, !matches_at_Lit_Eol, !String.eqb_eq. done.
Qed.

(** The pattern for ETag values is matched by the quoted strings, with
    [W/] before them or not, that have no quote inside. *)
Lemma etagSyntax_spec (s : string) :
  Regex.test false Patterns.etagSyntax s = true <->
  exists inner, everyChar notQuote inner = true /\
    (s = Patterns.quote +:+ inner +:+ Patterns.quote \/
     s = "W/" +:+ Patterns.quote +:+ inner +:+ Patterns.quote).
Proof.
  change Patterns.etagSyntax
    with (Regex.Seq Regex.Bol
            (Regex.Seq (Regex.Opt (Regex.Lit "W/"))
               (Regex.Seq (Regex.Lit Patterns.quote)
                  (Regex.Seq (Regex.Star (Regex.NoneOf Patterns.quote))
                     (Regex.Seq (Regex.Lit Patterns.quote) Regex.Eol))))).
  rewrite test_anchored.
  assert (forall at_,
            Regex.matches_at false
              (Regex.Seq (Regex.Lit Patterns.quote)
                 (Regex.Seq (Regex.Star (Regex.NoneOf Patterns.quote))
                    (Regex.Seq (Regex.Lit Patterns.quote) Regex.Eol))) at_ = true <->
            exists inner, everyChar notQuote inner = true /\
              at_.2 = Patterns.quote +:+ inner +:+ Patterns.quote) as Hquoted.
  { intros at_. rewrite matches_at_Seq. split.
    - intros (p1 & Hp1 & Hrest). apply elem_of_run_Lit in Hp1 as (Hp1 & _).
      apply matches_at_Seq in Hrest as (p2 & Hp2 & Hend).
      apply (elem_of_run_Star notQuote) in Hp2 as (inner & Hp2 & Hinner & _).
      2:{ intros at'. change (Regex.run false (Regex.NoneOf Patterns.quote) at')
            with (Regex.one (fun c => negb (Regex.mem_char false c Patterns.quote)) at').
          unfold Regex.one. destruct at'.2 as [|c t]; [done|].
          unfold notQuote. simpl. unfold Regex.same_char. by rewrite orb_false_r. }
      apply matches_at_Lit_Eol in Hend. exists inner. split; [done|].
      by rewrite Hp1, Hp2, Hend.
    - intros (inner & Hinner & Hs).
      exists (at_.1 && String.eqb Patterns.quote "", inner +:+ Patterns.quote). split.
      + by apply elem_of_run_Lit.
      + apply matches_at_Seq. exists (false, Patterns.quote). split.
        * apply (elem_of_run_Star notQuote).
          { intros at'. change (Regex.run false (Regex.NoneOf Patterns.quote) at')
              with (Regex.one (fun c => negb (Regex.mem_char false c Patterns.quote)) at').
            unfold Regex.one. destruct at'.2 as [|c t]; [done|].
            unfold notQuote. simpl. unfold Regex.same_char. by rewrite orb_false_r. }
          exists inner. simpl. split; [done|]. split; [done|]. by destruct at_.1.
        * by apply matches_at_Lit_Eol. }
  rewrite matches_at_Seq. split.
  - intros (p & Hp & Hrest). rewrite run_Opt, elem_of_cons in Hp.
    apply Hquoted in Hrest as (inner & Hinner & Hs). exists inner. split; [done|].
    destruct Hp as [-> | Hp]; [by left|].
    apply elem_of_run_Lit in Hp as (Hp & _). right. simpl in Hp. by rewrite Hp, Hs.
  - intros (inner & Hinner & [-> | ->]).
    + exists (true, Patterns.quote +:+ inner +:+ Patterns.quote). split.
      * rewrite run_Opt. by left.
      * apply Hquoted. by exists inner.
    + exists (false, Patterns.quote +:+ inner +:+ Patterns.quote). split.
      * rewrite run_Opt. right. by apply elem_of_run_Lit.
      * apply Hquoted. by exists inner.
Qed.

(** [/^[\u0000-\u007f]*$/] is matched by the strings all of whose
    characters are in ASCII. *)
Lemma asciiOnly_spec (s : string) :
  Regex.test false Patterns.asciiOnly s = everyChar isAscii s.
Proof.
  change Patterns.asciiOnly
    with (Regex.Seq Regex.Bol
            (Regex.Seq (Regex.Star (Regex.Range (ascii_of_nat 0) (ascii_of_nat 127)))
               Regex.Eol)).
  rewrite test_anchored. apply eq_true_iff_eq. rewrite matches_at_Seq. split.
  - intros (p & Hp & Hend). rewrite matches_at_Eol in Hend. apply String.eqb_eq in Hend.
    apply (elem_of_run_Star isAscii) in Hp as (pre & Hs & Hpre & _); [|done].
    simpl in Hs. by rewrite Hs, Hend, append_nil_r.
  - intros Hs. exists (true && String.eqb s "", ""). split; [|done].
    apply (elem_of_run_Star isAscii); [done|]. exists s. simpl. by rewrite append_nil_r.
Qed.

(** An alternation of literals is found in the strings that contain one
    of the literals. *)
Lemma test_literals (ds : list string) (s : string) :
  ds <> [] ->
  Regex.test false (Regex.alternatives (map Regex.Lit ds)) s = true <->
  exists d, d ∈ ds /\ contains d s.
Proof.
  intros Hds. unfold Regex.test. rewrite search_spec.
  assert (forall at_,
            Regex.matches_at false (Regex.alternatives (map Regex.Lit ds)) at_ = true <->
            exists d, d ∈ ds /\ exists post, at_.2 = d +:+ post) as Halt.
  { intros at_. induction ds as [|d ds IH]; [done|]. destruct ds as [|d' ds].
    - simpl. rewrite matches_at_Lit. split.
      + intros H. exists d. split; [by left|done].
      + intros (d0 & Hd0 & H). by apply list_elem_of_singleton in Hd0 as ->.
    - change (Regex.alternatives (map Regex.Lit (d :: d' :: ds)))
        with (Regex.Alt (Regex.Lit d) (Regex.alternatives (map Regex.Lit (d' :: ds)))).
      rewrite matches_at_Alt, orb_true_iff, matches_at_Lit, IH by done. split.
      + intros [H | (d0 & Hd0 & H)].
        * exists d. split; [by left|done].
        * exists d0. split; [by right|done].
      + intros (d0 & Hd0 & H). apply elem_of_cons in Hd0 as [-> | Hd0]; [by left|].
        right. by exists d0. }
  split.
  - intros (pre & suf & -> & H). apply Halt in H as (d & Hd & post & Hsuf).
    exists d. split; [done|]. exists pre, post. simpl in Hsuf. by rewrite Hsuf.
  - intros (d & Hd & pre & post & ->). exists pre, (d +:+ post). split; [done|].
    apply Halt. exists d. split; [done|]. by exists post.
Qed.

(** The pattern for Cache-Control values is found in the values that
    contain the name of a directive. *)
Lemma cacheControlDirective_spec (s : string) :
  Regex.test false Patterns.cacheControlDirective s = true <->
  exists d, d ∈ cacheDirectives /\ contains d s.
Proof. by apply (test_literals cacheDirectives). Qed.


(** ** The checks of a page *)

Lemma issuesSince_app s s' rest : issues s' = issues s ++ rest -> issuesSince s s' = rest.
Proof. unfold issuesSince. intros ->. by rewrite drop_app_length. Qed.

Lemma checkPageCaching_issues page res s :
  checkCaching options = true ->
  issues (checkPageCaching page res s) =
    issues s ++ cacheControlIssues page res ++ etagIssues page res.
Proof.
  unfold checkPageCaching, cacheControlIssues, etagIssues. intros ->.
  destruct (Js.truthy (headers res !! "cache-control")),
           (Regex.test false Patterns.cacheControlDirective
              (Js.coerce (headers res !! "cache-control"))),
           (Js.truthy (headers res !! "etag")),
           (Regex.test false Patterns.etagSyntax (Js.coerce (headers res !! "etag"))),
           (Regex.test false Patterns.notCached (Js.coerce (headers res !! "cache-control")));
    simpl; rewrite ?app_nil_r, <- ?app_assoc; reflexivity.
Qed.

Lemma cacheControlIssues_kinds page res :
  countKind "Invalid ETag" (cacheControlIssues page res) = 0 /\
  countKind "Missing ETag" (cacheControlIssues page res) = 0.
Proof.
  unfold cacheControlIssues.
  destruct (Js.truthy _),
           (Regex.test false Patterns.cacheControlDirective
              (Js.coerce (headers res !! "cache-control"))); split; reflexivity.
Qed.

Lemma etagIssues_kinds page res :
  countKind "Invalid Cache-Control" (etagIssues page res) = 0 /\
  countKind "Missing Cache-Control" (etagIssues page res) = 0.
Proof.
  unfold etagIssues.
  destruct (Js.truthy (headers res !! "etag")),
           (Regex.test false Patterns.etagSyntax (Js.coerce (headers res !! "etag"))),
           (negb (Js.truthy (headers res !! "cache-control")) ||
            negb (Regex.test false Patterns.notCached
                    (Js.coerce (headers res !! "cache-control")))); split; reflexivity.
Qed.

Lemma truthy_Some (value : string) : value <> "" -> Js.truthy (Some value) = true.
Proof. intros Hv. simpl. apply negb_true_iff, String.eqb_neq, Hv. Qed.

(** X1: with [checkCompression], the check of a page records no issue when
    the Content-Encoding header of the response is exactly [deflate] or
    [gzip], the issue [Missing Content-Encoding header in response] when
    the header is absent or empty, and the issue [Invalid Content-Encoding
    header in response] with the value for every other value; without the
    option it records nothing. *)
Theorem content_encoding_checked page res s :
  issues (checkPageCompression page res s) = issues s ++
    if checkCompression options then
      match headers res !! "content-encoding" with
      | Some value =>
          if String.eqb value "" then [(page, "Missing Content-Encoding header in response")]
          else if String.eqb value "deflate" || String.eqb value "gzip" then []
          else [(page, "Invalid Content-Encoding header in response: " +:+ value)]
      | None => [(page, "Missing Content-Encoding header in response")]
      end
    else [].
Proof.
  unfold checkPageCompression. destruct (checkCompression options); [|by rewrite app_nil_r].
  destruct (headers res !! "content-encoding") as [value|]; [|done].
  unfold Js.truthy, Js.coerce. destruct (String.eqb value ""); [done|]. cbn [negb].
  rewrite contentEncodingSyntax_spec.
  destruct (String.eqb value "deflate" || String.eqb value "gzip"); [|done].
  by rewrite app_nil_r.
Qed.

(** X2: with [checkCaching], a response whose ETag header has a value
    gets no issue about the ETag when the value is a quoted string with
    no quote inside, with [W/] before it or not; for every other value it
    gets exactly the issue [Invalid ETag header in response] with the
    value. It never gets [Missing ETag header in response]. *)
Theorem etag_syntax_checked page res s value :
  checkCaching options = true ->
  headers res !! "etag" = Some value ->
  value <> "" ->
  let new := issuesSince s (checkPageCaching page res s) in
  countKind "Missing ETag" new = 0 /\
  (quotedTag value -> countKind "Invalid ETag" new = 0) /\
  (~ quotedTag value ->
   countKind "Invalid ETag" new = 1 /\
   (page, "Invalid ETag header in response: " +:+ value) ∈ new).
Proof.
  intros Hon Hetag Hvalue new.
  assert (new = cacheControlIssues page res ++ etagIssues page res) as ->.
  { apply issuesSince_app. by rewrite checkPageCaching_issues. }
  rewrite !countKind_app.
  destruct (cacheControlIssues_kinds page res) as (-> & ->).
  unfold etagIssues. rewrite Hetag, truthy_Some by done. cbn [Js.coerce].
  destruct (Regex.test false Patterns.etagSyntax value) eqn:Hsyntax.
  - apply etagSyntax_spec in Hsyntax. split; [done|]. split; [done|]. intros Hnot. by destruct Hnot.
  - split; [done|]. split.
    + intros Hq. apply etagSyntax_spec in Hq. congruence.
    + intros _. split; [done|]. apply elem_of_app. right. by left.
Qed.

(** X3: with [checkCaching], a response whose Cache-Control header has a
    value gets no issue about Cache-Control when the value contains the
    name of one of the twelve directives anywhere (in lower case, whatever
    is around it); for every other value it gets exactly the issue
    [Invalid Cache-Control header in response] with the value. It never
    gets [Missing Cache-Control header in response]. *)
Theorem cache_control_directive_checked page res s value :
  checkCaching options = true ->
  headers res !! "cache-control" = Some value ->
  value <> "" ->
  let new := issuesSince s (checkPageCaching page res s) in
  countKind "Missing Cache-Control" new = 0 /\
  (namesDirective value -> countKind "Invalid Cache-Control" new = 0) /\
  (~ namesDirective value ->
   countKind "Invalid Cache-Control" new = 1 /\
   (page, "Invalid Cache-Control header in response: " +:+ value) ∈ new).
Proof.
  intros Hon Hcc Hvalue new.
  assert (new = cacheControlIssues page res ++ etagIssues page res) as ->.
  { apply issuesSince_app. by rewrite checkPageCaching_issues. }
  rewrite !countKind_app.
  destruct (etagIssues_kinds page res) as (-> & ->).
  unfold cacheControlIssues. rewrite Hcc, truthy_Some by done. cbn [Js.coerce].
  destruct (Regex.test false Patterns.cacheControlDirective value) eqn:Hsyntax.
  - apply cacheControlDirective_spec in Hsyntax.
    split; [done|]. split; [done|]. intros Hnot. by destruct Hnot.
  - split; [done|]. split.
    + intros Hq. apply cacheControlDirective_spec in Hq. congruence.
    + intros _. split; [done|]. apply elem_of_app. left. by left.
Qed.

Lemma replaceNewlines_clean (message : string) :
  everyChar notNewline (replaceNewlines message) = true.
Proof.
  induction message as [|c rest IH]; [done|]. simpl.
  destruct (Ascii.eqb c (ascii_of_nat 10)) eqn:Hc.
  - rewrite !append_cons, append_nil_l. simpl. exact IH.
  - simpl. unfold notNewline at 1. by rewrite Hc, IH.
Qed.

Lemma replaceNewlines_id (message : string) :
  everyChar notNewline message = true -> replaceNewlines message = message.
Proof.
  induction message as [|c rest IH]; [done|]. simpl. unfold notNewline at 1.
  destruct (Ascii.eqb c (ascii_of_nat 10)); [done|]. simpl. intros H. by rewrite IH.
Qed.

Lemma foldl_logPageError page (f : string -> string) (messages : list string) s :
  issues (foldl (fun s message => logPageError page (f message) s) s messages) =
    issues s ++ map (fun message => (page, f message)) messages.
Proof.
  revert s. induction messages as [|m ms IH]; intros s; simpl; [by rewrite app_nil_r|].
  rewrite IH. simpl. by rewrite <- app_assoc.
Qed.

(** X4: with [checkXhtml], the check of a page records one issue for each
    error that the parser reports for the content, in the order of the
    errors, with every line feed of the message replaced by a comma and a
    space: no recorded message has a line feed left, and a message
    without one is recorded as it is. Without the option it records
    nothing. *)
Theorem xhtml_errors_recorded page res s :
  issues (checkPageXhtml page res s) = issues s ++
    (if checkXhtml options
     then map (fun message => (page, replaceNewlines message)) (sax_errors E (body res))
     else []) /\
  (forall message, everyChar notNewline (replaceNewlines message) = true) /\
  (forall message, everyChar notNewline message = true -> replaceNewlines message = message).
Proof.
  split; [|split; [apply replaceNewlines_clean | apply replaceNewlines_id]].
  unfold checkPageXhtml. destruct (checkXhtml options); [|by rewrite app_nil_r].
  apply foldl_logPageError.
Qed.

(** X5: a link whose path, as [url.parse] gives it, has only characters
    of ASCII is requested as it is written, and so is a link for which
    [url.parse] gives no path: [fixNonAsciiLink] returns it unchanged, for
    a link check and for a page. *)
Theorem ascii_link_requested_as_written link :
  match path (url_parse E link) with
  | Some p => everyChar isAscii p = true
  | None => True
  end ->
  fixNonAsciiLink link = link /\
  (forall retryWithGet, req_uri (linkRequest link retryWithGet) = link) /\
  req_uri (pageRequest link) = link.
Proof.
  intros Hpath.
  assert (fixNonAsciiLink link = link) as Hfix.
  { unfold fixNonAsciiLink. rewrite asciiOnly_spec.
    destruct (path (url_parse E link)) as [p|]; simpl; [by rewrite Hpath|done]. }
  split; [done|]. split; [intros b|]; simpl; done.
Qed.


(** ** The page as a whole *)

Lemma checkPageXhtml_filed page res s :
  exists rest, issues (checkPageXhtml page res s) = issues s ++ rest /\
    Forall (filedUnder page) rest.
Proof.
  unfold checkPageXhtml. destruct (checkXhtml options).
  - eexists. split; [apply foldl_logPageError|]. by apply Forall_map, Forall_true.
  - exists []. by rewrite app_nil_r.
Qed.

Lemma checkPageResponseTime_filed page elapsed s :
  exists rest, issues (checkPageResponseTime page elapsed s) = issues s ++ rest /\
    Forall (filedUnder page) rest.
Proof.
  unfold checkPageResponseTime. destruct (maxResponseTime options) as [[|m]|].
  - exists []. by rewrite app_nil_r.
  - destruct (S m <? elapsed)%nat.
    + eexists. split; [reflexivity|]. by repeat constructor.
    + exists []. by rewrite app_nil_r.
  - exists []. by rewrite app_nil_r.
Qed.

Lemma checkPageCaching_filed page res s :
  exists rest, issues (checkPageCaching page res s) = issues s ++ rest /\
    Forall (filedUnder page) rest.
Proof.
  destruct (checkCaching options) eqn:Hon.
  - eexists. split; [by apply checkPageCaching_issues|].
    apply Forall_app. unfold cacheControlIssues, etagIssues. split.
    + destruct (Js.truthy _),
               (Regex.test false Patterns.cacheControlDirective
                  (Js.coerce (headers res !! "cache-control"))); by repeat constructor.
    + destruct (Js.truthy (headers res !! "etag")),
               (Regex.test false Patterns.etagSyntax (Js.coerce (headers res !! "etag"))),
               (negb (Js.truthy (headers res !! "cache-control")) ||
                negb (Regex.test false Patterns.notCached
                        (Js.coerce (headers res !! "cache-control")))); by repeat constructor.
  - exists []. unfold checkPageCaching. by rewrite Hon, app_nil_r.
Qed.

Lemma checkPageCompression_filed page res s :
  exists rest, issues (checkPageCompression page res s) = issues s ++ rest /\
    Forall (filedUnder page) rest.
Proof.
  unfold checkPageCompression. destruct (checkCompression options).
  - destruct (Js.truthy _).
    + destruct (negb _).
      * eexists. split; [reflexivity|]. by repeat constructor.
      * exists []. by rewrite app_nil_r.
    + eexists. split; [reflexivity|]. by repeat constructor.
  - exists []. by rewrite app_nil_r.
Qed.

(** The four checks of the content and of the headers of a page, one
    after the other: they file their issues under the page and leave the
    rest of the state as it is. *)
Lemma pageChecks_filed page res elapsed s :
  let s' := checkPageCompression page res
              (checkPageCaching page res
                 (checkPageResponseTime page elapsed (checkPageXhtml page res s))) in
  (exists rest, issues s' = issues s ++ rest /\ Forall (filedUnder page) rest) /\
  logged s' = logged s /\ sameWork s s'.
Proof.
  intros s'. subst s'.
  set (s1 := checkPageXhtml page res s).
  set (s2 := checkPageResponseTime page elapsed s1).
  set (s3 := checkPageCaching page res s2).
  destruct (checkPageXhtml_filed page res s) as (r1 & H1 & F1).
  destruct (checkPageResponseTime_filed page elapsed s1) as (r2 & H2 & F2).
  destruct (checkPageCaching_filed page res s2) as (r3 & H3 & F3).
  destruct (checkPageCompression_filed page res s3) as (r4 & H4 & F4).
  destruct (checkPageXhtml_work page res s) as (W1 & L1).
  destruct (checkPageResponseTime_work page elapsed s1) as (W2 & L2).
  destruct (checkPageCaching_work page res s2) as (W3 & L3).
  destruct (checkPageCompression_work page res s3) as (W4 & L4).
  subst s3 s2 s1. split; [|split].
  - exists (r1 ++ r2 ++ r3 ++ r4). split.
    + rewrite H4, H3, H2, H1.
      by rewrite <- !app_assoc.
    + by rewrite !Forall_app.
  - congruence.
  - eauto using sameWork_trans.
Qed.

(** X6: a page whose request fails, or is answered with a status outside
    200-299, gets exactly one issue, [Page error] or [Bad page], with the
    time the request took: nothing is logged, none of its links is queued
    and none of the other checks is made, whatever the options are. *)
Theorem failed_page_skips_checks page s reply :
  answer (length (requests s)) (pageRequest page) = inr reply ->
  match reply with
  | Failed _ => True
  | Ended res => is2xx res = false
  end ->
  let message :=
    match reply with
    | Failed message => "Page error (" +:+ message +:+ "): " +:+ page +:+ elapsedIn s
    | Ended res =>
        "Bad page (" +:+ Js.of_nat (statusCode res) +:+ "): " +:+ page +:+ elapsedIn s
    end in
  exists s',
    testPage page s = Next s' /\
    issues s' = issues s ++ [(page, message)] /\
    errors s' = errors s ++ [message] /\
    logged s' = logged s /\
    pendingCallbacks s' = pendingCallbacks s /\
    testedLinks s' = testedLinks s /\
    requests s' = requests s ++ [pageRequest page].
Proof.
  intros Hanswer Hbad message. unfold testPage, send. rewrite Hanswer.
  destruct reply as [failure|res].
  - eexists. split; [reflexivity|]. by repeat split.
  - rewrite bad_status, Hbad. cbn [negb]. eexists. split; [reflexivity|]. by repeat split.
Qed.

(** X7: when the response of a page comes from another address than the
    one requested ([res.request.href] differs from the page, as after a
    redirect), the line logged names both, the links of the page are
    resolved against the new address and their checks are queued for it,
    and the issues of the page itself are still filed under the address
    as it was given. *)
Theorem redirected_page_links page s res :
  answer (length (requests s)) (pageRequest page) = inr (Ended res) ->
  is2xx res = true ->
  request_href res <> page ->
  exists s',
    testPage page s = Next s' /\
    logged s' =
      logged s ++ ["Page: " +:+ page +:+ " -> " +:+ request_href res +:+ elapsedIn s] /\
    pendingCallbacks s' =
      (if checkLinks options
       then linkChecks (request_href res)
              (pageLinks (request_href res) (cheerio_load E (body res)))
       else []) ++ pendingCallbacks s /\
    Forall (filedUnder page) (issuesSince s s').
Proof.
  intros Hanswer Hok Hmoved.
  rewrite (testPage_fetched page s res Hanswer Hok).
  destruct (pageChecks_filed page res (clock E (length (requests s))) (pageFetched page res s))
    as ((rest & Hissues & Hfiled) & Hlogged & (Hqueue & _)).
  destruct (pageFetched_fields page res s) as (Hi & _ & _ & _ & Hl & Hq).
  assert (String.eqb page (request_href res) = false) as Hneq
    by (apply String.eqb_neq; congruence).
  unfold effectivePage, pageLine in *. rewrite Hneq in *.
  eexists. split; [reflexivity|]. split; [by rewrite Hlogged, Hl|].
  split; [by rewrite Hqueue, Hq|].
  rewrite Hi in Hissues. by rewrite (issuesSince_app _ _ _ Hissues).
Qed.

(** What [requestFile] answers for a URI that it accepts. *)
Lemma requestFile_reply n uri reply :
  requestFile n uri = inr reply ->
  protocol (url_parse E uri) = Some "file:" /\
  match reply with
  | Failed message => fs E n (pathname (url_parse E uri)) = inl message
  | Ended res => fs E n (pathname (url_parse E uri)) = inr (body res) /\
                 res = responseFor uri (body res)
  end.
Proof.
  unfold requestFile, ensureFileProtocol.
  destruct (option_eqb (protocol (url_parse E uri)) (Some "file:")) eqn:Hp; [|done].
  apply option_eqb_eq in Hp. intros [= <-]. split; [done|].
  by destruct (fs E n (pathname (url_parse E uri))).
Qed.

(** X8: [requestFile] throws for a URI whose protocol is not [file:],
    with a message that names the URI, and for no other URI; for a URI
    that it accepts, the read of the path either fails with the error of
    the file system, or ends with a response that has the status 200, no
    header, the URI as [request.href], and the content of the file. *)
Theorem requestFile_contract n uri :
  match requestFile n uri with
  | inl message =>
      protocol (url_parse E uri) <> Some "file:" /\
      message = "URI does not use the 'file:' protocol: " +:+ uri
  | inr reply =>
      protocol (url_parse E uri) = Some "file:" /\
      match reply with
      | Failed message => fs E n (pathname (url_parse E uri)) = inl message
      | Ended res =>
          fs E n (pathname (url_parse E uri)) = inr (body res) /\
          statusCode res = 200 /\ headers res = ∅ /\ request_href res = uri
      end
  end.
Proof.
  destruct (requestFile n uri) as [message|reply] eqn:Hrequest.
  - unfold requestFile, ensureFileProtocol in Hrequest.
    destruct (option_eqb (protocol (url_parse E uri)) (Some "file:")) eqn:Hp; [done|].
    injection Hrequest as <-. split; [|done].
    intros Hfile. apply option_eqb_eq in Hfile. congruence.
  - apply requestFile_reply in Hrequest as (Hp & Hreply). split; [done|].
    destruct reply as [message|res]; [done|]. destruct Hreply as (Hfs & ->). by repeat split.
Qed.

(** X9: a page that is read from a file has the status 200 and no
    header: it is never a [Bad page]; with [checkCaching] it gets the two
    issues [Missing Cache-Control header in response] and [Missing ETag
    header in response], in this order, and with [checkCompression] the
    issue [Missing Content-Encoding header in response]. *)
Theorem file_page_has_no_headers page s res :
  requestFor page = File ->
  answer (length (requests s)) (pageRequest page) = inr (Ended res) ->
  is2xx res = true /\ headers res = ∅ /\ request_href res = fixNonAsciiLink page /\
  (forall s0, issues (checkPageCaching page res s0) = issues s0 ++
     if checkCaching options
     then [(page, "Missing Cache-Control header in response");
           (page, "Missing ETag header in response")]
     else []) /\
  (forall s0, issues (checkPageCompression page res s0) = issues s0 ++
     if checkCompression options
     then [(page, "Missing Content-Encoding header in response")]
     else []) /\
  testPage page s =
    Next (checkPageCompression page res
            (checkPageCaching page res
               (checkPageResponseTime page (clock E (length (requests s)))
                  (checkPageXhtml page res (pageFetched page res s))))).
Proof.
  intros Hvia Hanswer.
  assert (res = responseFor (fixNonAsciiLink page) (body res)) as Hres.
  { unfold answer in Hanswer. cbn [req_via pageRequest] in Hanswer. rewrite Hvia in Hanswer.
    by apply requestFile_reply in Hanswer as (_ & _ & Hres). }
  assert (is2xx res = true) as Hok by (by rewrite Hres).
  assert (headers res = ∅) as Hheaders by (by rewrite Hres).
  split; [done|]. split; [done|]. split; [by rewrite Hres|]. split; [|split].
  - intros s0. unfold checkPageCaching. rewrite Hheaders, !lookup_empty.
    destruct (checkCaching options); [|by rewrite app_nil_r].
    simpl. by rewrite <- app_assoc.
  - intros s0. unfold checkPageCompression. rewrite Hheaders, !lookup_empty.
    destruct (checkCompression options); [done|by rewrite app_nil_r].
  - by apply testPage_fetched.
Qed.


(** ** The link as a whole *)


(** X11: without [noRedirects] the requests for links follow redirects,
    and a link whose GET request is answered with a status outside
    200-299, be it in 300-399, gets exactly one [Bad link] issue with the
    status and no [Redirected link] issue. *)
Theorem redirect_not_reported_by_default page link retryWithGet s res :
  noRedirects options = false ->
  useGetRequest retryWithGet = true ->
  retryWithGet = true \/ noHashLink link ∉ testedLinks s ->
  answer (length (requests s)) (linkRequest link retryWithGet) = inr (Ended res) ->
  is2xx res = false ->
  req_followRedirect (linkRequest link retryWithGet) = true /\
  exists s',
    testLink page link retryWithGet s = Next s' /\
    issues s' = issues s ++
      (if retryWithGet then [] else emptyFragmentIssues page link) ++
      localLinkIssues page link ++
      [(page, "Bad link (" +:+ Js.of_nat (statusCode res) +:+ "): " +:+ link +:+ elapsedIn s)] /\
    countKind "Bad link" (issuesSince s s') = 1 /\
    countKind "Redirected link" (issuesSince s s') = 0.
Proof.
  intros Hfollow Hget Hfresh Hanswer Hbad.
  split; [cbn [linkRequest req_followRedirect]; by rewrite Hfollow|].
  destruct (checkTested_proceeds page link retryWithGet s Hfresh)
    as (s0 & Htested & Hi0 & Hl0 & Hr0).
  rewrite <- Hr0 in Hanswer.
  assert (noLocalLinks options = true -> requestFor link = Http) as Hlocal.
  { intros _. by apply (answer_not2xx_http _ _ _ Hanswer Hbad). }
  destruct (requestLink_answered page link retryWithGet s0 _ Hanswer Hlocal)
    as (s1 & Hrequest & Hi1 & Hl1 & Hr1 & _).
  unfold testLink. rewrite Htested, Hrequest. unfold onEnd.
  unfold is2xx in Hbad. rewrite Hbad, Hget, Hfollow, andb_false_r.
  eexists. split; [reflexivity|]. cbn [logPageError host_error issues].
  rewrite Hi1, Hi0, Hr0. unfold elapsedIn.
  assert (forall (a b c d : list (string * string)), ((a ++ b) ++ c) ++ d = a ++ b ++ c ++ d)
    as Hassoc by (intros; by rewrite <- !app_assoc).
  split; [by rewrite Hassoc|].
  unfold issuesSince. cbn [issues]. rewrite Hassoc, drop_app_length.
  rewrite !countKind_app. unfold emptyFragmentIssues, localLinkIssues.
  split; destruct retryWithGet;
    repeat match goal with |- context [if ?c then _ else _] => destruct c end; reflexivity.
Qed.

(** X12: a link to a file is settled by reading the file once. Without
    [noLocalLinks], and when no hash is expected, its check makes one
    request and hands the callback to no retry: when the file is read the
    line [Link] is logged and no issue but the one for an empty fragment
    is recorded; when the read fails a [Link error] issue with the error
    of the file system is recorded. *)
Theorem file_link_read_once page link s reply :
  requestFor link = File ->
  noLocalLinks options = false ->
  linkHash link = None ->
  noHashLink link ∉ testedLinks s ->
  answer (length (requests s)) (linkRequest link false) = inr reply ->
  exists s',
    testLink page link false s = Next s' /\
    requests s' = requests s ++ [linkRequest link false] /\
    match fs E (length (requests s)) (pathname (url_parse E (fixNonAsciiLink link))) with
    | inr _ =>
        logged s' = logged s ++ ["Link: " +:+ link +:+ elapsedIn s] /\
        issues s' = issues s ++ emptyFragmentIssues page link
    | inl message =>
        logged s' = logged s /\
        issues s' = issues s ++ emptyFragmentIssues page link ++
          [(page, "Link error (" +:+ message +:+ "): " +:+ link +:+ elapsedIn s)]
    end.
Proof.
  intros Hvia Hlocal Hhash Hfresh Hanswer.
  destruct (checkTested_proceeds page link false s (or_intror Hfresh))
    as (s0 & Htested & Hi0 & Hl0 & Hr0).
  rewrite <- Hr0 in Hanswer.
  assert (noLocalLinks options = true -> requestFor link = Http) as Hhttp by congruence.
  destruct (requestLink_answered page link false s0 _ Hanswer Hhttp)
    as (s1 & Hrequest & Hi1 & Hl1 & Hr1 & _).
  assert (localLinkIssues page link = []) as Hnone
    by (unfold localLinkIssues; by rewrite Hlocal).
  rewrite Hnone, app_nil_r in Hi1.
  unfold answer in Hanswer. cbn [linkRequest req_via req_uri] in Hanswer.
  rewrite Hvia in Hanswer. apply requestFile_reply in Hanswer as (_ & Hreply).
  rewrite Hr0 in Hreply.
  unfold testLink. rewrite Htested, Hrequest. destruct reply as [message|res].
  - rewrite Hreply. unfold onError. eexists. split; [reflexivity|].
    cbn [logPageError host_error issues logged requests].
    rewrite Hr1, Hl1, Hi1, Hr0, Hl0, Hi0. unfold elapsedIn.
    split; [done|]. split; [done|]. by rewrite <- app_assoc.
  - destruct Hreply as (Hfs & Hres). rewrite Hfs.
    rewrite onEnd_2xx_plain by (done || by rewrite Hres).
    eexists. split; [reflexivity|]. cbn [host_log issues logged requests].
    rewrite Hr1, Hl1, Hi1, Hr0, Hl0, Hi0. unfold elapsedIn. done.
Qed.


(** ** The run as a whole *)

Lemma run_invariant (I : Control * State -> Prop) :
  I start -> (forall k, I k -> I (step k)) -> forall n, I (run n start).
Proof.
  intros Hstart Hstep n. induction n as [|n IH]; [done|]. rewrite run_S. by apply Hstep.
Qed.














Lemma linkOf_eligible attribute page this link :
  linkOf attribute page this = Some link -> eligible page link.
Proof.
  unfold linkOf, eligible. destruct (Js.truthy _); [|done].
  destruct (checkedProtocol _) eqn:Hprotocol; [|done].
  destruct (negb (onlySameDomain options) || _) eqn:Hdomain; [|done].
  destruct (negb (isLinkIgnored _)) eqn:Hignored; [|done].
  intros [= <-]. split; [done|]. split.
  - intros Hsame. rewrite Hsame in Hdomain. by apply option_eqb_eq in Hdomain.
  - by apply negb_true_iff.
Qed.

Lemma pageLinks_eligible page doc link :
  link ∈ pageLinks page doc -> eligible page link.
Proof.
  unfold pageLinks. intros Hin.
  apply list_elem_of_In, in_flat_map in Hin as (pair & _ & Hin).
  apply list_elem_of_In in Hin. unfold linksOf in Hin.
  apply list_elem_of_omap in Hin as (this & _ & Hlink). by apply linkOf_eligible in Hlink.
Qed.

Lemma foundOn_requests s s' page link :
  requests s `prefix_of` requests s' -> foundOn s page link -> foundOn s' page link.
Proof.
  intros Hprefix (n & given & res & Hlinks & Hgiven & Hrequest & Hrest).
  exists n, given, res. repeat split; try apply Hrest; try done.
  by apply (prefix_lookup_Some (requests s)).
Qed.

Lemma wanted_requests s s' c :
  requests s `prefix_of` requests s' -> wanted s c -> wanted s' c.
Proof.
  intros Hprefix. destruct c as [page|page link retryWithGet|]; cbn [wanted]; try done.
  intros (Hfound & Heligible). split; [|done]. by apply (foundOn_requests s).
Qed.

Lemma expected_requests s s' r :
  requests s `prefix_of` requests s' -> expected s r -> expected s' r.
Proof.
  intros Hprefix [Hpage | (page & link & retryWithGet & Hfound & Heligible & ->)]; [by left|].
  right. exists page, link, retryWithGet. split; [|done]. by apply (foundOn_requests s).
Qed.

(** The checks that a page puts in the queue are for links found on it. *)
Lemma pageCallbacks_wanted page s s' :
  page ∈ map normalizePageUrl (pageUrls options) ->
  requests s' = requests s ++ [pageRequest page] ->
  Forall (wanted s') (pageCallbacks page s).
Proof.
  intros Hpage Hrequests. unfold pageCallbacks.
  destruct (answer _ _) as [|[|res]] eqn:Hanswer; try by constructor.
  destruct (is2xx res && checkLinks options) eqn:Hfetched; [|by constructor].
  apply andb_true_iff in Hfetched as (Hstatus & Hlinks).
  unfold linkChecks. apply Forall_map, Forall_forall. intros link Hlink. cbn [wanted].
  split; [|by apply pageLinks_eligible in Hlink].
  exists (length (requests s)), page, res. repeat split; try done.
  rewrite Hrequests. by apply list_lookup_middle.
Qed.

(** X14: every request of a run is the request of a page of [pageUrls],
    or the request of a link that was found on such a page: in the
    document of a response, with a status in 200-299, to an earlier
    request of the same run for the page, among the links that pass the
    filter of [addLinks] for the address that the response came from. A
    link whose protocol is not [http:], [https:] or [file:], a link on
    [linksToIgnore], and with [onlySameDomain] a link to another host
    than the one of the page it was found on, is never requested as a
    link, nor is any link without [checkLinks]; and the queue holds checks
    of such pages and links only. *)
Theorem only_eligible_links_requested n :
  let s := (run n start).2 in
  Forall (expected s) (requests s) /\ Forall (wanted s) (pendingCallbacks s).
Proof.
  pose (I := fun k : Control * State =>
              Forall (expected k.2) (requests k.2) /\
              Forall (wanted k.2) (pendingCallbacks k.2) /\
              match k.1 with Invoke c => wanted k.2 c | _ => True end).
  assert (forall m, I (run m start)) as Hall.
  { apply (run_invariant I); unfold I.
    - simpl. split; [constructor|]. split; [|done]. apply Forall_app. split.
      + apply Forall_map, Forall_forall. intros page Hpage. simpl.
        apply list_elem_of_fmap. by exists page.
      + by repeat constructor.
    - intros [[|c| |message] s] (Hrequests & Hqueue & Hactive); cbn [fst snd] in *.
      + unfold step. destruct (pendingCallbacks s) as [|c q] eqn:Hq;
          cbn [fst snd set_pendingCallbacks requests pendingCallbacks].
        * rewrite Hq. by repeat split.
        * apply Forall_cons in Hqueue as (Hc & Hq'). by repeat split.
      + rewrite step_invoke. destruct c as [page|page link retryWithGet|]; cbn [invoke].
        * destruct (testPage_fields page s)
            as [(m & -> & _) | (s' & -> & _ & _ & Hr & Hq)]; [done|].
          cbn [fst snd]. cbn [wanted] in Hactive.
          assert (requests s `prefix_of` requests s') as Hprefix
            by (rewrite Hr; by apply prefix_app_r).
          rewrite Hq. split; [|split; [|done]].
          -- rewrite Hr. apply Forall_app. split.
             ++ eapply Forall_impl; [exact Hrequests|]. intros r. by apply expected_requests.
             ++ apply Forall_singleton. left. by exists page.
          -- apply Forall_app. split; [by apply pageCallbacks_wanted|].
             eapply Forall_impl; [exact Hqueue|]. intros c. by apply wanted_requests.
        * destruct (testLink_fields page link retryWithGet s) as (Hq & _ & _ & Hr).
          pose proof (testLink_outcome page link retryWithGet s) as Hout.
          set (s' := state_of (testLink page link retryWithGet s)) in *.
          assert (requests s `prefix_of` requests s') as Hprefix
            by (destruct Hr as [-> | ->]; [done|by apply prefix_app_r]).
          assert (Forall (expected s') (requests s')) as Hrequests'.
          { assert (Forall (expected s') (requests s)) as Hold.
            { eapply Forall_impl; [exact Hrequests|]. intros r. by apply expected_requests. }
            destruct Hr as [-> | ->]; [done|]. apply Forall_app. split; [done|].
            apply Forall_singleton. right. exists page, link, retryWithGet.
            destruct Hactive as (Hfound & Heligible).
            split; [by apply (foundOn_requests s)|done]. }
          assert (Forall (wanted s') (pendingCallbacks s')) as Hqueue'.
          { rewrite Hq. eapply Forall_impl; [exact Hqueue|]. intros c. by apply wanted_requests. }
          assert (wanted s' (TestLink page link true)) as Hretry
            by (by apply (wanted_requests s)).
          subst s'.
          destruct (testLink page link retryWithGet s) as [s'|c' s'|s'|m s'];
            cbn [fst snd state_of handsToRetry] in *; try done.
          destruct Hout as (_ & ->). done.
        * destruct (finish_fields s) as (completion & Hf & _ & Hq & _ & Hr & _).
          rewrite Hf. cbn [fst snd].
          assert (requests s `prefix_of` requests (state_of (finish s))) as Hprefix
            by (by rewrite Hr).
          rewrite Hq, Hr. split; [|split; [|done]].
          -- eapply Forall_impl; [exact Hrequests|]. intros r. by apply expected_requests.
          -- eapply Forall_impl; [exact Hqueue|]. intros c. by apply wanted_requests.
      + done.
      + done. }
  destruct (Hall n) as (Hr & Hq & _). done.
Qed.

Lemma sum_owed_linkChecks page links : sum_list_with owed (linkChecks page links) = 0.
Proof. induction links as [|link links IH]; [done|]. simpl. exact IH. Qed.

Lemma sum_owed_pageCallbacks page s : sum_list_with owed (pageCallbacks page s) = 0.
Proof.
  unfold pageCallbacks. destruct (answer _ _) as [|[|res]]; try done.
  destruct (is2xx res && checkLinks options); [apply sum_owed_linkChecks|done].
Qed.

(** The check of a link either finds the link among the tested ones and
    makes no request, or it makes one request at most, for a link that it
    has put among the tested ones unless it is a retry. *)
Lemma testLink_cases page link retryWithGet s :
  let o := testLink page link retryWithGet s in
  (retryWithGet = false /\ (exists s', o = Next s') /\
   requests (state_of o) = requests s /\ testedLinks (state_of o) = testedLinks s) \/
  (length (requests (state_of o)) <= S (length (requests s)) /\
   testedLinks (state_of o) =
     testedLinks s ++ (if retryWithGet then [] else [noHashLink link])).
Proof.
  intros o. subst o. unfold testLink, checkTested. destruct retryWithGet.
  - right. destruct (requestLink_fields page link true s) as (_ & _ & Ht & Hr & _).
    rewrite Ht, app_nil_r. split; [|done]. destruct Hr as [-> | ->]; [lia|].
    rewrite length_app. simpl. lia.
  - destruct (warnEmptyFragment_spec page link s) as (_ & _ & (_ & Ht & Hr & _)).
    set (s0 := push_testedLink (noHashLink link) (warnEmptyFragment page link s)).
    assert (testedLinks s0 = testedLinks s ++ [noHashLink link]) as Ht0
      by (unfold s0; simpl; by rewrite Ht).
    assert (requests s0 = requests s) as Hr0 by (unfold s0; simpl; done).
    destruct (Js.includes _ _).
    + left. split; [done|]. split; [by eexists|]. simpl. done.
    + right. destruct (requestLink_fields page link false s0) as (_ & _ & Ht' & Hr' & _).
      rewrite Ht', Ht0. split; [|done].
      destruct Hr' as [-> | ->]; rewrite ?length_app, Hr0; simpl; lia.
Qed.

(** X15: at every point of a run, the requests made are at most one for
    each page of [pageUrls] and two for each link tested, the first one
    and the retry; with [queryHashes], one for each link tested. *)
Theorem requests_bounded n :
  length (requests (run n start).2) <=
    length (pageUrls options) + requestsPerLink * length (testedLinks (run n start).2).
Proof.
  remember requestsPerLink as per eqn:Hper.
  pose (I := fun k : Control * State =>
              length (requests k.2) + owedBy k <=
                length (pageUrls options) + per * length (testedLinks k.2)).
  assert (forall m, I (run m start)) as Hall.
  { apply (run_invariant I); unfold I, owedBy.
    - cbn [start fst snd requests testedLinks pendingCallbacks length].
      rewrite sum_list_with_app.
      assert (forall (l : list string),
                sum_list_with owed (map (fun page => TestPage (normalizePageUrl page)) l) =
                  length l) as Hsum.
      { intros l. induction l as [|x l IH]; [done|]. simpl. by rewrite IH. }
      rewrite Hsum. simpl. lia.
    - intros [[|c| |message] s] Hs; cbn [fst snd] in Hs.
      + unfold step. destruct (pendingCallbacks s) as [|c q] eqn:Hq;
          cbn [fst snd set_pendingCallbacks requests pendingCallbacks testedLinks];
          rewrite ?Hq in *; cbn [sum_list_with] in *; lia.
      + rewrite step_invoke. destruct c as [page|page link retryWithGet|]; cbn [invoke owed] in *.
        * destruct (testPage_fields page s)
            as [(m & -> & _) | (s' & -> & Ht & _ & Hr & Hq)]; cbn [fst snd]; [lia|].
          rewrite Hr, Hq, Ht, length_app, sum_list_with_app, sum_owed_pageCallbacks.
          simpl. lia.
        * destruct (testLink_fields page link retryWithGet s) as (Hq & _).
          pose proof (testLink_outcome page link retryWithGet s) as Hout.
          pose proof (testLink_cases page link retryWithGet s) as Hcases. cbv zeta in Hcases.
          assert (1 <= per) as Hone
            by (clear -Hper; subst per; unfold requestsPerLink; destruct (queryHashes options); lia).
          assert (queryHashes options = false -> per = 2) as Htwo
            by (clear -Hper; subst per; unfold requestsPerLink; by intros ->).
          unfold handsToRetry, useGetRequest in Hout.
          destruct (testLink page link retryWithGet s) as [s'|c' s'|s'|m s'];
            cbn [fst snd state_of] in *; rewrite ?Hq.
          -- destruct Hcases as [(-> & _ & Hr & Ht) | (Hr & Ht)].
             ++ rewrite Hr, Ht. lia.
             ++ rewrite Ht, length_app. destruct retryWithGet; simpl in *; nia.
          -- destruct Hout as (Hget & ->). apply orb_false_iff in Hget as (-> & Hoff).
             destruct Hcases as [(_ & (s0 & Hs0) & _) | (Hr & Ht)]; [done|].
             rewrite Ht, length_app, (Htwo Hoff) in *. simpl in *. lia.
          -- done.
          -- destruct Hcases as [(_ & (s0 & Hs0) & _) | (Hr & Ht)]; [done|].
             rewrite Ht, length_app. destruct retryWithGet; simpl in *; nia.
        * destruct (finish_fields s) as (completion & Hf & _ & Hq & Ht & Hr & _).
          rewrite Hf. cbn [fst snd]. rewrite Hq, Ht, Hr. lia.
      + done.
      + done. }
  specialize (Hall n). unfold I in Hall. lia.
Qed.

(** X16: with no page in [pageUrls], [done] is called at once, with no
    error and with zero as the number of issues: no request is made and
    nothing is logged. *)
Theorem no_pages_no_work :
  pageUrls options = [] ->
  run 2 start =
    (Stopped,
     {| pendingCallbacks := []; issues := []; testedLinks := []; logged := []; errors := [];
        requests := []; completions := [(None, 0)] |}).
Proof. unfold start. intros ->. reflexivity. Qed.


(** ** The checks of the arguments *)

Lemma normalizePages_inr items pages' :
  normalizePages items = inr pages' <->
  exists pages, items = map Str pages /\ pages' = map Str (map normalizePageUrl pages).
Proof.
  revert pages'. induction items as [|item items IH]; intros pages'.
  - simpl. split.
    + intros [= <-]. by exists [].
    + intros (pages & Hitems & ->). by destruct pages.
  - simpl. destruct item as [| |b|n|page|l|f|]; simpl.
    1-4, 6-8: split; [done | intros (pages & Hitems & _); by destruct pages].
    destruct (normalizePages items) as [message|rest] eqn:Hrest.
    + split; [done|]. intros ([|p pages] & [= -> ->] & ->).
      assert (@inl string (list Value) message = inr (map Str (map normalizePageUrl pages)))
        as Habsurd by (apply IH; by exists pages).
      done.
    + destruct (proj1 (IH rest) eq_refl) as (pages & -> & ->). split.
      * intros [= <-]. by exists (page :: pages).
      * intros ([|p pages0] & [= -> Heq] & ->). simpl.
        apply (f_equal (map (fun v => match v with Str s => s | _ => "" end))) in Heq.
        rewrite !map_map, !map_id in Heq. by subst.
Qed.

Lemma missingOrNot_function v : missingOrNot "function" v = false <-> v = Function.
Proof.
  destruct v as [| |b|n|s|l|f|]; unfold missingOrNot; simpl; rewrite ?orb_true_r; split; done.
Qed.

Lemma missingOrNot_object v :
  missingOrNot "object" v = false <-> (exists items, v = Array items) \/ (exists fields, v = Object fields).
Proof.
  destruct v as [| |b|n|s|l|f|]; unfold missingOrNot; simpl; rewrite ?orb_true_r;
    (split; [try done; eauto | try done; intros [(? & ?) | (? & ?)]; done]).
Qed.

Lemma readOption_run name fields :
  readOption name (Object fields) = (Object fields, inr (default Undefined (fields !! name))).
Proof. reflexivity. Qed.

Lemma writeOption_run name x fields :
  writeOption name x (Object fields) = (Object (<[name := x]> fields), inr tt).
Proof. reflexivity. Qed.

Lemma normalizeFlag_run name fields :
  normalizeFlag name (Object fields) =
    (Object (<[name := Bool (truthyValue (default Undefined (fields !! name)))]> fields), inr tt).
Proof. reflexivity. Qed.

Lemma default_present (v : Value) : default Undefined (Some v) = v.
Proof. reflexivity. Qed.

Ltac check_step :=
  first [ rewrite normalizeFlag_run | rewrite readOption_run | rewrite writeOption_run ];
  cbv beta iota; rewrite ?lookup_insert_eq, ?default_present;
  rewrite ?lookup_insert_ne by done.

Lemma checkArguments_passes version host done given o' d :
  checkArguments version host done given = (o', inr d) ->
  exists fields pages userAgent,
    given = Object fields /\
    fields !! "pageUrls" = Some (Array (map Str pages)) /\
    chooseUserAgent version (getProperty given "userAgent") = inr userAgent /\
    accepted host given done /\
    d = requestDefaults userAgent /\
    o' = Object (normalizedFields fields pages).
Proof.
  unfold checkArguments.
  destruct (missingOrNot "object" host) eqn:Hhost; [done|].
  unfold bind, lift, throw, ret, checkHostFunction.
  destruct (missingOrNot "function" (getProperty host "log")) eqn:Hlog; [done|].
  destruct (missingOrNot "function" (getProperty host "error")) eqn:Herror; [done|].
  destruct (missingOrNot "function" done) eqn:Hdone; [done|].
  destruct (missingOrNot "object" given) eqn:Hgiven; [done|].
  apply missingOrNot_function in Hlog, Herror, Hdone.
  apply missingOrNot_object in Hgiven as [(items & ->) | (fields & ->)]; [done|].
  check_step.
  destruct (fields !! "pageUrls") as [[| |b|n|s|items|f|]|] eqn:Hpages; try done.
  cbv beta iota delta [default from_option id].
  destruct (normalizePages items) as [message|pages'] eqn:Hnormal; [done|].
  apply normalizePages_inr in Hnormal as (pages & -> & ->).
  do 10 check_step.
  set (linksToIgnore := default Undefined (fields !! "linksToIgnore")).
  destruct (isArray (if truthyValue linksToIgnore then linksToIgnore else Array []))
    eqn:Hignore; [|done].
  cbv beta iota. do 4 check_step.
  set (maxResponseTime := default Undefined (fields !! "maxResponseTime")).
  destruct (truthyValue maxResponseTime && _) eqn:Hmax; [done|].
  cbv beta iota. check_step.
  destruct (chooseUserAgent version (default Undefined (fields !! "userAgent")))
    as [message|userAgent] eqn:Hagent; [done|].
  check_step. intros [= <- <-].
  exists fields, pages, userAgent. split; [done|]. split; [done|]. split; [done|].
  split; [|done].
  unfold accepted. cbn [getProperty]. rewrite Hpages. fold linksToIgnore maxResponseTime.
  split; [done|]. split; [done|]. split; [done|]. split; [by exists pages|].
  split; [|split].
  - destruct (truthyValue linksToIgnore); [right|by left].
    destruct linksToIgnore; try done. by eexists.
  - destruct (truthyValue maxResponseTime); [right|by left].
    destruct maxResponseTime as [| |b|n|s|l|f|]; try done.
    exists n. split; [|done]. cbn in Hmax. apply Z.leb_gt in Hmax. done.
  - unfold chooseUserAgent in Hagent.
    destruct (default Undefined (fields !! "userAgent")) as [| |b|n|s|l|f|];
      cbn in *; try (by left); try (destruct (negb _); [done|by left]); try done.
    + destruct b; [done|by left].
    + right. by eexists.
Qed.


Lemma strings_Str (pages : list string) : strings (Array (map Str pages)) = pages.
Proof.
  unfold strings. induction pages as [|page pages IH]; [done|].
  change (map Str (page :: pages)) with (Str page :: map Str pages).
  cbn [omap list_omap]. by rewrite IH.
Qed.

Lemma normalizedFields_lookup fields pages name :
  normalizedFields fields pages !! name =
    if String.eqb name "pageUrls"
    then Some (Array (map Str (map normalizePageUrl pages)))
    else if existsb (String.eqb name) flagNames
    then Some (Bool (truthyValue (default Undefined (fields !! name))))
    else if String.eqb name "linksToIgnore"
    then Some (if truthyValue (default Undefined (fields !! name))
               then default Undefined (fields !! name) else Array [])
    else fields !! name.
Proof.
  unfold normalizedFields. cbv zeta. cbn [existsb flagNames].
  destruct (String.eqb_spec name "summary") as [->|?];
    [by rewrite lookup_insert_eq|rewrite lookup_insert_ne by done].
  destruct (String.eqb_spec name "checkCompression") as [->|?];
    [by rewrite lookup_insert_eq|rewrite lookup_insert_ne by done].
  destruct (String.eqb_spec name "checkCaching") as [->|?];
    [by rewrite lookup_insert_eq|rewrite lookup_insert_ne by done].
  destruct (String.eqb_spec name "checkXhtml") as [->|?];
    [by rewrite lookup_insert_eq|rewrite lookup_insert_ne by done].
  destruct (String.eqb_spec name "linksToIgnore") as [->|?];
    [by rewrite lookup_insert_eq|rewrite lookup_insert_ne by done].
  destruct (String.eqb_spec name "queryHashes") as [->|?];
    [by rewrite lookup_insert_eq|rewrite lookup_insert_ne by done].
  destruct (String.eqb_spec name "noEmptyFragments") as [->|?];
    [by rewrite lookup_insert_eq|rewrite lookup_insert_ne by done].
  destruct (String.eqb_spec name "noLocalLinks") as [->|?];
    [by rewrite lookup_insert_eq|rewrite lookup_insert_ne by done].
  destruct (String.eqb_spec name "noRedirects") as [->|?];
    [by rewrite lookup_insert_eq|rewrite lookup_insert_ne by done].
  destruct (String.eqb_spec name "onlySameDomain") as [->|?];
    [by rewrite lookup_insert_eq|rewrite lookup_insert_ne by done].
  destruct (String.eqb_spec name "checkLinks") as [->|?];
    [by rewrite lookup_insert_eq|rewrite lookup_insert_ne by done].
  destruct (String.eqb_spec name "pageUrls") as [->|?];
    [by rewrite lookup_insert_eq|rewrite lookup_insert_ne by done].
  done.
Qed.

Lemma checkArguments_accepted version host done given :
  accepted host given done ->
  exists fields pages userAgent,
    given = Object fields /\
    fields !! "pageUrls" = Some (Array (map Str pages)) /\
    chooseUserAgent version (getProperty given "userAgent") = inr userAgent /\
    checkArguments version host done given =
      (Object (normalizedFields fields pages), inr (requestDefaults userAgent)).
Proof.
  intros (Hlog & Herror & -> & (pages & Hpages) & Hignore & Hmax & Hagent).
  destruct given as [| |b|n|s|l|fields|]; try done. cbn [getProperty] in *.
  destruct (fields !! "pageUrls") as [pageUrls|] eqn:Hfield; [|done].
  rewrite default_present in Hpages. subst pageUrls.
  assert (exists userAgent,
            chooseUserAgent version (default Undefined (fields !! "userAgent")) =
              inr userAgent) as (userAgent & Hchosen).
  { unfold chooseUserAgent.
    destruct Hagent as [Hfalsy | (userAgent & ->)].
    - rewrite Hfalsy. destruct (default Undefined (fields !! "userAgent")); by eexists.
    - destruct (truthyValue (Str userAgent)); by eexists. }
  exists fields, pages, userAgent. split; [done|]. split; [done|]. split; [done|].
  unfold checkArguments.
  assert (missingOrNot "object" host = false) as ->.
  { apply missingOrNot_object. right. destruct host; try done. by eexists. }
  unfold bind, lift, throw, ret, checkHostFunction.
  rewrite Hlog, Herror.
  change (missingOrNot "function" Function) with false.
  change (missingOrNot "object" (Object fields)) with false. cbv beta iota.
  check_step. rewrite Hfield, default_present. cbv beta iota.
  assert (normalizePages (map Str pages) = inr (map Str (map normalizePageUrl pages))) as ->
    by (apply normalizePages_inr; by exists pages).
  do 10 check_step.
  assert (isArray (if truthyValue (default Undefined (fields !! "linksToIgnore"))
                   then default Undefined (fields !! "linksToIgnore") else Array []) = true)
    as ->.
  { destruct Hignore as [-> | (items & ->)]; [done|]. by destruct (truthyValue _). }
  cbv beta iota. do 4 check_step.
  assert (truthyValue (default Undefined (fields !! "maxResponseTime")) &&
          match default Undefined (fields !! "maxResponseTime") with
          | Number n => (n <=? 0)%Z
          | _ => true
          end = false) as ->.
  { destruct Hmax as [-> | (n & Hn & ->)]; [done|]. apply andb_false_iff. right.
    by apply Z.leb_gt. }
  cbv beta iota. check_step. rewrite Hchosen. check_step. reflexivity.
Qed.

(** X17: the checks of the arguments pass if and only if [host] has the
    functions [log] and [error], [done] is a function, the options have
    an array of strings as [pageUrls], what is given as [linksToIgnore]
    is falsy or an array, what is given as [maxResponseTime] is falsy or
    a number above zero, and what is given as [userAgent] is falsy or a
    string. Zero, the empty string, [null] and [false] are accepted
    wherever nothing is. *)
Theorem arguments_accepted version host done given :
  (exists o' defaults, checkArguments version host done given = (o', inr defaults)) <->
  accepted host given done.
Proof.
  split.
  - intros (o' & defaults & Hpass).
    by apply checkArguments_passes in Hpass as (_ & _ & _ & _ & _ & _ & Haccepted & _).
  - intros Haccepted.
    apply (checkArguments_accepted version) in Haccepted as (? & ? & ? & _ & _ & _ & Hpass).
    eauto.
Qed.


(** X18: when the checks of the arguments pass, they leave the options
    object with the pages of [pageUrls] each with its protocol ([file:]
    before a page that has none), with a boolean for each of the ten
    flags, true when what was given is truthy, with an array as
    [linksToIgnore], the empty one when what was given is falsy, and with
    every other property as it was given; the options read from the
    object are the ones read from what was given, but for the pages. *)
Theorem options_left_normalized version host done given o' defaults :
  checkArguments version host done given = (o', inr defaults) ->
  (forall name, getProperty o' name = normalizedProperty given name) /\
  optionsOf o' =
    {| pageUrls := map normalizePageUrl (pageUrls (optionsOf given));
       checkLinks := checkLinks (optionsOf given);
       onlySameDomain := onlySameDomain (optionsOf given);
       noRedirects := noRedirects (optionsOf given);
       noLocalLinks := noLocalLinks (optionsOf given);
       noEmptyFragments := noEmptyFragments (optionsOf given);
       queryHashes := queryHashes (optionsOf given);
       linksToIgnore := linksToIgnore (optionsOf given);
       checkXhtml := checkXhtml (optionsOf given);
       checkCaching := checkCaching (optionsOf given);
       checkCompression := checkCompression (optionsOf given);
       maxResponseTime := maxResponseTime (optionsOf given);
       summary := summary (optionsOf given) |}.
Proof.
  intros Hpass.
  apply checkArguments_passes in Hpass
    as (fields & pages & userAgent & -> & Hpages & _ & _ & _ & ->).
  split.
  - intros name. unfold normalizedProperty. cbn [getProperty].
    rewrite normalizedFields_lookup, Hpages, default_present, strings_Str.
    destruct (String.eqb name "pageUrls"); [done|].
    destruct (existsb (String.eqb name) flagNames); [done|].
    by destruct (String.eqb name "linksToIgnore").
  - unfold optionsOf. cbn [getProperty pageUrls checkLinks onlySameDomain noRedirects
      noLocalLinks noEmptyFragments queryHashes linksToIgnore checkXhtml checkCaching
      checkCompression maxResponseTime summary].
    rewrite !normalizedFields_lookup, Hpages. simpl.
    change (omap (fun item : Value => match item with Str s => Some s | _ => None end)
                 (map Str (map normalizePageUrl pages)))
      with (strings (Array (map Str (map normalizePageUrl pages)))).
    change (omap (fun item : Value => match item with Str s => Some s | _ => None end)
                 (map Str pages))
      with (strings (Array (map Str pages))).
    rewrite !strings_Str. f_equal.
    destruct (default Undefined (fields !! "linksToIgnore")) as [| |[]|n|s|l|f|]; simpl;
      try done; try (by destruct (n =? 0)%Z); by destruct (String.eqb s "").
Qed.

(** X19: when the checks of the arguments pass, the requests are made
    with [gzip] and with the headers [Cache-Control: no-cache] and
    [Pragma: no-cache], and with no other header but [User-Agent]; they
    name the package and its version as their user agent when no
    [userAgent] is given, the string given when it is one that is not
    empty, and they carry no [User-Agent] header for any other value that
    passes: [null], the empty string, zero and [false]. *)
Theorem user_agent_sent version host done given o' defaults :
  checkArguments version host done given = (o', inr defaults) ->
  gzip defaults = true /\
  defaultHeaders defaults !! "Cache-Control" = Some "no-cache" /\
  defaultHeaders defaults !! "Pragma" = Some "no-cache" /\
  defaultHeaders defaults !! "User-Agent" =
    userAgentHeader version (getProperty given "userAgent") /\
  (forall name, name <> "Cache-Control" -> name <> "Pragma" -> name <> "User-Agent" ->
     defaultHeaders defaults !! name = None).
Proof.
  intros Hpass.
  apply checkArguments_passes in Hpass
    as (fields & pages & userAgent & -> & _ & Hchosen & _ & -> & _).
  unfold requestDefaults. cbn [gzip defaultHeaders]. split; [done|].
  assert ((exists chosen, userAgent = Some chosen /\ Js.truthy (Some chosen) = true /\
             userAgentHeader version (getProperty (Object fields) "userAgent") = Some chosen) \/
          userAgent = None /\
          userAgentHeader version (getProperty (Object fields) "userAgent") = None)
    as [(chosen & -> & -> & ->) | (-> & ->)].
  { unfold chooseUserAgent in Hchosen.
    destruct (getProperty (Object fields) "userAgent") as [| |b|n|s|l|f|];
      cbn [truthyValue] in Hchosen.
    - injection Hchosen as <-. left. by eexists.
    - injection Hchosen as <-. by right.
    - destruct b; [done|]. injection Hchosen as <-. by right.
    - destruct (negb (n =? 0)%Z); [done|]. injection Hchosen as <-. by right.
    - cbn [userAgentHeader]. destruct (String.eqb s "") eqn:Hs; cbn [negb] in Hchosen;
        injection Hchosen as <-; [by right|left]. eexists. split; [done|]. simpl.
      by rewrite Hs.
    - done.
    - done.
    - done. }
  - cbn [Js.coerce].
    split; [by rewrite lookup_insert_ne, lookup_insert_eq|].
    split; [by rewrite !lookup_insert_ne, lookup_singleton_eq|].
    split; [by rewrite lookup_insert_eq|].
    intros name H1 H2 H3. by rewrite !lookup_insert_ne, lookup_singleton_ne.
  - cbn [Js.truthy].
    split; [by rewrite lookup_insert_eq|].
    split; [by rewrite lookup_insert_ne, lookup_singleton_eq|].
    split; [by rewrite lookup_insert_ne, lookup_singleton_ne|].
    intros name H1 H2 H3. by rewrite lookup_insert_ne, lookup_singleton_ne.
Qed.

(** X20: the checks of the arguments can be made again on the options
    object as they left it: when every page keeps its protocol once it
    has one, they pass again, leave the object as it is and give the same
    defaults for the requests. *)
Theorem checks_idempotent version host done given o' defaults :
  checkArguments version host done given = (o', inr defaults) ->
  Forall (fun page => normalizePageUrl (normalizePageUrl page) = normalizePageUrl page)
         (pageUrls (optionsOf given)) ->
  checkArguments version host done o' = (o', inr defaults).
Proof.
  intros Hpass Hpages.
  apply checkArguments_passes in Hpass
    as (fields & pages & userAgent & -> & Hfield & Hchosen & Haccepted & -> & ->).
  unfold optionsOf in Hpages. cbn [pageUrls getProperty] in Hpages.
  rewrite Hfield, default_present, strings_Str in Hpages.
  assert (map normalizePageUrl (map normalizePageUrl pages) = map normalizePageUrl pages)
    as Hsame.
  { clear -Hpages. induction Hpages as [|page pages Hpage _ IH]; [done|].
    simpl. by rewrite Hpage, IH. }
  set (fields' := normalizedFields fields pages).
  destruct Haccepted as (Hlog & Herror & Hdone & _ & Hignore & Hmax & Hagent).
  cbn [getProperty] in Hchosen, Hignore, Hmax, Hagent.
  assert (forall name,
            fields' !! name =
              if String.eqb name "pageUrls"
              then Some (Array (map Str (map normalizePageUrl pages)))
              else if existsb (String.eqb name) flagNames
              then Some (Bool (truthyValue (default Undefined (fields !! name))))
              else if String.eqb name "linksToIgnore"
              then Some (if truthyValue (default Undefined (fields !! name))
                         then default Undefined (fields !! name) else Array [])
              else fields !! name) as Hlookup
    by (intros name; apply normalizedFields_lookup).
  assert (accepted host (Object fields') done) as Haccepted'.
  { unfold accepted. cbn [getProperty]. rewrite !Hlookup. simpl.
    split; [done|]. split; [done|]. split; [done|].
    split; [by exists (map normalizePageUrl pages)|]. split; [|done].
    right. destruct (truthyValue (default Undefined (fields !! "linksToIgnore"))) eqn:Htruthy.
    - destruct Hignore as [Hignore | Hignore]; [congruence|done].
    - by eexists. }
  destruct (checkArguments_accepted version host done (Object fields') Haccepted')
    as (fields0 & pages0 & userAgent0 & [= <-] & Hfield0 & Hchosen0 & ->).
  rewrite Hlookup in Hfield0. simpl in Hfield0. injection Hfield0 as Hpages0.
  apply (f_equal (fun l => strings (Array l))) in Hpages0. rewrite !strings_Str in Hpages0.
  subst pages0.
  cbn [getProperty] in Hchosen0. rewrite Hlookup in Hchosen0. simpl in Hchosen0.
  rewrite Hchosen in Hchosen0. injection Hchosen0 as <-.
  f_equal. f_equal. apply map_eq. intros name.
  rewrite normalizedFields_lookup, Hsame, !Hlookup.
  destruct (String.eqb name "pageUrls"); [done|].
  destruct (existsb (String.eqb name) flagNames); [done|].
  destruct (String.eqb name "linksToIgnore"); [|done].
  rewrite !default_present.
  destruct (truthyValue (default Undefined (fields !! name))) eqn:Htruthy; [by rewrite Htruthy|done].
Qed.


(** ** The summary *)

Lemma summaryLoop_app acc l1 l2 :
  summaryLoop acc (l1 ++ l2) = summaryLoop (summaryLoop acc l1) l2.
Proof. unfold summaryLoop. by rewrite foldl_app. Qed.

Lemma summaryLoop_same text page messages :
  summaryLoop (text, Some page) (map (pair page) messages) =
    (text +:+ summaryLines messages, Some page).
Proof.
  revert text. induction messages as [|message messages IH]; intros text.
  - simpl. by rewrite append_nil_r.
  - change (summaryLoop (text, Some page) (map (pair page) (message :: messages)))
      with (summaryLoop
              ((if option_eqb (Some page) (Some page) then text
                else text +:+ " " +:+ page +:+ newline) +:+ "  " +:+ message +:+ newline,
               Some page)
              (map (pair page) messages)).
    assert (option_eqb (Some page) (Some page) = true) as -> by by apply option_eqb_eq.
    rewrite IH. cbn [summaryLines foldr]. by rewrite !append_assoc.
Qed.

Lemma summaryLoop_group text current page messages :
  messages <> [] -> current <> Some page ->
  summaryLoop (text, current) (map (pair page) messages) =
    (text +:+ summaryBlock (page, messages), Some page).
Proof.
  intros Hsome Hother. destruct messages as [|message messages]; [done|].
  change (summaryLoop (text, current) (map (pair page) (message :: messages)))
    with (summaryLoop
            ((if option_eqb current (Some page) then text
              else text +:+ " " +:+ page +:+ newline) +:+ "  " +:+ message +:+ newline,
             Some page)
            (map (pair page) messages)).
  assert (option_eqb current (Some page) = false) as ->.
  { destruct (option_eqb current (Some page)) eqn:Heq; [|done].
    by apply option_eqb_eq in Heq. }
  rewrite summaryLoop_same. unfold summaryBlock. cbn [fst snd summaryLines foldr].
  by rewrite !append_assoc.
Qed.

Lemma summaryLoop_groups groups text current :
  Forall (fun group : string * list string => group.2 <> []) groups ->
  pagesChange groups ->
  match groups with
  | group :: _ => current <> Some group.1
  | [] => True
  end ->
  (summaryLoop (text, current) (issuesOf groups)).1 =
    text +:+ foldr (fun group rest => summaryBlock group +:+ rest) "" groups.
Proof.
  revert text current. induction groups as [|[page messages] groups IH];
    intros text current Hsome Hchange Hfirst.
  - simpl. by rewrite append_nil_r.
  - apply Forall_cons in Hsome as (Hmessages & Hsome). destruct Hchange as (Hnext & Hchange).
    change (issuesOf ((page, messages) :: groups))
      with (map (pair page) messages ++ issuesOf groups).
    rewrite summaryLoop_app, summaryLoop_group by done.
    rewrite IH; [|done|done|].
    + cbn [foldr]. by rewrite append_assoc.
    + destruct groups as [|next groups]; [done|]. simpl in *. congruence.
Qed.

(** X21: the summary has the line [Summary of issues:], and then, for
    each run of issues of one page, a line with the page after one space
    and a line with each message after two spaces, in the order of the
    issues: a page is named once for the issues that follow one another,
    and again when its issues come after those of another page. *)
Theorem summary_groups_issues_by_page groups :
  Forall (fun group : string * list string => group.2 <> []) groups ->
  pagesChange groups ->
  summaryText (issuesOf groups) =
    "Summary of issues:" +:+ newline +:+
    foldr (fun group rest => summaryBlock group +:+ rest) "" groups.
Proof.
  intros Hsome Hchange.
  change (summaryText (issuesOf groups))
    with (summaryLoop ("Summary of issues:" +:+ newline, None) (issuesOf groups)).1.
  rewrite summaryLoop_groups; [by rewrite append_assoc|done|done|].
  by destruct groups.
Qed.

(** X22: a page of [pageUrls] that has a protocol is requested as it is
    given, and one that has none is requested as a file, with [file:]
    before it, by [requestFile]; and a page keeps the protocol that it
    has got, so that the pages can be normalised again. This holds where
    [url.parse] finds the protocol [file:] in what begins with it. *)
Theorem page_without_protocol_is_file pageUrl :
  (forall rest, protocol (url_parse E ("file:" +:+ rest)) = Some "file:") ->
  (Js.truthy (protocol (url_parse E pageUrl)) = true -> normalizePageUrl pageUrl = pageUrl) /\
  (Js.truthy (protocol (url_parse E pageUrl)) = false ->
   normalizePageUrl pageUrl = "file:" +:+ pageUrl /\
   requestFor (normalizePageUrl pageUrl) = File /\
   req_via (pageRequest (normalizePageUrl pageUrl)) = File) /\
  normalizePageUrl (normalizePageUrl pageUrl) = normalizePageUrl pageUrl.
Proof.
  intros Hfile.
  assert (forall rest, normalizePageUrl ("file:" +:+ rest) = "file:" +:+ rest) as Hkept.
  { intros rest. unfold normalizePageUrl. by rewrite Hfile. }
  assert (forall rest, requestFor ("file:" +:+ rest) = File) as Hvia.
  { intros rest. unfold requestFor. by rewrite Hfile. }
  destruct (Js.truthy (protocol (url_parse E pageUrl))) eqn:Hprotocol.
  - assert (normalizePageUrl pageUrl = pageUrl) as Hsame.
    { unfold normalizePageUrl. unfold Js.truthy in Hprotocol.
      destruct (protocol (url_parse E pageUrl)) as [p|]; [|done].
      by destruct (String.eqb p ""). }
    split; [done|]. split; [done|]. by rewrite !Hsame.
  - assert (normalizePageUrl pageUrl = "file:" +:+ pageUrl) as Hsame.
    { unfold normalizePageUrl. unfold Js.truthy in Hprotocol.
      destruct (protocol (url_parse E pageUrl)) as [p|]; [|done].
      by destruct (String.eqb p ""). }
    split; [done|]. rewrite Hsame. split; [|apply Hkept].
    intros _. split; [done|]. split; [apply Hvia|]. cbn [pageRequest req_via]. apply Hvia.
Qed.


(** ** The order of the issues of a page *)

Lemma checkPageCompression_issues page res s :
  issues (checkPageCompression page res s) = issues s ++ compressionIssues page res.
Proof.
  unfold checkPageCompression, compressionIssues.
  destruct (checkCompression options); [|by rewrite app_nil_r].
  destruct (headers res !! "content-encoding") as [value|]; [|done].
  unfold Js.truthy, Js.coerce. destruct (String.eqb value ""); [done|]. cbn [negb].
  rewrite contentEncodingSyntax_spec.
  destruct (String.eqb value "deflate" || String.eqb value "gzip"); [|done].
  by rewrite app_nil_r.
Qed.

Lemma checkPageResponseTime_issues page elapsed s :
  issues (checkPageResponseTime page elapsed s) = issues s ++ responseTimeIssues page elapsed.
Proof.
  unfold checkPageResponseTime, responseTimeIssues.
  destruct (maxResponseTime options) as [[|limit]|]; [by rewrite app_nil_r| |by rewrite app_nil_r].
  change (0 <? S limit)%nat with true. cbn [andb].
  destruct (S limit <? elapsed)%nat; [done|by rewrite app_nil_r].
Qed.

(** X23: a page is requested each time its callback runs: the pages are
    not among the links tested, so that a page listed twice is fetched
    twice, and a link to a page that was fetched is still checked. The
    callback of a page makes exactly one request, leaves the links tested
    as they are, and calls its callback, unless the request function
    throws. *)
Theorem pages_not_deduplicated page s :
  match testPage page s with
  | Next s' =>
      requests s' = requests s ++ [pageRequest page] /\ testedLinks s' = testedLinks s
  | Throw _ s' => s' = s
  | Call _ _ | Return _ => False
  end.
Proof.
  destruct (testPage_fields page s) as [(m & -> & _) | (s' & -> & Ht & _ & Hr & _)]; done.
Qed.

(** X24: the issues of a page that was fetched are, in this order, one
    for each error of the XHTML parser, the one for a response slower
    than [maxResponseTime] (a response that took exactly the limit is
    not slower), the one for the Cache-Control header, the one for the
    ETag header and the one for the Content-Encoding header, each with
    its option; the issues of the links come after them, from the checks
    of the links. Each check looks at the response only, not at the
    issues recorded before. *)
Theorem page_issues_in_order page s res :
  answer (length (requests s)) (pageRequest page) = inr (Ended res) ->
  is2xx res = true ->
  exists s',
    testPage page s = Next s' /\
    issues s' = issues s ++
      xhtmlIssues page res ++
      responseTimeIssues page (clock E (length (requests s))) ++
      (if checkCaching options
       then cacheControlIssues page res ++ etagIssues page res else []) ++
      compressionIssues page res.
Proof.
  intros Hanswer Hok. rewrite (testPage_fetched page s res Hanswer Hok).
  eexists. split; [reflexivity|].
  rewrite checkPageCompression_issues.
  assert (forall s0, issues (checkPageCaching page res s0) = issues s0 ++
            (if checkCaching options
             then cacheControlIssues page res ++ etagIssues page res else [])) as ->.
  { intros s0. destruct (checkCaching options) eqn:Hon.
    - by apply checkPageCaching_issues.
    - unfold checkPageCaching. by rewrite Hon, app_nil_r. }
  rewrite checkPageResponseTime_issues.
  assert (issues (checkPageXhtml page res (pageFetched page res s)) =
            issues (pageFetched page res s) ++ xhtmlIssues page res) as ->.
  { unfold checkPageXhtml, xhtmlIssues. destruct (checkXhtml options); [|by rewrite app_nil_r].
    apply foldl_logPageError. }
  destruct (pageFetched_fields page res s) as (-> & _).
  by rewrite <- !app_assoc.
Qed.


(** ** The expected hash, and the lines logged *)

Lemma parameter_cases query name :
  (parameter query name = None /\ passedOver (query !! name)) \/
  (exists expected,
     parameter query name = Some expected /\ query !! name = Some expected /\
     expected <> Single "" /\ ~ passedOver (query !! name)).
Proof.
  unfold parameter, passedOver. destruct (query !! name) as [[value|values]|]; simpl.
  - destruct (String.eqb_spec value "") as [->|Hvalue]; simpl.
    + left. split; [done|]. by right.
    + right. exists (Single value). repeat split; try done; [congruence|].
      intros [?|?]; congruence.
  - right. exists (Repeated values). repeat split; try done. intros [?|?]; congruence.
  - left. split; [done|]. by left.
Qed.

(** X25: with [queryHashes], the hash that a link is expected to have is
    read from the first of the query parameters [sha1], [md5] and [crc32]
    that is not passed over. A parameter is passed over when the query
    does not have it, or has it once with an empty value; a parameter that
    the query has more than once is not passed over, whatever its values
    are, and the expected hash is then the array of them. No hash is
    expected when all three are passed over, or without [queryHashes]. *)
Theorem hash_parameter_chosen link :
  (forall expected algorithm,
     linkHash link = Some (expected, algorithm) <->
     queryHashes options = true /\
     url_query E link !! hashParameter algorithm = Some expected /\
     expected <> Single "" /\
     Forall (fun earlier => passedOver (url_query E link !! hashParameter earlier))
            (lookedForBefore algorithm)) /\
  (linkHash link = None <->
   queryHashes options = false \/
   Forall (fun algorithm => passedOver (url_query E link !! hashParameter algorithm))
          [sha1; md5; crc32]).
Proof.
  unfold linkHash. destruct (queryHashes options).
  2:{ split; [|split; [by left|done]]. intros expected algorithm. split; [done|by intros (? & _)]. }
  cbv zeta.
  destruct (parameter_cases (url_query E link) "sha1")
    as [(-> & Hsha1) | (first & -> & Hsha1 & Hfirst & Hnot1)].
  2:{ split.
      - intros expected algorithm. split.
        + intros [= <- <-]. cbn [hashParameter lookedForBefore]. by repeat split.
        + intros (_ & Hparameter & _ & Hbefore).
          destruct algorithm; cbn [hashParameter lookedForBefore] in *.
          * congruence.
          * by apply Forall_cons in Hbefore as (Hfalse & _).
          * by apply Forall_cons in Hbefore as (Hfalse & _).
      - split; [done|]. intros [?|Hnone]; [done|].
        by apply Forall_cons in Hnone as (Hfalse & _). }
  destruct (parameter_cases (url_query E link) "md5")
    as [(-> & Hmd5) | (second & -> & Hmd5 & Hsecond & Hnot2)].
  2:{ split.
      - intros expected algorithm. split.
        + intros [= <- <-]. cbn [hashParameter lookedForBefore]. repeat split; try done.
          repeat (apply Forall_cons_2; [cbn [hashParameter]; assumption|]); apply Forall_nil_2.
        + intros (_ & Hparameter & Hexpected & Hbefore).
          destruct algorithm; cbn [hashParameter lookedForBefore] in *.
          * destruct Hsha1 as [Hsha1|Hsha1]; congruence.
          * congruence.
          * apply Forall_cons in Hbefore as (_ & Hbefore).
            by apply Forall_cons in Hbefore as (Hfalse & _).
      - split; [done|]. intros [?|Hnone]; [done|].
        apply Forall_cons in Hnone as (_ & Hnone).
        by apply Forall_cons in Hnone as (Hfalse & _). }
  destruct (parameter_cases (url_query E link) "crc32")
    as [(-> & Hcrc32) | (third & -> & Hcrc32 & Hthird & Hnot3)].
  2:{ split.
      - intros expected algorithm. split.
        + intros [= <- <-]. cbn [hashParameter lookedForBefore]. repeat split; try done.
          repeat (apply Forall_cons_2; [cbn [hashParameter]; assumption|]); apply Forall_nil_2.
        + intros (_ & Hparameter & Hexpected & Hbefore).
          destruct algorithm; cbn [hashParameter lookedForBefore] in *.
          * destruct Hsha1 as [Hsha1|Hsha1]; congruence.
          * destruct Hmd5 as [Hmd5|Hmd5]; congruence.
          * congruence.
      - split; [done|]. intros [?|Hnone]; [done|].
        apply Forall_cons in Hnone as (_ & Hnone). apply Forall_cons in Hnone as (_ & Hnone).
        by apply Forall_cons in Hnone as (Hfalse & _). }
  split.
  - intros expected algorithm. split; [done|].
    intros (_ & Hparameter & Hexpected & _).
    destruct algorithm; cbn [hashParameter] in *.
    + destruct Hsha1 as [Hsha1|Hsha1]; congruence.
    + destruct Hmd5 as [Hmd5|Hmd5]; congruence.
    + destruct Hcrc32 as [Hcrc32|Hcrc32]; congruence.
  - split; [|done]. intros _. right.
    repeat (apply Forall_cons_2; [cbn [hashParameter]; assumption|]); apply Forall_nil_2.
Qed.


Lemma progress_same s s' :
  logged s' = logged s -> Forall progressLine (logged s) -> Forall progressLine (logged s').
Proof. by intros ->. Qed.

Lemma progress_line line s :
  progressLine line -> Forall progressLine (logged s) ->
  Forall progressLine (logged (host_log line s)).
Proof. intros Hline Hs. cbn [host_log logged]. apply Forall_app. by split; [|constructor]. Qed.

Lemma testLink_progress page link retryWithGet s :
  Forall progressLine (logged s) ->
  Forall progressLine (logged (state_of (testLink page link retryWithGet s))).
Proof.
  intros Hs. unfold testLink.
  assert (match checkTested page link retryWithGet s with
          | inl s' | inr s' => Forall progressLine (logged s')
          end) as Htested.
  { unfold checkTested. destruct retryWithGet; [done|].
    destruct (warnEmptyFragment_spec page link s) as (_ & Hlogged & _).
    destruct (Js.includes _ _).
    - apply progress_line; [done|]. by rewrite Hlogged.
    - cbn [push_testedLink logged]. by rewrite Hlogged. }
  destruct (checkTested page link retryWithGet s) as [s0|s0]; [done|].
  unfold requestLink, send. destruct (answer _ _) as [message|reply]; [done|].
  assert (match checkLocal page link (linkRequest link retryWithGet)
                  (push_request (linkRequest link retryWithGet) s0) with
          | inl _ => True
          | inr s1 => Forall progressLine (logged s1)
          end) as Hlocal.
  { unfold checkLocal. destruct (noLocalLinks options); [|done].
    destruct (req_via _); [|done]. by destruct (Regex.test _ _ _). }
  destruct (checkLocal _ _ _ _) as [message|s1]; [done|].
  destruct reply as [message|res]; [done|].
  unfold onEnd. destruct (_ && _).
  - destruct (linkHash link) as [[[expected|values] algorithm]|].
    + destruct (String.eqb _ _).
      * cbn [state_of]. apply progress_line; [done|]. by apply progress_line.
      * cbn [state_of logPageError host_error logged]. by apply (progress_line _ s1).
    + cbn [state_of]. by apply progress_line.
    + cbn [state_of]. by apply progress_line.
  - destruct (useGetRequest retryWithGet); [|done]. by destruct (_ && _).
Qed.

Lemma testPage_progress page s :
  Forall progressLine (logged s) ->
  Forall progressLine (logged (state_of (testPage page s))).
Proof.
  intros Hs. unfold testPage, send.
  destruct (answer _ _) as [message|[message|res]]; [done|done|].
  destruct (_ || _); [done|].
  assert (forall page' line,
            progressLine line ->
            Forall progressLine
              (logged (checkPageCompression page res
                 (checkPageCaching page res
                    (checkPageResponseTime page (clock E (length (requests s)))
                       (checkPageXhtml page res
                          (checkPageLinks page' res
                             (host_log line (push_request (pageRequest page) s))))))))) as Hall.
  { intros page' line Hline.
    destruct (pageChecks_filed page res (clock E (length (requests s)))
                (checkPageLinks page' res (host_log line (push_request (pageRequest page) s))))
      as (_ & -> & _).
    rewrite checkPageLinks_spec.
    destruct (checkLinks options); by apply (progress_line _ (push_request _ s)). }
  destruct (String.eqb page (request_href res)); cbn [state_of]; by apply Hall.
Qed.

(** X26: [host.log] is given lines of progress only, each beginning with
    [Page: ], [Link: ], [Hash: ] or [Visited link: ]: at no point of a
    run was an issue or the summary given to it. *)
Theorem only_progress_logged n : Forall progressLine (logged (run n start).2).
Proof.
  apply (run_invariant (fun k => Forall progressLine (logged k.2))); [by constructor|].
  intros [[|c| |message] s] Hs; cbn [fst snd] in *.
  - unfold step. by destruct (pendingCallbacks s).
  - rewrite step_invoke. destruct c as [page|page link retryWithGet|]; cbn [invoke].
    + pose proof (testPage_progress page s Hs). by destruct (testPage page s).
    + pose proof (testLink_progress page link retryWithGet s Hs).
      by destruct (testLink page link retryWithGet s).
    + assert (logged (state_of (finish s)) = logged s) as Hsame.
      { unfold finish. destruct (length (issues s)); [done|]. by destruct (summary options). }
      destruct (finish s); cbn [snd state_of] in *; by rewrite Hsame.
  - done.
  - done.
Qed.


(** ** What is on record stays on record *)

Lemma grows_refl s : grows s s.
Proof. by repeat split. Qed.

Lemma grows_trans s1 s2 s3 : grows s1 s2 -> grows s2 s3 -> grows s1 s3.
Proof.
  unfold grows. intros (? & ? & ? & ?) (? & ? & ? & ?).
  repeat split; by etrans.
Qed.

Lemma grows_same s s' :
  issues s' = issues s -> logged s' = logged s -> errors s' = errors s ->
  requests s' = requests s -> grows s s'.
Proof. unfold grows. by intros -> -> -> ->. Qed.

Lemma grows_logPageError s0 page message s :
  grows s0 s -> grows s0 (logPageError page message s).
Proof.
  intros H. eapply grows_trans; [exact H|].
  unfold grows. cbn [logPageError host_error issues logged errors requests].
  repeat split; try done; by apply prefix_app_r.
Qed.

Lemma grows_host_log s0 line s : grows s0 s -> grows s0 (host_log line s).
Proof.
  intros H. eapply grows_trans; [exact H|].
  unfold grows. cbn [host_log issues logged errors requests].
  repeat split; try done; by apply prefix_app_r.
Qed.

Lemma grows_host_error s0 message s : grows s0 s -> grows s0 (host_error message s).
Proof.
  intros H. eapply grows_trans; [exact H|].
  unfold grows. cbn [host_error issues logged errors requests].
  repeat split; try done; by apply prefix_app_r.
Qed.

Lemma grows_push_request s0 r s : grows s0 s -> grows s0 (push_request r s).
Proof.
  intros H. eapply grows_trans; [exact H|].
  unfold grows. cbn [push_request issues logged errors requests].
  repeat split; try done; by apply prefix_app_r.
Qed.

Lemma grows_push_testedLink s0 l s : grows s0 s -> grows s0 (push_testedLink l s).
Proof. intros H. eapply grows_trans; [exact H|]. by apply grows_same. Qed.

Lemma grows_warnEmptyFragment s0 page link s :
  grows s0 s -> grows s0 (warnEmptyFragment page link s).
Proof. intros H. unfold warnEmptyFragment. destruct (_ && _); [by apply grows_logPageError|done]. Qed.

Lemma grows_testLink page link retryWithGet s :
  grows s (state_of (testLink page link retryWithGet s)).
Proof.
  unfold testLink.
  assert (match checkTested page link retryWithGet s with
          | inl s' | inr s' => grows s s'
          end) as Htested.
  { unfold checkTested. destruct retryWithGet; [apply grows_refl|].
    destruct (Js.includes _ _).
    - apply grows_host_log, grows_warnEmptyFragment, grows_refl.
    - apply grows_push_testedLink, grows_warnEmptyFragment, grows_refl. }
  destruct (checkTested page link retryWithGet s) as [s0|s0]; [done|].
  unfold requestLink, send. destruct (answer _ _) as [message|reply]; [done|].
  assert (match checkLocal page link (linkRequest link retryWithGet)
                  (push_request (linkRequest link retryWithGet) s0) with
          | inl _ => True
          | inr s1 => grows s s1
          end) as Hlocal.
  { unfold checkLocal. destruct (noLocalLinks options); [|by apply grows_push_request].
    destruct (req_via _); [|done].
    destruct (Regex.test _ _ _);
      [apply grows_logPageError|]; by apply grows_push_request. }
  destruct (checkLocal _ _ _ _) as [message|s1]; [by apply grows_push_request|].
  destruct reply as [message|res]; [by apply grows_logPageError|].
  unfold onEnd. destruct (_ && _).
  - destruct (linkHash link) as [[[expected|values] algorithm]|].
    + destruct (String.eqb _ _).
      * by apply grows_host_log, grows_host_log.
      * by apply grows_logPageError, grows_host_log.
    + by apply grows_host_log.
    + by apply grows_host_log.
  - destruct (useGetRequest retryWithGet); [|done].
    destruct (_ && _); by apply grows_logPageError.
Qed.

Lemma grows_pageChecks page res elapsed s0 s :
  grows s0 s ->
  grows s0 (checkPageCompression page res
              (checkPageCaching page res
                 (checkPageResponseTime page elapsed (checkPageXhtml page res s)))).
Proof.
  intros Hs.
  assert (grows s0 (checkPageXhtml page res s)) as H1.
  { unfold checkPageXhtml. destruct (checkXhtml options); [|done].
    generalize (sax_errors E (body res)). intros messages. revert s Hs.
    induction messages as [|m ms IH]; intros s Hs; [done|].
    simpl. apply IH. by apply grows_logPageError. }
  set (s1 := checkPageXhtml page res s) in *. clearbody s1.
  assert (grows s0 (checkPageResponseTime page elapsed s1)) as H2.
  { unfold checkPageResponseTime. destruct (maxResponseTime options) as [[|m]|]; [done| |done].
    destruct (_ <? _)%nat; [|done]. by apply grows_logPageError. }
  set (s2 := checkPageResponseTime page elapsed s1) in *. clearbody s2.
  assert (grows s0 (checkPageCaching page res s2)) as H3.
  { unfold checkPageCaching. destruct (checkCaching options); [|done].
    destruct (Js.truthy (headers res !! "cache-control")),
             (negb (Regex.test false Patterns.cacheControlDirective
                      (Js.coerce (headers res !! "cache-control")))),
             (Js.truthy (headers res !! "etag")),
             (negb (Regex.test false Patterns.etagSyntax (Js.coerce (headers res !! "etag")))),
             (negb (Regex.test false Patterns.notCached
                      (Js.coerce (headers res !! "cache-control"))));
      cbn [negb orb]; repeat apply grows_logPageError; done. }
  set (s3 := checkPageCaching page res s2) in *. clearbody s3.
  unfold checkPageCompression. destruct (checkCompression options); [|done].
  destruct (Js.truthy _); [destruct (negb _)|]; try done; by apply grows_logPageError.
Qed.

Lemma grows_testPage page s : grows s (state_of (testPage page s)).
Proof.
  unfold testPage, send.
  destruct (answer _ _) as [message|[message|res]]; [apply grows_refl| |].
  - apply grows_logPageError, grows_push_request, grows_refl.
  - destruct (_ || _); [apply grows_logPageError, grows_push_request, grows_refl|].
    destruct (String.eqb page (request_href res)); cbn [state_of];
      apply grows_pageChecks; rewrite checkPageLinks_spec;
      (destruct (checkLinks options);
       [eapply grows_trans; [|by apply grows_same]|];
       apply grows_host_log, grows_push_request, grows_refl).
Qed.

Lemma grows_step k : grows k.2 (step k).2.
Proof.
  destruct k as [[|c| |message] s]; cbn [snd].
  - unfold step. destruct (pendingCallbacks s); [apply grows_refl|by apply grows_same].
  - rewrite step_invoke_state. destruct c as [page|page link retryWithGet|]; cbn [invoke].
    + apply grows_testPage.
    + apply grows_testLink.
    + unfold finish. destruct (length (issues s)); [by apply grows_same|].
      destruct (summary options); cbn [state_of].
      * eapply grows_trans; [apply (grows_host_error s), grows_refl|]. by apply grows_same.
      * by apply grows_same.
  - apply grows_refl.
  - apply grows_refl.
Qed.

Lemma grows_run n k : grows k.2 (run n k).2.
Proof.
  revert k. induction n as [|n IH]; intros k; [apply grows_refl|].
  simpl. eapply grows_trans; [apply grows_step|apply IH].
Qed.

(** X27: nothing on record is lost or changed in the course of a run:
    the issues, the lines given to [host.log], the lines given to
    [host.error] and the requests at a point of the run are those of any
    earlier point, with more after them or not. *)
Theorem records_only_grow n m :
  n <= m ->
  issues (run n start).2 `prefix_of` issues (run m start).2 /\
  logged (run n start).2 `prefix_of` logged (run m start).2 /\
  errors (run n start).2 `prefix_of` errors (run m start).2 /\
  requests (run n start).2 `prefix_of` requests (run m start).2.
Proof.
  intros Hle. replace m with (n + (m - n)) by lia. rewrite run_add. apply grows_run.
Qed.

(** X28: [next] never finds the queue empty: at every point of a run
    where the next callback is about to be taken off the queue, the queue
    holds one, the one that calls [done] at the least; so that no run
    ends because [shift] gave nothing to call. *)
Theorem next_finds_a_callback n :
  match run n start with
  | (Idle, s) => exists callback rest, pendingCallbacks s = callback :: rest
  | (_, _) => True
  end.
Proof.
  pose proof (run_doneLast n) as Hlast.
  destruct (run n start) as [[|c| |message] s]; try done.
  destruct Hlast as (_ & q & Hq & _). cbn [snd] in Hq. rewrite Hq.
  destruct q as [|c q]; by eexists _, _.
Qed.


End CheckPages.

(** * Examples *)

Module Examples.
Import Demo.

(** The runs of two tests of the repository, [checkLinksNoEmptyFragments]
    and [checkLinksNoRedirects], with five milliseconds for every request. *)
Lemma test_checkLinksNoEmptyFragments :
  run (env allFine fragments) linksNoEmptyFragments 16
      (start (env allFine fragments) linksNoEmptyFragments) =
    (Stopped,
     {| pendingCallbacks := [];
        issues :=
          [("http://example.com/fragmentIdentifier.html",
            "Empty fragment: http://example.com/fragmentIdentifier.html#");
           ("http://example.com/fragmentIdentifier.html",
            "Empty fragment: http://example.com/link#")];
        testedLinks :=
          ["http://example.com/fragmentIdentifier.html";
           "http://example.com/fragmentIdentifier.html?name=value";
           "http://example.com/link"; "http://example.com/link?name=value"];
        logged :=
          ["Page: http://example.com/fragmentIdentifier.html (5ms)";
           "Link: http://example.com/fragmentIdentifier.html# (5ms)";
           "Visited link: http://example.com/fragmentIdentifier.html#fragment";
           "Link: http://example.com/fragmentIdentifier.html?name=value#fragment (5ms)";
           "Link: http://example.com/link#fragment (5ms)";
           "Visited link: http://example.com/link#";
           "Link: http://example.com/link?name=value#fragment (5ms)"];
        errors :=
          ["Empty fragment: http://example.com/fragmentIdentifier.html#";
           "Empty fragment: http://example.com/link#"];
        requests :=
          [mkRequest Http "http://example.com/fragmentIdentifier.html" GET true;
           mkRequest Http "http://example.com/fragmentIdentifier.html#" HEAD true;
           mkRequest Http "http://example.com/fragmentIdentifier.html?name=value#fragment"
                     HEAD true;
           mkRequest Http "http://example.com/link#fragment" HEAD true;
           mkRequest Http "http://example.com/link?name=value#fragment" HEAD true];
        completions := [(Some "2 issues. (Set options.summary for a summary.)", 2)] |}).
Proof. reflexivity. Qed.

Lemma test_checkLinksNoRedirects :
  run (env redirecting movedLinks) linksNoRedirects 10
      (start (env redirecting movedLinks) linksNoRedirects) =
    (Stopped,
     {| pendingCallbacks := [];
        issues :=
          [("http://example.com/redirectLink.html",
            "Redirected link (301): http://example.com/movedPermanently -> /movedPermanently_redirected (5ms)");
           ("http://example.com/redirectLink.html",
            "Redirected link (302): http://example.com/movedTemporarily -> [Missing Location header] (5ms)")];
        testedLinks :=
          ["http://example.com/movedPermanently"; "http://example.com/movedTemporarily"];
        logged := ["Page: http://example.com/redirectLink.html (5ms)"];
        errors :=
          ["Redirected link (301): http://example.com/movedPermanently -> /movedPermanently_redirected (5ms)";
           "Redirected link (302): http://example.com/movedTemporarily -> [Missing Location header] (5ms)"];
        requests :=
          [mkRequest Http "http://example.com/redirectLink.html" GET true;
           mkRequest Http "http://example.com/movedPermanently" HEAD false;
           mkRequest Http "http://example.com/movedPermanently" GET false;
           mkRequest Http "http://example.com/movedTemporarily" HEAD false;
           mkRequest Http "http://example.com/movedTemporarily" GET false];
        completions := [(Some "2 issues. (Set options.summary for a summary.)", 2)] |}).
Proof. reflexivity. Qed.

(** C7: the pairs that [testPage] walks through do not include
    [img]/[srcset], [source]/[srcset] and [video]/[poster]: for a page
    whose only links are in those attributes no link check is queued and
    no request other than the one for the page is made, while the links
    in [img]/[src] and [a]/[href] are queued. *)
Theorem srcset_and_poster_not_checked :
  testPage (env allFine media) (links []) "http://example.com/"
           (set_pendingCallbacks [Done] blank) =
    Next {| pendingCallbacks := [Done]; issues := []; testedLinks := [];
            logged := ["Page: http://example.com/ (5ms)"]; errors := [];
            requests := [mkRequest Http "http://example.com/" GET true];
            completions := [] |} /\
  pendingCallbacks
    (state_of (testPage (env allFine image) (links []) "http://example.com/"
                        (set_pendingCallbacks [Done] blank))) =
    [ TestLink "http://example.com/" "http://example.com/about.html" false;
      TestLink "http://example.com/" "http://example.com/a.png" false;
      Done ].
Proof. split; reflexivity. Qed.

(** C8: the pattern of [checkLocal] is anchored at the start for its
    first alternative only and at the end for its last one only, and it is
    tried on the host with its port. The host [localhost.example.com] is
    reported as a local link, and the host [[::1]:8080] is not. For a
    [file:] link the request has no [uri] to read the host from: the check
    throws, and the run ends before [done] is called. *)
Theorem local_link_pattern_misses :
  issues (state_of (testLink (env allFine noDocuments) linksNoLocalLinks
                             "http://example.com/" "http://localhost.example.com/" false blank)) =
    [("http://example.com/", "Local link: http://localhost.example.com/")] /\
  issues (state_of (testLink (env allFine noDocuments) linksNoLocalLinks
                             "http://example.com/" "http://[::1]:8080/" false blank)) = [] /\
  Regex.test true Patterns.localhost "localhost.example.com" = true /\
  Regex.test true Patterns.localhost "[::1]:8080" = false /\
  Regex.test true Patterns.localhost "[::1]" = true /\
  Regex.test true Patterns.localhost "127.0.0.1" = true /\
  Regex.test true Patterns.localhost "localhost" = true /\
  run (env allFine noDocuments) linksNoLocalLinks 3
      (Idle, set_pendingCallbacks
               [TestLink "file:test/page.html" "file:test/other.html" false; Done] blank) =
    (Crashed "Cannot read property 'host' of undefined",
     {| pendingCallbacks := [Done]; issues := []; testedLinks := ["file:test/other.html"];
        logged := []; errors := [];
        requests := [mkRequest File "file:test/other.html" HEAD true];
        completions := [] |}).
Proof. repeat split; reflexivity. Qed.

(** C1, counterexample: with [noEmptyFragments], a link whose form
    without fragment was tested before, and whose fragment is empty, is
    skipped with no request, and an issue is recorded for it. *)
Lemma visited_link_records_issue :
  noHashLink (env allFine noDocuments) "http://example.com/link#" ∈ testedLinks visited /\
  issues visited = [] /\
  testLink (env allFine noDocuments) linksNoEmptyFragments
           "http://example.com/" "http://example.com/link#" false visited =
    Next {| pendingCallbacks := []; testedLinks := ["http://example.com/link"];
            issues := [("http://example.com/", "Empty fragment: http://example.com/link#")];
            logged := ["Visited link: http://example.com/link#"];
            errors := ["Empty fragment: http://example.com/link#"];
            requests := []; completions := [] |}.
Proof. split; [apply includes_true; reflexivity|]. split; reflexivity. Qed.

Lemma tested_links_grow_and_skip_witness :
  noHashLink (env allFine noDocuments) "http://example.com/link#fragment" ∈ testedLinks visited /\
  (exists s',
     testLink (env allFine noDocuments) (links []) "http://example.com/"
              "http://example.com/link#fragment" false visited = Next s' /\
     requests s' = [] /\ testedLinks s' = ["http://example.com/link"] /\
     logged s' = ["Visited link: http://example.com/link#fragment"] /\
     issues s' = []) /\
  (noHashLink (env allFine noDocuments) "http://example.com/other" ∉ testedLinks visited) /\
  (exists s0,
     checkTested (env allFine noDocuments) (links []) "http://example.com/"
                 "http://example.com/other" false visited = inr s0 /\
     testedLinks s0 = ["http://example.com/link"; "http://example.com/other"] /\
     requests s0 = [] /\
     testLink (env allFine noDocuments) (links []) "http://example.com/"
              "http://example.com/other" false visited =
       requestLink (env allFine noDocuments) (links []) "http://example.com/"
                   "http://example.com/other" false s0).
Proof.
  pose proof (tested_links_grow_and_skip (env allFine noDocuments) (links []))
    as (_ & _ & Hskip & Hfresh).
  assert (noHashLink (env allFine noDocuments) "http://example.com/link#fragment"
            ∈ testedLinks visited) as Hin by (apply includes_true; reflexivity).
  assert (noHashLink (env allFine noDocuments) "http://example.com/other"
            ∉ testedLinks visited) as Hout by (apply includes_false; reflexivity).
  exact (conj Hin (conj (Hskip "http://example.com/" _ visited Hin)
           (conj Hout (Hfresh "http://example.com/" _ visited Hout)))).
Defined.

Lemma splitAt_file c rest :
  c <> "f"%char -> c <> "i"%char -> c <> "l"%char -> c <> "e"%char -> c <> ":"%char ->
  splitAt c ("file:" +:+ rest) = ("file:" +:+ (splitAt c rest).1, (splitAt c rest).2).
Proof.
  intros H1 H2 H3 H4 H5.
  change ("file:" +:+ rest)
    with (String "f" (String "i" (String "l" (String "e" (String ":" rest))))).
  cbn [splitAt].
  apply Ascii.eqb_neq in H1, H2, H3, H4, H5. rewrite H1, H2, H3, H4, H5.
  by destruct (splitAt c rest).
Qed.

(** The reader of URLs finds the protocol [file:] in the URLs that start
    with it. *)
Lemma parse_file rest : protocol (parse ("file:" +:+ rest)) = Some "file:".
Proof.
  unfold parse. rewrite (splitAt_file "#") by done.
  destruct (splitAt "#" rest) as [bh f]. cbn [fst snd].
  rewrite (splitAt_file "?") by done.
  destruct (splitAt "?" bh) as [bq q]. cbn [fst snd].
  change (splitAt ":" ("file:" +:+ bq)) with ("file", Some bq). cbv beta iota.
  change (allLetters "file" && negb (String.eqb "file" "")) with true. cbv beta iota.
  destruct (startsWith "//" bq); [|reflexivity].
  by destruct (splitAt "/" (String.substring 2 (String.length bq) bq)).
Qed.



(** C2: with [noLocalLinks], the check of a link to a file throws when it
    reads the host of the request, which the stream of [requestFile] does
    not have: the run of two pages in files, whose first one has such a
    link, ends there, with the second page and the callback that calls
    [done] still in the queue, and [done] is never called. With
    [queryHashes], the check of a link whose query has [sha1] twice throws
    when it compares the hashes, and the run ends in the same way. *)
Theorem done_not_called_after_throw :
  run (envWith allFine readable fileLink noErrors)
      (linksNoLocalLinksFor ["file:test/page.html"; "file:test/second.html"]) 4
      (start (envWith allFine readable fileLink noErrors)
             (linksNoLocalLinksFor ["file:test/page.html"; "file:test/second.html"])) =
    (Crashed "Cannot read property 'host' of undefined",
     {| pendingCallbacks := [TestPage "file:test/second.html"; Done];
        issues := []; testedLinks := ["file:///test/other.html"];
        logged := ["Page: file:test/page.html (5ms)"]; errors := [];
        requests := [mkRequest File "file:test/page.html" GET true;
                     mkRequest File "file:///test/other.html" HEAD true];
        completions := [] |}) /\
  (forall more,
     completions
       (run (envWith allFine readable fileLink noErrors)
            (linksNoLocalLinksFor ["file:test/page.html"; "file:test/second.html"])
            (4 + more)
            (start (envWith allFine readable fileLink noErrors)
                   (linksNoLocalLinksFor ["file:test/page.html"; "file:test/second.html"]))).2 =
       []) /\
  run (env allFine hashedTwice)
      (linksQueryHashes ["http://example.com/"; "http://example.com/second"] false) 4
      (start (env allFine hashedTwice)
             (linksQueryHashes ["http://example.com/"; "http://example.com/second"] false)) =
    (Crashed "linkHash.toUpperCase is not a function",
     {| pendingCallbacks := [TestPage "http://example.com/second"; Done];
        issues := [];
        testedLinks :=
          ["http://example.com/archive.zip?sha1=aaf4c61ddcc5e8a2dabede0f3b482cd9aea9434d&sha1=aaf4c61ddcc5e8a2dabede0f3b482cd9aea9434d"];
        logged :=
          ["Page: http://example.com/ (5ms)";
           "Link: http://example.com/archive.zip?sha1=aaf4c61ddcc5e8a2dabede0f3b482cd9aea9434d&sha1=aaf4c61ddcc5e8a2dabede0f3b482cd9aea9434d (5ms)"];
        errors := [];
        requests :=
          [mkRequest Http "http://example.com/" GET true;
           mkRequest Http
             "http://example.com/archive.zip?sha1=aaf4c61ddcc5e8a2dabede0f3b482cd9aea9434d&sha1=aaf4c61ddcc5e8a2dabede0f3b482cd9aea9434d"
             GET true];
        completions := [] |}) /\
  (forall more,
     completions
       (run (env allFine hashedTwice)
            (linksQueryHashes ["http://example.com/"; "http://example.com/second"] false)
            (4 + more)
            (start (env allFine hashedTwice)
                   (linksQueryHashes ["http://example.com/"; "http://example.com/second"]
                      false))).2 = []).
Proof.
  assert (forall E options k message s,
            run E options 4 k = (Crashed message, s) -> completions s = [] ->
            forall more, completions (run E options (4 + more) k).2 = []) as Hstays.
  { intros E options k message s Hrun Hnone more. by rewrite run_add, Hrun, run_halted. }
  split; [reflexivity|]. split; [by eapply Hstays|]. split; [reflexivity|by eapply Hstays].
Qed.


(** C3, counterexample: with [noEmptyFragments], a link with an empty
    fragment whose HEAD request is answered with 500 and whose GET request
    is answered with 200 passes, and an issue is recorded for it. *)
Lemma retried_link_records_issue :
  answer (env headRejected noDocuments) 0
         (linkRequest (env headRejected noDocuments) linksNoEmptyFragments
                      "http://example.com/link#" false) =
    inr (Ended (mkResponse 500 ∅ "http://example.com/link#" "")) /\
  answer (env headRejected noDocuments) 1
         (linkRequest (env headRejected noDocuments) linksNoEmptyFragments
                      "http://example.com/link#" true) =
    inr (Ended (mkResponse 200 ∅ "http://example.com/link#" "hello")) /\
  run (env headRejected noDocuments) linksNoEmptyFragments 2
      (Invoke (TestLink "http://example.com/" "http://example.com/link#" false), blank) =
    (Idle,
     {| pendingCallbacks := []; testedLinks := ["http://example.com/link"];
        issues := [("http://example.com/", "Empty fragment: http://example.com/link#")];
        logged := ["Link: http://example.com/link# (5ms)"];
        errors := ["Empty fragment: http://example.com/link#"];
        requests := [mkRequest Http "http://example.com/link#" HEAD true;
                     mkRequest Http "http://example.com/link#" GET true];
        completions := [] |}).
Proof. repeat split; reflexivity. Qed.

Lemma head_failure_retried_with_get_witness :
  queryHashes (links []) = false /\
  (noHashLink (env headRejected noDocuments) "http://example.com/link" ∉ testedLinks blank) /\
  answer (env headRejected noDocuments) (length (requests blank))
         (linkRequest (env headRejected noDocuments) (links []) "http://example.com/link" false) =
    inr (Ended (mkResponse 500 ∅ "http://example.com/link" "")) /\
  is2xx (mkResponse 500 ∅ "http://example.com/link" "") = false /\
  answer (env headRejected noDocuments) (S (length (requests blank)))
         (linkRequest (env headRejected noDocuments) (links []) "http://example.com/link" true) =
    inr (Ended (mkResponse 200 ∅ "http://example.com/link" "hello")) /\
  is2xx (mkResponse 200 ∅ "http://example.com/link" "hello") = true /\
  exists s1 s2,
    testLink (env headRejected noDocuments) (links []) "http://example.com/"
             "http://example.com/link" false blank =
      Call (TestLink "http://example.com/" "http://example.com/link" true) s1 /\
    testLink (env headRejected noDocuments) (links []) "http://example.com/"
             "http://example.com/link" true s1 = Next s2 /\
    requests s2 = [mkRequest Http "http://example.com/link" HEAD true;
                   mkRequest Http "http://example.com/link" GET true] /\
    logged s2 = ["Link: http://example.com/link (5ms)"] /\
    issues s2 = [].
Proof.
  assert (noHashLink (env headRejected noDocuments) "http://example.com/link" ∉ testedLinks blank)
    as Hout by (apply includes_false; reflexivity).
  destruct (head_failure_retried_with_get (env headRejected noDocuments) (links [])
              "http://example.com/" "http://example.com/link" blank
              (mkResponse 500 ∅ "http://example.com/link" "")
              (mkResponse 200 ∅ "http://example.com/link" "hello")
              eq_refl Hout eq_refl eq_refl eq_refl eq_refl)
    as (s1 & s2 & H1 & H2 & _ & Hr & _ & _ & _ & Hl & Hi & _).
  refine (conj eq_refl (conj Hout (conj eq_refl (conj eq_refl (conj eq_refl (conj eq_refl _)))))).
  exists s1, s2. exact (conj H1 (conj H2 (conj Hr (conj Hl Hi)))).
Defined.

(** C4, counterexample: with [queryHashes] and [noLocalLinks], a link
    to [localhost] whose content has the digest that its query names
    gets the [Hash] line, and an issue is recorded for it. *)
Lemma matching_hash_records_issue :
  digest (env allFine noDocuments) sha1 "hello" = "aaf4c61ddcc5e8a2dabede0f3b482cd9aea9434d" /\
  testLink (env allFine noDocuments) (linksQueryHashes [] true) "http://localhost:8080/"
           "http://localhost:8080/archive.zip?sha1=AAF4C61DDCC5E8A2DABEDE0F3B482CD9AEA9434D"
           false blank =
    Next {| pendingCallbacks := [];
            testedLinks :=
              ["http://localhost:8080/archive.zip?sha1=AAF4C61DDCC5E8A2DABEDE0F3B482CD9AEA9434D"];
            issues :=
              [("http://localhost:8080/",
                "Local link: http://localhost:8080/archive.zip?sha1=AAF4C61DDCC5E8A2DABEDE0F3B482CD9AEA9434D")];
            logged :=
              ["Link: http://localhost:8080/archive.zip?sha1=AAF4C61DDCC5E8A2DABEDE0F3B482CD9AEA9434D (5ms)";
               "Hash: http://localhost:8080/archive.zip?sha1=AAF4C61DDCC5E8A2DABEDE0F3B482CD9AEA9434D"];
            errors :=
              ["Local link: http://localhost:8080/archive.zip?sha1=AAF4C61DDCC5E8A2DABEDE0F3B482CD9AEA9434D"];
            requests :=
              [mkRequest Http
                 "http://localhost:8080/archive.zip?sha1=AAF4C61DDCC5E8A2DABEDE0F3B482CD9AEA9434D"
                 GET true];
            completions := [] |}.
Proof. split; reflexivity. Qed.

Lemma hash_compared_witness :
  linkHash (env allFine noDocuments) (linksQueryHashes [] false)
           "http://example.com/archive.zip?sha1=9511fa1a787d021bdf3aa9538029a44209fb5c4c" =
    Some (Single "9511fa1a787d021bdf3aa9538029a44209fb5c4c", sha1) /\
  (noHashLink (env allFine noDocuments)
     "http://example.com/archive.zip?sha1=9511fa1a787d021bdf3aa9538029a44209fb5c4c"
     ∉ testedLinks blank) /\
  answer (env allFine noDocuments) (length (requests blank))
         (linkRequest (env allFine noDocuments) (linksQueryHashes [] false)
            "http://example.com/archive.zip?sha1=9511fa1a787d021bdf3aa9538029a44209fb5c4c" false) =
    inr (Ended (mkResponse 200 ∅
                  "http://example.com/archive.zip?sha1=9511fa1a787d021bdf3aa9538029a44209fb5c4c"
                  "hello")) /\
  asciiCase (env allFine noDocuments) /\
  String.eqb
    (toUpperCase (env allFine noDocuments) "9511fa1a787d021bdf3aa9538029a44209fb5c4c")
    (toUpperCase (env allFine noDocuments)
       (digest (env allFine noDocuments) sha1 "hello")) =
    sameLetters "9511fa1a787d021bdf3aa9538029a44209fb5c4c"
                (digest (env allFine noDocuments) sha1 "hello") /\
  exists s',
    testLink (env allFine noDocuments) (linksQueryHashes [] false) "http://example.com/"
             "http://example.com/archive.zip?sha1=9511fa1a787d021bdf3aa9538029a44209fb5c4c"
             false blank = Next s' /\
    logged s' =
      ["Link: http://example.com/archive.zip?sha1=9511fa1a787d021bdf3aa9538029a44209fb5c4c (5ms)"] /\
    issues s' =
      [("http://example.com/",
        "Hash error (aaf4c61ddcc5e8a2dabede0f3b482cd9aea9434d): http://example.com/archive.zip?sha1=9511fa1a787d021bdf3aa9538029a44209fb5c4c")].
Proof.
  assert (noHashLink (env allFine noDocuments)
            "http://example.com/archive.zip?sha1=9511fa1a787d021bdf3aa9538029a44209fb5c4c"
            ∉ testedLinks blank) as Hout by (apply includes_false; reflexivity).
  destruct (hash_compared (env allFine noDocuments) (linksQueryHashes [] false)
              "http://example.com/"
              "http://example.com/archive.zip?sha1=9511fa1a787d021bdf3aa9538029a44209fb5c4c"
              blank "9511fa1a787d021bdf3aa9538029a44209fb5c4c" sha1
              (mkResponse 200 ∅
                 "http://example.com/archive.zip?sha1=9511fa1a787d021bdf3aa9538029a44209fb5c4c"
                 "hello")
              eq_refl Hout eq_refl eq_refl (fun H => eq_refl))
    as (s' & Ht & _ & _ & Hcase & Hif).
  lazy in Hif. destruct Hif as (Hl & Hi & _).
  refine (conj eq_refl (conj Hout (conj eq_refl (conj (fun s _ => eq_refl) _)))).
  split; [exact (Hcase (fun s _ => eq_refl) eq_refl eq_refl)|].
  exists s'. exact (conj Ht (conj Hl Hi)).
Defined.

Lemma redirected_or_bad_link_witness :
  noRedirects linksNoRedirects = true /\
  useGetRequest linksNoRedirects true = true /\
  answer (env moved noDocuments) (length (requests blank))
         (linkRequest (env moved noDocuments) linksNoRedirects "http://example.com/moved" true) =
    inr (Ended (mkResponse 301 {[ "location" := "/x" ]} "http://example.com/moved" "")) /\
  is2xx (mkResponse 301 {[ "location" := "/x" ]} "http://example.com/moved" "") = false /\
  exists s',
    testLink (env moved noDocuments) linksNoRedirects "http://example.com/"
             "http://example.com/moved" true blank = Next s' /\
    issues s' =
      [("http://example.com/",
        "Redirected link (301): http://example.com/moved -> /x (5ms)")].
Proof.
  destruct (redirected_or_bad_link (env moved noDocuments) linksNoRedirects
              "http://example.com/" "http://example.com/moved" true blank
              (mkResponse 301 {[ "location" := "/x" ]} "http://example.com/moved" "")
              eq_refl eq_refl (or_introl eq_refl) eq_refl eq_refl)
    as (s' & Ht & _ & Hi & _).
  refine (conj eq_refl (conj eq_refl (conj eq_refl (conj eq_refl _)))).
  exists s'. exact (conj Ht Hi).
Defined.

(** C6, counterexample: with [checkCaching] alone, a page whose response
    is 200 and has neither a Cache-Control header nor an ETag header gets
    two issues. *)
Lemma missing_cache_control_records_two_issues :
  answer (env allFine noDocuments) 0 (pageRequest (env allFine noDocuments) "http://example.com/") =
    inr (Ended (mkResponse 200 ∅ "http://example.com/" "hello")) /\
  testPage (env allFine noDocuments) caching "http://example.com/" blank =
    Next {| pendingCallbacks := []; testedLinks := [];
            issues := [("http://example.com/", "Missing Cache-Control header in response");
                       ("http://example.com/", "Missing ETag header in response")];
            logged := ["Page: http://example.com/ (5ms)"];
            errors := ["Missing Cache-Control header in response";
                       "Missing ETag header in response"];
            requests := [mkRequest Http "http://example.com/" GET true];
            completions := [] |}.
Proof. split; reflexivity. Qed.

Lemma caching_without_etag_witness :
  checkCaching caching = true /\
  answer (env notCaching noDocuments) (length (requests blank))
         (pageRequest (env notCaching noDocuments) "http://example.com/") =
    inr (Ended (mkResponse 200 {[ "cache-control" := "no-cache" ]} "http://example.com/" "hello")) /\
  (mkResponse 200 {[ "cache-control" := "no-cache" ]} "http://example.com/" "hello").(headers)
    !! "etag" = None /\
  exists s',
    testPage (env notCaching noDocuments) caching "http://example.com/" blank = Next s' /\
    issues s' = [].
Proof.
  destruct (caching_without_etag (env notCaching noDocuments) caching
              "http://example.com/" blank
              (mkResponse 200 {[ "cache-control" := "no-cache" ]} "http://example.com/" "hello")
              eq_refl eq_refl eq_refl eq_refl)
    as (s0 & s' & Ht & _ & H0 & Hc & Hnc & _).
  refine (conj eq_refl (conj eq_refl (conj eq_refl _))).
  exists s'. split; [exact Ht|].
  exact (eq_trans (Hc eq_refl)
           (eq_trans (Hnc "" "no-cache" "" eq_refl (or_introl eq_refl)) (H0 eq_refl eq_refl))).
Defined.

Lemma empty_fragment_recorded_witness :
  noEmptyFragments linksNoEmptyFragments = true /\
  hash (url_parse (env allFine noDocuments) "http://example.com/link#") = Some "#" /\
  noHashLink (env allFine noDocuments) "http://example.com/link#" ∈ testedLinks visited /\
  (exists rest,
     issues (state_of (testLink (env allFine noDocuments) linksNoEmptyFragments
                                "http://example.com/" "http://example.com/link#" false blank)) =
       ("http://example.com/", "Empty fragment: http://example.com/link#") :: rest) /\
  (exists s',
     testLink (env allFine noDocuments) linksNoEmptyFragments
              "http://example.com/" "http://example.com/link#" false visited = Next s' /\
     issues s' = [("http://example.com/", "Empty fragment: http://example.com/link#")] /\
     logged s' = ["Visited link: http://example.com/link#"] /\
     requests s' = []).
Proof.
  assert (noHashLink (env allFine noDocuments) "http://example.com/link#" ∈ testedLinks visited)
    as Hin by (apply includes_true; reflexivity).
  refine (conj eq_refl (conj eq_refl (conj Hin (conj _ _)))).
  - exact (proj1 (empty_fragment_recorded (env allFine noDocuments) linksNoEmptyFragments
                    "http://example.com/" "http://example.com/link#" blank eq_refl eq_refl)).
  - exact (proj2 (empty_fragment_recorded (env allFine noDocuments) linksNoEmptyFragments
                    "http://example.com/" "http://example.com/link#" visited eq_refl eq_refl) Hin).
Defined.



(** The checks of the headers of a page, on the values that the tests of
    the repository use. *)
Lemma etag_syntax_checked_witness :
  checkCaching caching = true /\
  headers (tagged (Patterns.quote +:+ "abc" +:+ Patterns.quote)) !! "etag" =
    Some (Patterns.quote +:+ "abc" +:+ Patterns.quote) /\
  quotedTag (Patterns.quote +:+ "abc" +:+ Patterns.quote) /\
  countKind "Missing ETag"
    (issuesSince blank
       (checkPageCaching caching "http://example.com/"
          (tagged (Patterns.quote +:+ "abc" +:+ Patterns.quote)) blank)) = 0 /\
  countKind "Invalid ETag"
    (issuesSince blank
       (checkPageCaching caching "http://example.com/"
          (tagged (Patterns.quote +:+ "abc" +:+ Patterns.quote)) blank)) = 0.
Proof.
  assert (quotedTag (Patterns.quote +:+ "abc" +:+ Patterns.quote)) as Hquoted.
  { exists "abc". split; [reflexivity|]. left. reflexivity. }
  assert (Patterns.quote +:+ "abc" +:+ Patterns.quote <> "") as Hvalue by discriminate.
  destruct (etag_syntax_checked caching "http://example.com/"
              (tagged (Patterns.quote +:+ "abc" +:+ Patterns.quote)) blank _
              eq_refl eq_refl Hvalue) as (Hmissing & Hvalid & _).
  exact (conj eq_refl (conj eq_refl (conj Hquoted (conj Hmissing (Hvalid Hquoted))))).
Defined.

Lemma cache_control_directive_checked_witness :
  checkCaching caching = true /\
  headers (cached "public, max-age=3600") !! "cache-control" = Some "public, max-age=3600" /\
  namesDirective "public, max-age=3600" /\
  countKind "Missing Cache-Control"
    (issuesSince blank
       (checkPageCaching caching "http://example.com/" (cached "public, max-age=3600") blank)) = 0 /\
  countKind "Invalid Cache-Control"
    (issuesSince blank
       (checkPageCaching caching "http://example.com/" (cached "public, max-age=3600") blank)) = 0.
Proof.
  assert (namesDirective "public, max-age=3600") as Hnames.
  { exists "public". split.
    - apply list_elem_of_In. simpl. tauto.
    - exists "", ", max-age=3600". reflexivity. }
  assert ("public, max-age=3600" <> "") as Hvalue by discriminate.
  destruct (cache_control_directive_checked caching "http://example.com/"
              (cached "public, max-age=3600") blank _ eq_refl eq_refl Hvalue)
    as (Hmissing & Hvalid & _).
  exact (conj eq_refl (conj eq_refl (conj Hnames (conj Hmissing (Hvalid Hnames))))).
Defined.

Lemma ascii_link_requested_as_written_witness :
  path (url_parse (env allFine noDocuments) "http://example.com/a?b=c") = Some "/a?b=c" /\
  everyChar isAscii "/a?b=c" = true /\
  fixNonAsciiLink (env allFine noDocuments) "http://example.com/a?b=c" =
    "http://example.com/a?b=c" /\
  req_uri (pageRequest (env allFine noDocuments) "http://example.com/a?b=c") =
    "http://example.com/a?b=c".
Proof.
  destruct (ascii_link_requested_as_written (env allFine noDocuments) (links [])
              "http://example.com/a?b=c" eq_refl) as (Hfix & _ & Hpage).
  exact (conj eq_refl (conj eq_refl (conj Hfix Hpage))).
Defined.

Lemma failed_page_skips_checks_witness :
  answer (env notFound image) (length (requests blank))
         (pageRequest (env notFound image) "http://example.com/") =
    inr (Ended (mkResponse 404 ∅ "http://example.com/" "")) /\
  is2xx (mkResponse 404 ∅ "http://example.com/" "") = false /\
  exists s',
    testPage (env notFound image) everything "http://example.com/" blank = Next s' /\
    issues s' = [("http://example.com/", "Bad page (404): http://example.com/ (5ms)")] /\
    logged s' = [] /\
    pendingCallbacks s' = [] /\
    requests s' = [mkRequest Http "http://example.com/" GET true].
Proof.
  destruct (failed_page_skips_checks (env notFound image) everything "http://example.com/"
              blank (Ended (mkResponse 404 ∅ "http://example.com/" "")) eq_refl eq_refl)
    as (s' & Hpage & Hissues & _ & Hlogged & Hqueue & _ & Hrequests).
  refine (conj eq_refl (conj eq_refl _)).
  exists s'. exact (conj Hpage (conj Hissues (conj Hlogged (conj Hqueue Hrequests)))).
Defined.

Lemma redirected_page_links_witness :
  answer (env relocated image) (length (requests blank))
         (pageRequest (env relocated image) "http://example.com/old") =
    inr (Ended (mkResponse 200 ∅ "http://example.com/new/" "hello")) /\
  is2xx (mkResponse 200 ∅ "http://example.com/new/" "hello") = true /\
  exists s',
    testPage (env relocated image) linksAndCaching "http://example.com/old" blank = Next s' /\
    logged s' = ["Page: http://example.com/old -> http://example.com/new/ (5ms)"] /\
    pendingCallbacks s' =
      [ TestLink "http://example.com/new/" "http://example.com/about.html" false;
        TestLink "http://example.com/new/" "http://example.com/a.png" false ] /\
    Forall (filedUnder "http://example.com/old") (issuesSince blank s').
Proof.
  assert (request_href (mkResponse 200 ∅ "http://example.com/new/" "hello") <>
            "http://example.com/old") as Hmoved by discriminate.
  destruct (redirected_page_links (env relocated image) linksAndCaching
              "http://example.com/old" blank
              (mkResponse 200 ∅ "http://example.com/new/" "hello") eq_refl eq_refl Hmoved)
    as (s' & Hpage & Hlogged & Hqueue & Hfiled).
  refine (conj eq_refl (conj eq_refl _)).
  exists s'. exact (conj Hpage (conj Hlogged (conj Hqueue Hfiled))).
Defined.

Lemma file_page_has_no_headers_witness :
  requestFor (envWith allFine readable noDocuments noErrors) "file:test/page.html" = File /\
  answer (envWith allFine readable noDocuments noErrors) (length (requests blank))
         (pageRequest (envWith allFine readable noDocuments noErrors) "file:test/page.html") =
    inr (Ended (mkResponse 200 ∅ "file:test/page.html" "hello")) /\
  issues (checkPageCaching cachingAndCompression "file:test/page.html"
            (mkResponse 200 ∅ "file:test/page.html" "hello") blank) =
    [ ("file:test/page.html", "Missing Cache-Control header in response");
      ("file:test/page.html", "Missing ETag header in response") ] /\
  issues (checkPageCompression cachingAndCompression "file:test/page.html"
            (mkResponse 200 ∅ "file:test/page.html" "hello") blank) =
    [ ("file:test/page.html", "Missing Content-Encoding header in response") ].
Proof.
  destruct (file_page_has_no_headers (envWith allFine readable noDocuments noErrors)
              cachingAndCompression "file:test/page.html" blank
              (mkResponse 200 ∅ "file:test/page.html" "hello") eq_refl eq_refl)
    as (_ & _ & _ & Hcaching & Hcompression & _).
  exact (conj eq_refl (conj eq_refl (conj (Hcaching blank) (Hcompression blank)))).
Defined.



Lemma redirect_not_reported_by_default_witness :
  noRedirects (links []) = false /\
  useGetRequest (links []) true = true /\
  answer (env moved noDocuments) (length (requests blank))
         (linkRequest (env moved noDocuments) (links []) "http://example.com/moved" true) =
    inr (Ended (mkResponse 301 {[ "location" := "/x" ]} "http://example.com/moved" "")) /\
  is2xx (mkResponse 301 {[ "location" := "/x" ]} "http://example.com/moved" "") = false /\
  req_followRedirect
    (linkRequest (env moved noDocuments) (links []) "http://example.com/moved" true) = true /\
  exists s',
    testLink (env moved noDocuments) (links []) "http://example.com/"
             "http://example.com/moved" true blank = Next s' /\
    issues s' = [("http://example.com/", "Bad link (301): http://example.com/moved (5ms)")].
Proof.
  destruct (redirect_not_reported_by_default (env moved noDocuments) (links [])
              "http://example.com/" "http://example.com/moved" true blank
              (mkResponse 301 {[ "location" := "/x" ]} "http://example.com/moved" "")
              eq_refl eq_refl (or_introl eq_refl) eq_refl eq_refl)
    as (Hfollow & s' & Hlink & Hissues & _).
  refine (conj eq_refl (conj eq_refl (conj eq_refl (conj eq_refl (conj Hfollow _))))).
  exists s'. exact (conj Hlink Hissues).
Defined.

Lemma file_link_read_once_witness :
  requestFor (envWith allFine readable noDocuments noErrors) "file:test/other.html" = File /\
  (noHashLink (envWith allFine readable noDocuments noErrors) "file:test/other.html"
     ∉ testedLinks blank) /\
  answer (envWith allFine readable noDocuments noErrors) (length (requests blank))
         (linkRequest (envWith allFine readable noDocuments noErrors) (links [])
                      "file:test/other.html" false) =
    inr (Ended (mkResponse 200 ∅ "file:test/other.html" "hello")) /\
  exists s',
    testLink (envWith allFine readable noDocuments noErrors) (links [])
             "file:test/page.html" "file:test/other.html" false blank = Next s' /\
    requests s' = [mkRequest File "file:test/other.html" HEAD true] /\
    logged s' = ["Link: file:test/other.html (5ms)"] /\
    issues s' = [].
Proof.
  assert (noHashLink (envWith allFine readable noDocuments noErrors) "file:test/other.html"
            ∉ testedLinks blank) as Hout by (apply includes_false; reflexivity).
  destruct (file_link_read_once (envWith allFine readable noDocuments noErrors) (links [])
              "file:test/page.html" "file:test/other.html" blank
              (Ended (mkResponse 200 ∅ "file:test/other.html" "hello"))
              eq_refl eq_refl eq_refl Hout eq_refl)
    as (s' & Hlink & Hrequests & Hlogged & Hissues).
  refine (conj eq_refl (conj Hout (conj eq_refl _))).
  exists s'. exact (conj Hlink (conj Hrequests (conj Hlogged Hissues))).
Defined.

Lemma no_pages_no_work_witness :
  pageUrls (links []) = [] /\
  run (env allFine noDocuments) (links []) 2 (start (env allFine noDocuments) (links [])) =
    (Stopped,
     {| pendingCallbacks := []; issues := []; testedLinks := []; logged := []; errors := [];
        requests := []; completions := [(None, 0)] |}).
Proof.
  exact (conj eq_refl (no_pages_no_work (env allFine noDocuments) (links []) eq_refl)).
Defined.

Lemma page_issues_in_order_witness :
  answer (env allFine noDocuments) (length (requests blank))
         (pageRequest (env allFine noDocuments) "http://example.com/") =
    inr (Ended (mkResponse 200 ∅ "http://example.com/" "hello")) /\
  is2xx (mkResponse 200 ∅ "http://example.com/" "hello") = true /\
  exists s',
    testPage (env allFine noDocuments) everything "http://example.com/" blank = Next s' /\
    issues s' =
      [ ("http://example.com/", "Page response took more than 1ms to complete");
        ("http://example.com/", "Missing Cache-Control header in response");
        ("http://example.com/", "Missing ETag header in response");
        ("http://example.com/", "Missing Content-Encoding header in response") ].
Proof.
  destruct (page_issues_in_order (env allFine noDocuments) everything "http://example.com/"
              blank (mkResponse 200 ∅ "http://example.com/" "hello") eq_refl eq_refl)
    as (s' & Hpage & Hissues).
  refine (conj eq_refl (conj eq_refl _)).
  exists s'. exact (conj Hpage Hissues).
Defined.

Lemma summary_groups_issues_by_page_witness :
  summaryText
    [ ("http://example.com/a", "Bad link (404): http://example.com/x (5ms)");
      ("http://example.com/a", "Missing ETag header in response");
      ("http://example.com/b", "Bad page (500): http://example.com/b (5ms)") ] =
    "Summary of issues:" +:+ newline +:+
    " http://example.com/a" +:+ newline +:+
    "  Bad link (404): http://example.com/x (5ms)" +:+ newline +:+
    "  Missing ETag header in response" +:+ newline +:+
    " http://example.com/b" +:+ newline +:+
    "  Bad page (500): http://example.com/b (5ms)" +:+ newline.
Proof.
  assert (Forall (fun group : string * list string => group.2 <> [])
            [ ("http://example.com/a",
               ["Bad link (404): http://example.com/x (5ms)"; "Missing ETag header in response"]);
              ("http://example.com/b", ["Bad page (500): http://example.com/b (5ms)"]) ])
    as Hsome by (repeat constructor; discriminate).
  assert (pagesChange
            [ ("http://example.com/a",
               ["Bad link (404): http://example.com/x (5ms)"; "Missing ETag header in response"]);
              ("http://example.com/b", ["Bad page (500): http://example.com/b (5ms)"]) ])
    as Hchange by (simpl; repeat split; discriminate).
  exact (summary_groups_issues_by_page _ Hsome Hchange).
Defined.

Lemma page_without_protocol_is_file_witness :
  Js.truthy (protocol (url_parse (env allFine noDocuments) "test/page.html")) = false /\
  normalizePageUrl (env allFine noDocuments) "test/page.html" = "file:test/page.html" /\
  requestFor (env allFine noDocuments)
    (normalizePageUrl (env allFine noDocuments) "test/page.html") = File /\
  normalizePageUrl (env allFine noDocuments)
    (normalizePageUrl (env allFine noDocuments) "test/page.html") =
    normalizePageUrl (env allFine noDocuments) "test/page.html".
Proof.
  destruct (page_without_protocol_is_file (env allFine noDocuments) "test/page.html" parse_file)
    as (_ & Hfile & Hagain).
  destruct (Hfile eq_refl) as (Hnormal & Hvia & _).
  exact (conj eq_refl (conj Hnormal (conj Hvia Hagain))).
Defined.


Lemma options_left_normalized_witness :
  exists o' defaults,
    checkArguments (env allFine noDocuments) "0.9.0" hostGiven Function optionsGiven =
      (o', inr defaults) /\
    getProperty o' "pageUrls" = Array [Str "http://example.com/"; Str "file:test/page.html"] /\
    getProperty o' "checkLinks" = Bool true /\
    getProperty o' "summary" = Bool false /\
    getProperty o' "linksToIgnore" = Array [] /\
    getProperty o' "maxResponseTime" = Number 100 /\
    getProperty o' "userAgent" = Str "custom-user-agent/1.2.3" /\
    pageUrls (optionsOf o') = ["http://example.com/"; "file:test/page.html"] /\
    maxResponseTime (optionsOf o') = Some 100.
Proof.
  destruct (checkArguments (env allFine noDocuments) "0.9.0" hostGiven Function optionsGiven)
    as [o' [message|defaults]] eqn:Hchecks.
  - vm_compute in Hchecks. discriminate Hchecks.
  - exists o', defaults.
    destruct (options_left_normalized (env allFine noDocuments) "0.9.0" hostGiven Function
                optionsGiven o' defaults Hchecks) as (Hproperties & Hoptions).
    refine (conj eq_refl (conj (Hproperties "pageUrls") (conj (Hproperties "checkLinks")
             (conj (Hproperties "summary") (conj (Hproperties "linksToIgnore")
               (conj (Hproperties "maxResponseTime") (conj (Hproperties "userAgent") _))))))).
    rewrite Hoptions. split; reflexivity.
Defined.

Lemma user_agent_sent_witness :
  exists o' defaults,
    checkArguments (env allFine noDocuments) "0.9.0" hostGiven Function optionsGiven =
      (o', inr defaults) /\
    gzip defaults = true /\
    defaultHeaders defaults !! "Cache-Control" = Some "no-cache" /\
    defaultHeaders defaults !! "Pragma" = Some "no-cache" /\
    defaultHeaders defaults !! "User-Agent" = Some "custom-user-agent/1.2.3".
Proof.
  destruct (checkArguments (env allFine noDocuments) "0.9.0" hostGiven Function optionsGiven)
    as [o' [message|defaults]] eqn:Hchecks.
  - vm_compute in Hchecks. discriminate Hchecks.
  - exists o', defaults.
    destruct (user_agent_sent (env allFine noDocuments) "0.9.0" hostGiven Function
                optionsGiven o' defaults Hchecks) as (Hgzip & Hcache & Hpragma & Hagent & _).
    exact (conj eq_refl (conj Hgzip (conj Hcache (conj Hpragma Hagent)))).
Defined.

Lemma checks_idempotent_witness :
  exists o' defaults,
    checkArguments (env allFine noDocuments) "0.9.0" hostGiven Function optionsGiven =
      (o', inr defaults) /\
    pageUrls (optionsOf optionsGiven) = ["http://example.com/"; "test/page.html"] /\
    checkArguments (env allFine noDocuments) "0.9.0" hostGiven Function o' = (o', inr defaults).
Proof.
  destruct (checkArguments (env allFine noDocuments) "0.9.0" hostGiven Function optionsGiven)
    as [o' [message|defaults]] eqn:Hchecks.
  - vm_compute in Hchecks. discriminate Hchecks.
  - exists o', defaults.
    assert (Forall (fun page =>
                      normalizePageUrl (env allFine noDocuments)
                        (normalizePageUrl (env allFine noDocuments) page) =
                      normalizePageUrl (env allFine noDocuments) page)
                   (pageUrls (optionsOf optionsGiven))) as Hkept
      by (repeat constructor).
    exact (conj eq_refl (conj eq_refl
             (checks_idempotent (env allFine noDocuments) "0.9.0" hostGiven Function
                optionsGiven o' defaults Hchecks Hkept))).
Defined.


Lemma records_only_grow_witness :
  1 <= 3 /\
  let E := env allFine noDocuments in
  let given := links ["http://example.com/"] in
  issues (run E given 1 (start E given)).2 `prefix_of` issues (run E given 3 (start E given)).2 /\
  logged (run E given 1 (start E given)).2 `prefix_of` logged (run E given 3 (start E given)).2 /\
  errors (run E given 1 (start E given)).2 `prefix_of` errors (run E given 3 (start E given)).2 /\
  requests (run E given 1 (start E given)).2 `prefix_of`
    requests (run E given 3 (start E given)).2.
Proof.
  split; [exact (le_S _ _ (le_S _ _ (le_n 1)))|].
  exact (records_only_grow (env allFine noDocuments) (links ["http://example.com/"]) 1 3
           (le_S _ _ (le_S _ _ (le_n 1)))).
Defined.


End Examples.
